(** * Sound theme maker: the dialog layer, the progress bar and the theme editor

    A shallow embedding of [py_kdialog.py] and [soundthememaker.py].

    Python objects that are mutated in place (the [ProgressBar] instance, the
    module globals [py_kdialog.title] and [the_theme]) live in an explicit
    state; an exception leaves the state as it was at the [raise], so every
    computation returns its outcome together with the state it reached.
    External programs ([kdialog], [qdbus]) and the operating system are an
    environment [Env]: every external call is logged as an [event], and the
    environment answers from the events logged so far.

    A Python [str] is modelled by the [string] of its UTF-8 encoding, which
    is also what a string literal of this file denotes; its characters are
    its code points, each given by its bytes ([chars]).  The white space of
    [str.split] and the line boundaries of [str.splitlines] are the complete
    tables of the interpreter.  On ASCII, [str.isalnum] and [str.lower] are
    computed; whether a character beyond ASCII is alphanumeric, and the
    lower case of a text that is not all ASCII, are read from the character
    database of the interpreter, which is part of the environment. *)

From Stdlib Require Import ZArith List String Ascii Bool Lia DecimalString PrimFloat.
Import ListNotations.

#[local] Open Scope string_scope.
#[local] Open Scope Z_scope.
#[local] Open Scope list_scope.
#[local] Set Warnings "-register-all".

(** ** Python values, exceptions and outcomes *)

(** The values [json.load] produces, which are also the values the fields of
    a theme hold ([None], [bool], [int], [float], [str], [list], [dict] with
    [str] keys, in insertion order). *)
Inductive pyval : Type :=
| PNone
| PBool (b : bool)
| PInt (z : Z)
| PFloat (f : float)
| PStr (s : string)
| PList (l : list pyval)
| PDict (d : list (string * pyval)).

Inductive exn_class : Type :=
| TypeError | ValueError | RuntimeError | KeyError | IndexError
| AttributeError | NameError | OSError | FileNotFoundError
| NotADirectoryError | FileExistsError | JSONDecodeError | NotImplementedError
| KDialogError | InvalidDialogTypeError | UnexpectedNonZeroError
| CancelledError
| PermissionError | IsADirectoryError | UnicodeDecodeError
| UnicodeEncodeError | RecursionError.

(** An exception: its class and the message the source raises it with (the
    messages of exceptions raised by the interpreter itself are left empty). *)
Record exn : Type := Exn { exn_cls : exn_class; exn_msg : string }.

Definition exn_class_eqb (a b : exn_class) : bool :=
  match a, b with
  | TypeError, TypeError | ValueError, ValueError
  | RuntimeError, RuntimeError | KeyError, KeyError
  | IndexError, IndexError | AttributeError, AttributeError
  | NameError, NameError | OSError, OSError
  | FileNotFoundError, FileNotFoundError
  | NotADirectoryError, NotADirectoryError
  | FileExistsError, FileExistsError
  | JSONDecodeError, JSONDecodeError
  | NotImplementedError, NotImplementedError
  | KDialogError, KDialogError
  | InvalidDialogTypeError, InvalidDialogTypeError
  | UnexpectedNonZeroError, UnexpectedNonZeroError
  | CancelledError, CancelledError
  | PermissionError, PermissionError
  | IsADirectoryError, IsADirectoryError
  | UnicodeDecodeError, UnicodeDecodeError
  | UnicodeEncodeError, UnicodeEncodeError
  | RecursionError, RecursionError => true
  | _, _ => false
  end.

(** The outcome of a call: a value, a raised exception, or [OutOfFuel] when a
    [while] loop of the source was not given enough iterations to finish. *)
Inductive outcome (A : Type) : Type :=
| Ok (a : A)
| Raise (e : exn)
| OutOfFuel.
Arguments Ok {A} a.
Arguments Raise {A} e.
Arguments OutOfFuel {A}.

(** Computations over a state [S]: the state is threaded through, and it is
    kept as it stands when an exception is raised. *)
Definition M (S A : Type) : Type := S -> outcome A * S.

Definition ret {S A} (a : A) : M S A := fun s => (Ok a, s).
Definition raise {S A} (e : exn) : M S A := fun s => (Raise e, s).
Definition bind {S A B} (c : M S A) (k : A -> M S B) : M S B :=
  fun s =>
    match c s with
    | (Ok a, s') => k a s'
    | (Raise e, s') => (Raise e, s')
    | (OutOfFuel, s') => (OutOfFuel, s')
    end.
Definition get {S} : M S S := fun s => (Ok s, s).
Definition modify {S} (f : S -> S) : M S unit := fun s => (Ok tt, f s).

(** [try: c  except <classes>: h] *)
Definition try_except {S A} (c : M S A) (catches : exn -> bool)
    (h : exn -> M S A) : M S A :=
  fun s =>
    match c s with
    | (Raise e, s') => if catches e then h e s' else (Raise e, s')
    | r => r
    end.

Declare Scope py_scope.
Delimit Scope py_scope with py.
Notation "x <- c ;; k" := (bind c (fun x => k))
  (at level 61, c at next level, right associativity) : py_scope.
Notation "c ;; k" := (bind c (fun _ => k))
  (at level 61, right associativity) : py_scope.
#[local] Open Scope py_scope.

(** ** Strings *)

Definition str_of_Z (z : Z) : string := NilZero.string_of_int (Z.to_int z).

Definition Z_of_str (s : string) : option Z :=
  option_map Z.of_int (NilZero.int_of_string s).

Definition is_empty (s : string) : bool :=
  match s with EmptyString => true | _ => false end.

Definition snoc (s : string) (c : ascii) : string := (s ++ String c "")%string.

Definition code (c : ascii) : nat := nat_of_ascii c.

(** *** Characters *)

(** The UTF-8 encoding of a code point. *)
Definition encode (cp : N) : string :=
  let byte (n : N) : ascii := ascii_of_N n in
  (if cp <? 128 then String (byte cp) ""
   else if cp <? 2048 then
     String (byte (192 + cp / 64)) (String (byte (128 + cp mod 64)) "")
   else if cp <? 65536 then
     String (byte (224 + cp / 4096))
       (String (byte (128 + (cp / 64) mod 64))
          (String (byte (128 + cp mod 64)) ""))
   else
     String (byte (240 + cp / 262144))
       (String (byte (128 + (cp / 4096) mod 64))
          (String (byte (128 + (cp / 64) mod 64))
             (String (byte (128 + cp mod 64)) ""))))%N.

(** A byte that continues the encoding of a code point. *)
Definition is_continuation (c : ascii) : bool :=
  let n := code c in ((128 <=? n) && (n <=? 191))%nat.

(** The characters of a text, in order: a character starts at every byte
    that is not a continuation byte. *)
Fixpoint chars_from (cur s : string) : list string :=
  match s with
  | EmptyString => if is_empty cur then [] else [cur]
  | String c s' =>
      if is_continuation c then chars_from (snoc cur c) s'
      else if is_empty cur then chars_from (String c "") s'
      else cur :: chars_from (String c "") s'
  end.
Definition chars (s : string) : list string := chars_from "" s.

(** ["".join(l)] *)
Fixpoint join (l : list string) : string :=
  match l with
  | [] => ""
  | x :: rest => (x ++ join rest)%string
  end.

(** Whether a character is one of the given code points. *)
Definition one_of (cps : list N) (c : string) : bool :=
  existsb (fun cp => String.eqb c (encode cp)) cps.

(** The code points [str.isspace] holds of: U+0009 to U+000D, U+001C to
    U+0020, U+0085, U+00A0, U+1680, U+2000 to U+200A, U+2028, U+2029,
    U+202F, U+205F and U+3000. *)
Definition whitespace : list N :=
  [9; 10; 11; 12; 13; 28; 29; 30; 31; 32; 133; 160; 5760;
   8192; 8193; 8194; 8195; 8196; 8197; 8198; 8199; 8200; 8201; 8202;
   8232; 8233; 8239; 8287; 12288]%N.

(** [c.isspace()] *)
Definition isspace (c : string) : bool := one_of whitespace c.

(** [s.split()]: the maximal runs of characters that are not whitespace. *)
Fixpoint split_from (cur : string) (l : list string) : list string :=
  match l with
  | [] => if is_empty cur then [] else [cur]
  | c :: l' =>
      if isspace c
      then (if is_empty cur then split_from "" l' else cur :: split_from "" l')
      else split_from (cur ++ c)%string l'
  end.
Definition split (s : string) : list string := split_from "" (chars s).

(** [s.rstrip("\n")]: every trailing line feed is removed. *)
Fixpoint rstrip_nl (s : string) : string :=
  match s with
  | EmptyString => ""
  | String c s' =>
      let r := rstrip_nl s' in
      if ((code c =? 10)%nat && is_empty r)%bool then "" else String c r
  end.

(** The line boundaries of [str.splitlines]: U+000A to U+000D, U+001C to
    U+001E, U+0085, U+2028 and U+2029. *)
Definition line_boundaries : list N :=
  [10; 11; 12; 13; 28; 29; 30; 133; 8232; 8233]%N.

Definition is_linebreak (c : string) : bool := one_of line_boundaries c.

Definition carriage_return : string := encode 13.
Definition line_feed : string := encode 10.

(** [s.splitlines()]: a carriage return followed by a line feed is one
    boundary, and no empty last line is produced. *)
Fixpoint splitlines_from (cur : string) (l : list string) : list string :=
  match l with
  | [] => if is_empty cur then [] else [cur]
  | c :: l' =>
      if String.eqb c carriage_return then
        match l' with
        | c' :: l'' =>
            if String.eqb c' line_feed then cur :: splitlines_from "" l''
            else cur :: splitlines_from "" l'
        | [] => cur :: splitlines_from "" l'
        end
      else if is_linebreak c then cur :: splitlines_from "" l'
      else splitlines_from (cur ++ c)%string l'
  end.
Definition splitlines (s : string) : list string :=
  splitlines_from "" (chars s).

(** [c.isalnum()] and [c.lower()] on an ASCII character. *)
Definition ascii_isalnum (c : ascii) : bool :=
  let n := code c in
  ((48 <=? n) && (n <=? 57) || (65 <=? n) && (n <=? 90)
   || (97 <=? n) && (n <=? 122))%nat.

Definition lower_char (c : ascii) : ascii :=
  let n := code c in
  if ((65 <=? n) && (n <=? 90))%nat then ascii_of_nat (n + 32) else c.

(** Whether a text is made of ASCII characters only. *)
Fixpoint is_ascii (s : string) : bool :=
  match s with
  | EmptyString => true
  | String c s' => (code c <? 128)%nat && is_ascii s'
  end.

(** [s.lower()] on an ASCII text. *)
Fixpoint lower_ascii (s : string) : string :=
  match s with
  | EmptyString => ""
  | String c s' => String (lower_char c) (lower_ascii s')
  end.

(** ** External processes *)

(** What the operating system did with a spawned command. *)
Inductive proc_result : Type :=
| Exited (returncode : Z) (stdout : string)
| NoSuchProgram.

(** The calls of the two programs to the outside world, one constructor per
    call of the source that has an effect there.  A call is logged when it
    is made, whether it succeeds or not. *)
Inductive event : Type :=
| Spawn (argv : list string) (input : option string)
| Chdir_parent_of (p : string)
| Write_json (filename : string) (data : pyval)
| Mkdir (p : string)
| Mkdir_parents (p : string)
| Write_index (p : string) (name comment : pyval)
| Copy_sound (src : string) (workdir sound_name : string)
| Copytree (src dst : string)
| Rmtree (p : string).

(** What a file on disk is to [open] and [json.load]: a JSON document, given
    by the value [json.load] returns for it (and [json.dump] wrote it from),
    or a file on which one of the two raises the given exception (a
    [JSONDecodeError] for text that is not JSON, a [UnicodeDecodeError] for
    bytes that are not text, a [PermissionError], an [IsADirectoryError],
    ...).  A file is identified by the string it is opened with. *)
Inductive file : Type :=
| Json_text (data : pyval)
| Unloadable (e : exn).

(** How the [with open(filename, "w")] block of [save_theme] fails, when it
    does: [open] raises, and the disk is as before; or [json.dump] raises on
    the file that was opened and emptied; or the file cannot be flushed and
    closed when the block is left.  In the last two cases the file is left
    with whatever reached it. *)
Inductive write_failure : Type :=
| Open_fails (e : exn)
| Dump_fails (e : exn) (on_disk : file)
| Close_fails (e : exn) (on_disk : file).

(** The environment: how the outside world answers, given what happened so
    far. *)
Record Env : Type := {
  (** the exit status and captured output of a spawned command *)
  spawn_result : list event -> list string -> option string -> proc_result;
  (** whether a file-system call succeeds, and how the writing of a theme
      file fails when it does not *)
  fs_ok : list event -> event -> bool;
  write_fails : list event -> event -> write_failure;
  (** [os.path.exists] on a string, and on a value that is not a string
      (a file descriptor, or an argument [os.stat] refuses) *)
  path_exists : string -> bool;
  exists_other : pyval -> exn + bool;
  (** [os.path.isdir] *)
  path_isdir : string -> bool;
  (** [str(home)] *)
  home : string;
  (** the five characters [random.choices] draws *)
  random_name : list event -> string;
  (** [str()] of a value that is neither a string, [None], a [bool] nor an
      [int], and the text of a formatted traceback *)
  py_repr : pyval -> string;
  format_exception : exn -> string;
  (** the character database: [c.isalnum()] for a character [c] that is
      not ASCII, and [s.lower()] for a text [s] that is not all ASCII *)
  unicode_isalnum : string -> bool;
  unicode_lower : string -> string
}.

(** *** A character database

    The answers of the interpreter for the characters from U+0080 to U+00FF
    and for U+0130.  The runs of this file take it as the character database
    of their environments; no character beyond these occurs in them. *)

Definition code_points (first count : nat) : list N :=
  map N.of_nat (seq first count).

(** The alphanumeric characters among them. *)
Definition sample_alnum : list N :=
  [170; 178; 179; 181; 185; 186; 188; 189; 190]%N
  ++ code_points 192 23 ++ code_points 216 31 ++ code_points 248 8
  ++ [304]%N.

Definition sample_isalnum (c : string) : bool := one_of sample_alnum c.

(** The lower case of a character: the capital letters from U+00C0 to U+00DE
    are 32 code points below their small letters, and U+0130 becomes an [i]
    followed by U+0307. *)
Definition sample_lower_char (c : string) : string :=
  match c with
  | String a EmptyString => String (lower_char a) ""
  | _ =>
      match
        find (fun cp => String.eqb c (encode cp))
          (code_points 192 23 ++ code_points 216 7)
      with
      | Some cp => encode (cp + 32)
      | None =>
          if String.eqb c (encode 304) then ("i" ++ encode 775)%string else c
      end
  end.

Definition sample_lower (s : string) : string :=
  join (map sample_lower_char (chars s)).

(** The arguments of a command, if every one of them is a string. *)
Fixpoint all_some {A} (l : list (option A)) : option (list A) :=
  match l with
  | [] => Some []
  | Some a :: rest =>
      match all_some rest with
      | Some r => Some (a :: r)
      | None => None
      end
  | None :: _ => None
  end.

(** [subprocess.run(argv, input=...)] on the log of events: an argument that
    is [None] is a [TypeError] before anything is spawned; a missing
    executable is a [FileNotFoundError].  The exit status is handed back:
    where the source passes [check=True], the caller treats a status other
    than 0 as the [CalledProcessError] it stands for.  The arguments are
    taken to be free of U+0000: [subprocess.run] refuses an argument that
    holds one with a [ValueError], before it spawns anything. *)
Definition subprocess_run (env : Env) (argv : list (option string))
    (input : option string) : M (list event) proc_result :=
  fun log =>
    match all_some argv with
    | None => (Raise (Exn TypeError ""), log)
    | Some args =>
        match spawn_result env log args input with
        | NoSuchProgram =>
            (Raise (Exn FileNotFoundError ""), log ++ [Spawn args input])
        | r => (Ok r, log ++ [Spawn args input])
        end
    end.

(** ** The progress bar ([py_kdialog.ProgressBar]) *)

Module ProgressBar.

(** The private attributes of an instance. *)
Record t : Type := {
  ref : string;
  itercount : Z;
  progress : Z;
  closed : bool;
  qdbus : option string;
  auto_close : bool
}.

(** An instance together with the log of the commands spawned so far. *)
Record session : Type := { self : t; log : list event }.

Definition set_progress_field (v : Z) (s : session) : session :=
  {| self := {| ref := ref (self s); itercount := itercount (self s);
                progress := v; closed := closed (self s);
                qdbus := qdbus (self s);
                auto_close := auto_close (self s) |};
     log := log s |}.

Definition set_closed_field (b : bool) (s : session) : session :=
  {| self := {| ref := ref (self s); itercount := itercount (self s);
                progress := progress (self s); closed := b;
                qdbus := qdbus (self s);
                auto_close := auto_close (self s) |};
     log := log s |}.

Definition usage_failure : exn :=
  Exn ValueError "Attempted to update a closed progress bar".

Definition range_failure (count : Z) : exn :=
  Exn ValueError
    ("progress must be at least 0 and at most " ++ str_of_Z count ++ ".")%string.

Definition cancelled : exn := Exn CancelledError "Progress bar was cancelled.".

Definition qdbus_missing : exn :=
  Exn RuntimeError
    "qdbus executable is not set for some reason. It should have been set when this class was instantiated.".

Section Methods.
Variable env : Env.

(** [subprocess.run] from a method: the spawned command goes to the log. *)
Definition run (argv : list (option string)) : M session proc_result :=
  fun s =>
    let '(r, l) := subprocess_run env argv None (log s) in
    (r, {| self := self s; log := l |}).

(** The command [update] spawns for the value [v]. *)
Definition set_argv (q : string) (p : t) (v : Z) : list string :=
  q :: split (ref p) ++ ["Set"; ""; "value"; str_of_Z v].

(** The command [close] spawns. *)
Definition close_argv (q : string) (p : t) : list string :=
  q :: split (ref p) ++ ["close"].

(** [close]: the flag is set, then the close command is spawned; its exit
    status is not looked at. *)
Definition close : M session unit :=
  modify (set_closed_field true) ;;
  s <- get ;;
  _ <- run (qdbus (self s) :: map Some (split (ref (self s)) ++ ["close"])) ;;
  ret tt.

(** [update] *)
Definition update : M session unit :=
  s <- get ;;
  if closed (self s) then raise usage_failure
  else
    let call_args :=
      split (ref (self s)) ++ ["Set"; ""; "value"; str_of_Z (progress (self s))] in
    match qdbus (self s) with
    | None => raise qdbus_missing
    | Some q =>
        r <- run (map Some (q :: call_args)) ;;
        match r with
        | Exited 0 _ => ret tt
        | _ => close ;; raise cancelled
        end
    end.

(** The setter of the [progress] property, on an [int]. *)
Definition set_progress (value : Z) : M session unit :=
  s <- get ;;
  if (value <? 0) || (value >? itercount (self s))
  then raise (range_failure (itercount (self s)))
  else modify (set_progress_field value) ;; update.

(** [increment] *)
Definition increment : M session unit :=
  s <- get ;;
  if closed (self s) then raise usage_failure
  else
    modify (set_progress_field (progress (self s) + 1)) ;;
    update ;;
    s' <- get ;;
    if (progress (self s') >=? itercount (self s')) && auto_close (self s')
    then close
    else ret tt.

(** [__exit__] *)
Definition exit : M session unit :=
  s <- get ;;
  if negb (closed (self s)) then close else ret tt.

(** The loop of [__init__] over the candidate executables: the first one
    that runs on the reference with exit status 0 is kept. *)
Fixpoint probe (choices : list string) (r : string) (l : list event)
    : option string * list event :=
  match choices with
  | [] => (None, l)
  | executable :: rest =>
      match subprocess_run env (map Some (executable :: split r)) None l with
      | (Ok (Exited 0 _), l') => (Some executable, l')
      | (_, l') => probe rest r l'
      end
  end.

Definition qdbus_choices : list string := ["qdbus6"; "qdbus"; "qdbus-qt5"].

(** [ProgressBar(ref, count, auto_close)] *)
Definition init (r : string) (count : Z) (auto : bool) (l : list event)
    : outcome t * list event :=
  match probe qdbus_choices r l with
  | (Some q, l') =>
      (Ok {| ref := r; itercount := count; progress := 0; closed := false;
             qdbus := Some q; auto_close := auto |}, l')
  | (None, l') =>
      (Raise (Exn RuntimeError
                "Either qdbus is missing, or the specified dbus reference does not exist. Please instantiate this class using the py_kdialog.progressbar() method."),
       l')
  end.

End Methods.

(** The session once a command has been logged. *)
Definition logged (s : session) (argv : list string) : session :=
  {| self := self s; log := log s ++ [Spawn argv None] |}.

(** The value carried by a [Set "" value <n>] command, if the command is
    one. *)
Definition pushed_value (argv : list string) : option Z :=
  match rev argv with
  | n :: "value" :: "" :: "Set" :: _ => Z_of_str n
  | _ => None
  end.

(** The last value pushed to the transport in a log. *)
Definition last_pushed (l : list event) : option Z :=
  fold_left
    (fun acc e =>
       match e with
       | Spawn argv _ =>
           match pushed_value argv with Some v => Some v | None => acc end
       | _ => acc
       end)
    l None.

End ProgressBar.

(** ** The state of the editor *)

(** [class Theme]; [sounds] is the dictionary in insertion order. *)
Record Theme : Type := {
  sounds : list (string * pyval);
  imported_sounds : list pyval;
  name : pyval;
  comment : pyval;
  path : option string;
  modified : bool
}.

(** The module globals [py_kdialog.title] and [the_theme] ([None] while the
    name [the_theme] is not bound yet), the files on disk and the log. *)
Record World : Type := {
  title : option string;
  the_theme : option Theme;
  files : list (string * file);
  events : list event
}.

(** *** Dictionaries in insertion order *)

Fixpoint dict_get {A} (k : string) (d : list (string * A)) : option A :=
  match d with
  | [] => None
  | (k', v) :: rest => if String.eqb k k' then Some v else dict_get k rest
  end.

Definition dict_has {A} (k : string) (d : list (string * A)) : bool :=
  match dict_get k d with Some _ => true | None => false end.

(** [d[k] = v]: an existing key keeps its place, a new one goes last. *)
Fixpoint dict_set {A} (k : string) (v : A) (d : list (string * A))
    : list (string * A) :=
  match d with
  | [] => [(k, v)]
  | (k', v') :: rest =>
      if String.eqb k k' then (k', v) :: rest else (k', v') :: dict_set k v rest
  end.


(** [l.pop(i)], for the list that is left. *)
Definition pop {A} (i : nat) (l : list A) : list A :=
  firstn i l ++ skipn (S i) l.

(** *** Setters *)

Definition with_title (x : option string) (w : World) : World :=
  {| title := x; the_theme := the_theme w; files := files w;
     events := events w |}.
Definition with_theme (x : option Theme) (w : World) : World :=
  {| title := title w; the_theme := x; files := files w;
     events := events w |}.
Definition with_files (x : list (string * file)) (w : World) : World :=
  {| title := title w; the_theme := the_theme w; files := x;
     events := events w |}.
Definition with_events (x : list event) (w : World) : World :=
  {| title := title w; the_theme := the_theme w; files := files w;
     events := x |}.

Definition with_sounds (x : list (string * pyval)) (t : Theme) : Theme :=
  {| sounds := x; imported_sounds := imported_sounds t; name := name t;
     comment := comment t; path := path t; modified := modified t |}.
Definition with_imported (x : list pyval) (t : Theme) : Theme :=
  {| sounds := sounds t; imported_sounds := x; name := name t;
     comment := comment t; path := path t; modified := modified t |}.
Definition with_name (x : pyval) (t : Theme) : Theme :=
  {| sounds := sounds t; imported_sounds := imported_sounds t; name := x;
     comment := comment t; path := path t; modified := modified t |}.
Definition with_comment (x : pyval) (t : Theme) : Theme :=
  {| sounds := sounds t; imported_sounds := imported_sounds t;
     name := name t; comment := x; path := path t; modified := modified t |}.
Definition with_path (x : option string) (t : Theme) : Theme :=
  {| sounds := sounds t; imported_sounds := imported_sounds t;
     name := name t; comment := comment t; path := x;
     modified := modified t |}.
Definition with_modified (x : bool) (t : Theme) : Theme :=
  {| sounds := sounds t; imported_sounds := imported_sounds t;
     name := name t; comment := comment t; path := path t; modified := x |}.

(** ** The dialog layer ([py_kdialog]) *)

Module KDialog.

Definition OK : Z := 0.
Definition CANCEL : Z := 1.
Definition YES : Z := 2.
Definition NO : Z := 3.
Definition CONTINUE : Z := 4.

(** The [dtype] argument of the dialogs that take one. *)
Inductive dialog_type : Type :=
| Dtype_int (z : Z)
| Dtype_str (s : string).

(** The [details] argument of [sorry] and [error]. *)
Inductive dialog_details : Type :=
| No_details
| Details_str (s : string)
| Details_exc (e : exn).

(** A value handed over as a command-line argument: a string is passed on,
    anything else ([None] here) makes [subprocess.run] refuse the command. *)
Definition as_arg (v : pyval) : option string :=
  match v with PStr s => Some s | _ => None end.

(** [call_args.append(flag); call_args.append(label)] under
    [if label is not None]. *)
Definition label_args (flag : string) (label : option string)
    : list (option string) :=
  match label with
  | Some l => [Some flag; Some l]
  | None => []
  end.

(** [UnexpectedNonZeroError(msg)]: the class takes its constructor from
    [subprocess.CalledProcessError], which requires a second argument
    ([cmd]); the call with the message alone is itself a [TypeError], and
    that is what the [raise] statement propagates. *)
Definition unexpected_nonzero : exn := Exn TypeError "".

Section Dialogs.
Variable env : Env.

Definition set_title (x : string) : M World unit := modify (with_title (Some x)).

(** [subprocess.run] of a dialog command. *)
Definition run (argv : list (option string)) (input : option string)
    : M World proc_result :=
  fun w =>
    let '(r, l) := subprocess_run env argv input (events w) in
    (r, with_events l w).

(** The argument vector [do_call] builds. *)
Definition runtime_args (ttl : option string) (args : list (option string))
    : list (option string) :=
  let runtime_args := [Some "kdialog"; Some "--title"; ttl] ++ args in
  match ttl with
  | None => pop 1 runtime_args
  | Some _ => runtime_args
  end.

(** [do_call] *)
Definition do_call (args : list (option string)) (to_stdin : option string)
    : M World (Z * string) :=
  w <- get ;;
  process <- run (runtime_args (title w) args) to_stdin ;;
  match process with
  | Exited returncode out => ret (returncode, rstrip_nl out)
  | NoSuchProgram => raise (Exn FileNotFoundError "")
  end.

(** [yesnocancel] *)
Definition yesnocancel (text : string) (dtype : dialog_type)
    (yes_label no_label cancel_label : option string) : M World Z :=
  let call_args :=
    label_args "--yes-label" yes_label ++ label_args "--no-label" no_label
    ++ label_args "--cancel-label" cancel_label in
  match
    match dtype with
    | Dtype_int 0 | Dtype_str "question" => Some "--yesnocancel"
    | Dtype_int 1 | Dtype_str "warning" => Some "--warningyesnocancel"
    | _ => None
    end
  with
  | None =>
      raise (Exn InvalidDialogTypeError
               "Invalid dialog type. Valid options are 'question' (0) and 'warning' (1)")
  | Some flag =>
      r <- do_call (call_args ++ [Some flag; Some text]) None ;;
      let returncode := fst r in
      if returncode =? 0 then ret YES
      else if returncode =? 1 then ret NO
      else ret CANCEL
  end.

(** The arguments [sorry] and [error] share, for the two flags of each. *)
Definition detailed_args (plain detailed text : string)
    (ok_label : option string) (details : dialog_details)
    : list (option string) :=
  let is_detailed :=
    match details with No_details => false | _ => true end in
  label_args "--ok-label" ok_label
  ++ [Some (if is_detailed then detailed else plain); Some text]
  ++ match details with
     | No_details => []
     | Details_exc e => [Some (format_exception env e)]
     | Details_str d => [Some d]
     end.

Definition detailed_result (returncode : Z) : M World (option Z) :=
  if returncode =? 0 then ret (Some OK)
  else if returncode =? 2 then ret None
  else raise unexpected_nonzero.

(** [sorry] *)
Definition sorry (text : string) (ok_label : option string)
    (details : dialog_details) : M World (option Z) :=
  r <- do_call (detailed_args "--sorry" "--detailedsorry" text ok_label details)
         None ;;
  detailed_result (fst r).

(** [error] *)
Definition error (text : string) (ok_label : option string)
    (details : dialog_details) : M World (option Z) :=
  r <- do_call (detailed_args "--error" "--detailederror" text ok_label details)
         None ;;
  detailed_result (fst r).

(** [show_exc]; [current] is [sys.exc_info()[1]], the exception being
    handled. *)
Definition show_exc (text : string) (dtype : dialog_type)
    (ok_label : option string) (current : option exn) : M World unit :=
  let details :=
    match current with Some e => Details_exc e | None => No_details end in
  match dtype with
  | Dtype_int 0 | Dtype_str "sorry" => _ <- sorry text ok_label details ;; ret tt
  | Dtype_int 1 | Dtype_str "error" => _ <- error text ok_label details ;; ret tt
  | _ =>
      raise (Exn InvalidDialogTypeError
               "Invalid dialog type. Valid options are 'sorry' (0) and 'error' (1)")
  end.

(** [msgbox] *)
Definition msgbox (text : string) (ok_label : option string) : M World unit :=
  _ <- do_call (label_args "--ok-label" ok_label
                ++ [Some "--msgbox"; Some text]) None ;;
  ret tt.

(** The value a single-answer dialog returns. *)
Definition answer {A} (r : Z * A) : option A :=
  if fst r =? 0 then Some (snd r) else None.

(** [inputbox] *)
Definition inputbox (text : string) (init : pyval)
    (ok_label cancel_label : option string) : M World (option string) :=
  let call_args :=
    label_args "--ok-label" ok_label
    ++ label_args "--cancel-label" cancel_label
    ++ [Some "--inputbox"; Some text]
    ++ match init with PNone => [] | _ => [as_arg init] end in
  r <- do_call call_args None ;;
  ret (answer r).

(** [combobox] *)
Definition combobox (text : string) (items : list pyval)
    (ok_label cancel_label : option string) : M World (option string) :=
  let call_args :=
    label_args "--ok-label" ok_label
    ++ label_args "--cancel-label" cancel_label
    ++ [Some "--combobox"; Some text] ++ map as_arg items in
  r <- do_call call_args None ;;
  ret (answer r).

(** [menu] *)
Definition menu (text : string) (items : list string)
    (ok_label cancel_label : option string) : M World (option string) :=
  if negb (Nat.eqb (Nat.modulo (List.length items) 2) 0)
  then raise (Exn KDialogError "Every item must have a tag and a name.")
  else
    let call_args :=
      label_args "--ok-label" ok_label
      ++ label_args "--cancel-label" cancel_label
      ++ [Some "--menu"; Some text] ++ map Some items in
    r <- do_call call_args None ;;
    ret (answer r).

(** The start directory checks of the file dialogs; [startDir] has already
    been defaulted to ["."]. *)
Definition start_dir_args (startDir : string) : M World (list (option string)) :=
  if negb (path_isdir env startDir)
  then raise (Exn NotADirectoryError
                ("Cannot open " ++ startDir ++ ": Not a directory")%string)
  else if negb (path_exists env startDir)
  then raise (Exn FileNotFoundError
                ("Cannot open " ++ startDir ++ ": No such file or directory")%string)
  else ret [Some startDir].

Definition type_args (type : option string) : list (option string) :=
  match type with Some t => [Some t] | None => [] end.

(** [getopenfilename] *)
Definition getopenfilename (type : option string) (startDir : option string)
    (allow_multiple : bool) : M World (option (list string)) :=
  let startDir := match startDir with Some d => d | None => "." end in
  dir <- start_dir_args startDir ;;
  let call_args :=
    (if allow_multiple then [Some "--multiple"; Some "--separate-output"]
     else [])
    ++ [Some "--getopenfilename"] ++ dir ++ type_args type in
  r <- do_call call_args None ;;
  ret (option_map splitlines (answer r)).

(** [getsavefilename] *)
Definition getsavefilename (type : option string) (startDir : option string)
    : M World (option string) :=
  let startDir := match startDir with Some d => d | None => "." end in
  dir <- start_dir_args startDir ;;
  let call_args := [Some "--getsavefilename"] ++ dir ++ type_args type in
  r <- do_call call_args None ;;
  ret (answer r).

End Dialogs.
End KDialog.

(** ** The theme editor ([soundthememaker]) *)

Module Editor.
Import KDialog.

Definition IMPORT_SOUND : string := "Import sound... ".
Definition UNSET_SOUND : string := "Unset sound... ".
Definition NOT_A_THEME : string := "This doesn't look like a sound theme.".
Definition tmp_dir : string := "/tmp".

(** The keys of the dictionary [Theme.__init__] builds, in its order. *)
Definition sound_ids : list string :=
  ["alarm-clock-elapsed"; "audio-channel-front-center";
   "audio-channel-front-left"; "audio-channel-front-right";
   "audio-channel-rear-center"; "audio-channel-rear-left";
   "audio-channel-rear-right"; "audio-channel-side-left";
   "audio-channel-side-right"; "audio-test-signal"; "audio-volume-change";
   "battery-caution"; "battery-full"; "battery-low"; "bell";
   "bell-window-system"; "camera-shutter"; "complete"; "complete-media-burn";
   "complete-media-error"; "completion-fail"; "completion-partial";
   "completion-rotation"; "completion-success"; "desktop-login";
   "desktop-logout"; "device-added"; "device-removed"; "dialog-error";
   "dialog-error-critical"; "dialog-error-serious";
   "dialog-error-veryserious"; "dialog-information"; "dialog-question";
   "dialog-special"; "dialog-warning"; "game-over-loser"; "game-over-winner";
   "media-insert-request"; "message"; "message-attention";
   "message-connectivity-problem"; "message-connectivity-error";
   "message-connectivity-error-serious"; "message-connectivity-lost";
   "message-contact-in"; "message-contact-out"; "message-error";
   "message-highlight"; "message-irc-event"; "message-lowpriority";
   "message-new-email"; "message-new-instant"; "message-new-sms";
   "message-sent-instant"; "network-connectivity-established";
   "network-connectivity-lost"; "outcome-failure"; "outcome-success";
   "phone-incoming-call"; "phone-outgoing-busy"; "phone-outgoing-calling";
   "power-plug"; "power-unplug"; "print-error"; "service-login";
   "service-logout"; "theme-demo"; "trash-empty"; "window-attention";
   "window-close"; "window-maximized"; "window-minimized"; "window-move-end";
   "window-move-start"; "window-pin"; "window-question"; "window-shaded";
   "window-unpin"; "window-unshaded"].

(** [Theme()] *)
Definition Theme_init : Theme :=
  {| sounds := map (fun k => (k, PNone)) sound_ids;
     imported_sounds := [];
     name := PStr "Sound theme";
     comment := PStr "This is a sound theme!";
     path := None;
     modified := false |}.

(** *** Paths *)

Fixpoint ends_with_slash (p : string) : bool :=
  match p with
  | EmptyString => false
  | String c EmptyString => (code c =? 47)%nat
  | String _ p' => ends_with_slash p'
  end.

(** [str(p / c)] for a normalised path [p] and a component [c] that is a
    plain name or empty: an empty component leaves the path as it is. *)
Definition path_div (p c : string) : string :=
  if is_empty c then p
  else if ends_with_slash p then (p ++ c)%string
  else (p ++ "/" ++ c)%string.

(** The text after the last slash of a path ([PurePath.name]). *)
Fixpoint final_component_from (cur s : string) : string :=
  match s with
  | EmptyString => cur
  | String c s' =>
      if (code c =? 47)%nat then final_component_from "" s'
      else final_component_from (snoc cur c) s'
  end.
Definition final_component (p : string) : string := final_component_from "" p.

Section Functions.
Variable env : Env.

(** [c.isalnum()] on a character. *)
Definition isalnum (c : string) : bool :=
  match c with
  | String a EmptyString =>
      if (code a <? 128)%nat then ascii_isalnum a else unicode_isalnum env c
  | _ => unicode_isalnum env c
  end.

(** [s.lower()] *)
Definition lower (s : string) : string :=
  if is_ascii s then lower_ascii s else unicode_lower env s.

(** ["".join(e for e in s if e.isalnum())] on a string [s] *)
Definition alnum_only (s : string) : string :=
  join (filter isalnum (chars s)).

(** [s.isalnum()] on a whole string: not empty, and every character is. *)
Definition str_isalnum (s : string) : bool :=
  negb (is_empty s) && forallb isalnum (chars s).

(** ["".join(e for e in items if e.isalnum())] on the items of a list: an
    item that is not a string has no [isalnum]. *)
Fixpoint join_alnum_items (items : list pyval) : exn + string :=
  match items with
  | [] => inr ""
  | PStr e :: rest =>
      match join_alnum_items rest with
      | inr r => inr ((if str_isalnum e then e else "") ++ r)%string
      | inl x => inl x
      end
  | _ :: _ => inl (Exn AttributeError "")
  end.

(** ["".join(e for e in v if e.isalnum())] on what the [name] attribute may
    hold: a string is iterated by character, a list by item, a dictionary by
    key, and nothing else can be iterated. *)
Definition join_alnum (v : pyval) : exn + string :=
  match v with
  | PStr s => inr (alnum_only s)
  | PList l => join_alnum_items l
  | PDict d => join_alnum_items (map (fun kv => PStr (fst kv)) d)
  | _ => inl (Exn TypeError "")
  end.

(** [str(v)], as the f-strings of the source apply it. *)
Definition py_str (v : pyval) : string :=
  match v with
  | PStr s => s
  | PNone => "None"
  | PBool true => "True"
  | PBool false => "False"
  | PInt z => str_of_Z z
  | _ => py_repr env v
  end.

(** Reading the global [the_theme]. *)
Definition get_theme : M World Theme :=
  w <- get ;;
  match the_theme w with
  | Some t => ret t
  | None => raise (Exn NameError "")
  end.

(** Updating the object the global [the_theme] is bound to. *)
Definition update_theme (f : Theme -> Theme) : M World unit :=
  t <- get_theme ;;
  modify (with_theme (Some (f t))).

(** A call to the file system: logged, then it succeeds or raises. *)
Definition fs_call (e : event) : M World unit :=
  fun w =>
    let w' := with_events (events w ++ [e]) w in
    if fs_ok env (events w) e then (Ok tt, w') else (Raise (Exn OSError ""), w').

Definition lift_sum {A} (r : exn + A) : M World A :=
  match r with inr a => ret a | inl e => raise e end.

(** [set_title] *)
Definition set_title : M World unit :=
  t <- get_theme ;;
  tmp_name <- inputbox env "Enter theme name..." (name t) None None ;;
  match tmp_name with
  | Some n =>
      update_theme (with_name (PStr n)) ;;
      update_theme (with_modified true)
  | None => ret tt
  end.

(** [set_comment] *)
Definition set_comment : M World unit :=
  t <- get_theme ;;
  tmp_comment <- inputbox env "Enter theme comment..." (comment t) None None ;;
  match tmp_comment with
  | Some c =>
      update_theme (with_comment (PStr c)) ;;
      update_theme (with_modified true)
  | None => ret tt
  end.

(** [the_sound[0]] *)
Definition first_item (l : list string) : M World string :=
  match l with
  | x :: _ => ret x
  | [] => raise (Exn IndexError "")
  end.

(** The first statements of [edit_sound], up to the choice between the
    imported sounds, unsetting and importing; the local [the_sound] is a
    string or [None]. *)
Definition choose_sound (sound : string) : M World (option string) :=
  t <- get_theme ;;
  let items := imported_sounds t ++ [PStr UNSET_SOUND; PStr IMPORT_SOUND] in
  if (2 <? List.length items)%nat
  then combobox env ("Choose a sound to use for " ++ sound ++ ".")%string
         items None None
  else ret (Some IMPORT_SOUND).

(** The statements of [edit_sound] under [if the_sound == IMPORT_SOUND]. *)
Definition import_sound : M World (option string) :=
  picked <- getopenfilename env
              (Some "audio/flac audio/mpeg audio/vnd.wave audio/ogg audio/aac")
              None false ;;
  the_sound <-
    match picked with
    | Some l => x <- first_item l ;; ret (Some x)
    | None => ret None
    end ;;
  update_theme
    (fun t =>
       with_imported
         (imported_sounds t
          ++ [match the_sound with Some x => PStr x | None => PNone end])
         t) ;;
  match the_sound with
  | Some x => fs_call (Chdir_parent_of x)
  | None => raise (Exn TypeError "")
  end ;;
  ret the_sound.

(** [edit_sound] *)
Definition edit_sound (sound : string) : M World unit :=
  the_sound <- choose_sound sound ;;
  the_sound <-
    (if match the_sound with
        | Some x => String.eqb x IMPORT_SOUND
        | None => false
        end
     then import_sound
     else ret the_sound) ;;
  match the_sound with
  | Some x =>
      (if negb (String.eqb x UNSET_SOUND)
       then update_theme (fun t => with_sounds (dict_set sound (PStr x) (sounds t)) t)
       else update_theme (fun t => with_sounds (dict_set sound PNone (sounds t)) t)) ;;
      update_theme (with_modified true)
  | None => ret tt
  end.

(** The items [add_sound] hands to the menu: each key, then the key with its
    value in brackets. *)
Definition sound_menu_items (d : list (string * pyval)) : list string :=
  flat_map
    (fun kv => [fst kv; (fst kv ++ " (" ++ py_str (snd kv) ++ ")")%string]) d.

(** [add_sound]: the loop runs for at most [fuel] iterations. *)
Fixpoint add_sound (fuel : nat) : M World unit :=
  match fuel with
  | O => fun w => (OutOfFuel, w)
  | S fuel' =>
      t <- get_theme ;;
      KDialog.set_title ("Editing sounds in theme " ++ py_str (name t))%string ;;
      t <- get_theme ;;
      the_sound <- menu env "Choose a sound to define:"
                     (sound_menu_items (sounds t)) None None ;;
      match the_sound with
      | Some x => edit_sound x ;; add_sound fuel'
      | None => ret tt
      end
  end.

(** What a file holds from now on. *)
Definition put_file (filename : string) (f : file) : M World unit :=
  modify (fun w => with_files ((filename, f) :: files w) w).

(** The [with open(filename, "w") as fp] block of [save_theme]: the file is
    opened, the document is dumped to it, the theme is marked as saved and
    bound to the file, and the file is closed on the way out of the block.
    Each of the three steps on the file can fail. *)
Definition write_block (filename : string) (data : pyval) : M World Z :=
  w <- get ;;
  let attempt := Write_json filename data in
  let failure :=
    if fs_ok env (events w) attempt then None
    else Some (write_fails env (events w) attempt) in
  modify (with_events (events w ++ [attempt])) ;;
  match failure with
  | Some (Open_fails e) => raise e
  | _ => ret tt
  end ;;
  match failure with
  | Some (Dump_fails e on_disk) => put_file filename on_disk ;; raise e
  | _ => ret tt
  end ;;
  update_theme (with_modified false) ;;
  update_theme (with_path (Some filename)) ;;
  match failure with
  | Some (Close_fails e on_disk) => put_file filename on_disk ;; raise e
  | _ => put_file filename (Json_text data) ;; ret OK
  end.

(** [save_theme] *)
Definition save_theme (force_dialog : bool) : M World Z :=
  KDialog.set_title "Save theme" ;;
  t <- get_theme ;;
  let data :=
    PDict [("name", name t); ("comment", comment t);
           ("sounds", PDict (sounds t))] in
  filename <-
    match path t, force_dialog with
    | Some p, false => ret (Some p)
    | _, _ => getsavefilename env (Some "application/json") (Some (home env))
    end ;;
  match filename with
  | None => ret CANCEL
  | Some filename => write_block filename data
  end.

(** The loop of [export_theme] over the sounds: every bound sound is copied
    into the staging directory. *)
Fixpoint copy_sounds (workdir : string) (d : list (string * pyval))
    : M World unit :=
  match d with
  | [] => ret tt
  | (sound_name, sound_path) :: rest =>
      match sound_path with
      | PNone => ret tt
      | PStr src => fs_call (Copy_sound src workdir sound_name)
      | _ => raise (Exn TypeError "")
      end ;;
      copy_sounds workdir rest
  end.

(** [export_theme] *)
Definition export_theme (savedir : option string) (quiet : bool)
    : M World unit :=
  (if negb quiet then KDialog.set_title "Export theme" else ret tt) ;;
  t <- get_theme ;;
  go_on <-
    (if modified t then
       if negb quiet then
         msgbox env "To export your theme, you must save it first." None ;;
         status <- save_theme false ;;
         ret (negb (status =? CANCEL))
       else raise (Exn RuntimeError "Theme not saved.")
     else ret true) ;;
  if negb go_on then ret tt
  else
    savedir <-
      match savedir with
      | None => getsavefilename env (Some "inode/directory") (Some (home env))
      | Some d => ret (Some d)
      end ;;
    match savedir with
    | None => ret tt
    | Some savedir =>
        w <- get ;;
        let workdir := path_div tmp_dir (random_name env (events w)) in
        fs_call (Mkdir workdir) ;;
        fs_call (Mkdir (path_div workdir "stereo")) ;;
        t <- get_theme ;;
        match name t, comment t with
        | PNone, _ | _, PNone => raise (Exn TypeError "option values must be strings")
        | _, _ => ret tt
        end ;;
        fs_call (Write_index (path_div workdir "index.theme") (name t) (comment t)) ;;
        t <- get_theme ;;
        copy_sounds workdir (sounds t) ;;
        fs_call (Copytree workdir savedir) ;;
        fs_call (Rmtree workdir) ;;
        if negb quiet then msgbox env "Theme export success!" None else ret tt
    end.

(** The directory [install_theme] installs a theme of the given name to. *)
Definition install_dir (derived : string) : string :=
  path_div
    (path_div (path_div (path_div (home env) ".local") "share") "sounds")
    derived.

(** [install_theme] *)
Definition install_theme : M World unit :=
  KDialog.set_title "Install theme" ;;
  t <- get_theme ;;
  if modified t then
    msgbox env "To install your theme, you must save it first." None
  else
    joined <- lift_sum (join_alnum (name t)) ;;
    let savedir := install_dir (lower joined) in
    fs_call (Mkdir_parents savedir) ;;
    export_theme (Some savedir) true ;;
    msgbox env "Theme installation success!" None.

Definition edit_menu_items : list string :=
  ["0"; "Set theme name";
   "1"; "Set theme comment";
   "2"; "Edit sounds";
   "3"; "Save theme";
   "5"; "Export theme";
   "4"; "Install theme"].

(** What the menu of [edit_theme] and its questions name the theme by. *)
Definition file_info_of (t : Theme) : string :=
  match path t with
  | Some p => p
  | None => py_str (name t)
  end.

(** The [match] statement of [edit_theme]; the result is the value of
    [editing] afterwards. *)
Definition edit_choice (fuel : nat) (choice : option string) (file_info : string)
    : M World bool :=
  match choice with
  | Some "0" => set_title ;; ret true
  | Some "1" => set_comment ;; ret true
  | Some "2" => add_sound fuel ;; ret true
  | Some "3" => _ <- save_theme false ;; ret true
  | Some "4" => install_theme ;; ret true
  | Some "5" => export_theme None false ;; ret true
  | _ =>
      t <- get_theme ;;
      if modified t then
        ans <- yesnocancel env ("Save changes to " ++ file_info ++ "?")%string
                 (Dtype_int 1) None None None ;;
        if ans =? YES then _ <- save_theme false ;; ret false
        else if ans =? NO then ret false
        else ret true
      else ret false
  end.

Definition is_not_implemented (e : exn) : bool :=
  exn_class_eqb (exn_cls e) NotImplementedError.

(** [edit_theme]: the loop runs for at most [fuel] iterations (and so does
    each run of [add_sound] started from it). *)
Fixpoint edit_theme (fuel : nat) : M World unit :=
  match fuel with
  | O => fun w => (OutOfFuel, w)
  | S fuel' =>
      t <- get_theme ;;
      let file_info := file_info_of t in
      KDialog.set_title ("Sound theme maker (" ++ file_info ++ ")")%string ;;
      choice <- menu env "What would you like to do?" edit_menu_items None None ;;
      editing <-
        try_except (edit_choice fuel' choice file_info) is_not_implemented
          (fun _ =>
             _ <- error env "This functionality is not implemented." None
                    No_details ;;
             ret true) ;;
      if editing then edit_theme fuel' else ret tt
  end.

(** [new_theme] *)
Definition new_theme (fuel : nat) : M World unit :=
  modify (with_theme (Some Theme_init)) ;;
  update_theme (with_modified true) ;;
  set_title ;;
  edit_theme fuel.

(** [existing_theme] *)
Definition existing_theme : M World unit :=
  raise (Exn NotImplementedError "").

(** [open(filename)] and [json.load]: a file that does not exist is a
    [FileNotFoundError]. *)
Definition load_json (filename : string) : M World pyval :=
  w <- get ;;
  match dict_get filename (files w) with
  | None => raise (Exn FileNotFoundError "")
  | Some (Unloadable e) => raise e
  | Some (Json_text data) => ret data
  end.

(** [os.path.exists(v)] *)
Definition os_path_exists (v : pyval) : exn + bool :=
  match v with
  | PStr s => inr (path_exists env s)
  | _ => exists_other env v
  end.

(** The first [if] statement of the loop of [json_theme]: a sound that is
    given must exist, and is then counted as imported. *)
Definition check_sound_file (v : pyval) : M World unit :=
  match v with
  | PNone => ret tt
  | _ =>
      found <- lift_sum (os_path_exists v) ;;
      if negb found
      then raise (Exn FileNotFoundError ("Missing sound: " ++ py_str v)%string)
      else update_theme (fun t => with_imported (imported_sounds t ++ [v]) t)
  end.

(** The second [if] statement of the loop: the key must be one of the
    theme. *)
Definition store_sound (k : string) (v : pyval) : M World unit :=
  t <- get_theme ;;
  if dict_has k (sounds t)
  then update_theme (fun t => with_sounds (dict_set k v (sounds t)) t)
  else raise (Exn ValueError ("Unknown sound ID: " ++ py_str v)%string).

(** The loop of [json_theme] over the items of the [sounds] object. *)
Fixpoint load_sounds (items : list (string * pyval)) : M World unit :=
  match items with
  | [] => ret tt
  | (k, v) :: rest =>
      check_sound_file v ;;
      store_sound k v ;;
      load_sounds rest
  end.

(** The body of the [try] statement of [json_theme]. *)
Definition parse_theme (filename : string) : M World unit :=
  data <- load_json filename ;;
  match data with
  | PDict data =>
      match dict_get "name" data with
      | Some n => update_theme (with_name n)
      | None => raise (Exn TypeError NOT_A_THEME)
      end ;;
      match dict_get "comment" data with
      | Some c => update_theme (with_comment c)
      | None => raise (Exn TypeError NOT_A_THEME)
      end ;;
      match dict_get "sounds" data with
      | Some (PDict sounds) => load_sounds sounds
      | _ => raise (Exn TypeError NOT_A_THEME)
      end
  | _ => raise (Exn TypeError NOT_A_THEME)
  end.

(** [json_theme] *)
Definition json_theme (fuel : nat) : M World unit :=
  KDialog.set_title "Open theme JSON" ;;
  filename <- getopenfilename env (Some "application/json") None false ;;
  match filename with
  | None => ret tt
  | Some l =>
      filename <- first_item l ;;
      modify (with_theme (Some Theme_init)) ;;
      update_theme (with_path (Some filename)) ;;
      parsed <-
        try_except (parse_theme filename ;; ret true) (fun _ => true)
          (fun e =>
             show_exc env ("An error occurred parsing " ++ filename ++ ":")%string
               (Dtype_int 1) None (Some e) ;;
             ret false) ;;
      if parsed then edit_theme fuel else ret tt
  end.

End Functions.
End Editor.

(** ** A caller of a progress bar *)

Module Caller.
Import ProgressBar.

(** The calls a user of a session makes on it. *)
Inductive call : Type :=
| Set_progress (value : Z)
| Increment
| Exit
| Close.

Definition perform (env : Env) (c : call) : M session unit :=
  match c with
  | Set_progress value => set_progress env value
  | Increment => increment env
  | Exit => exit env
  | Close => close env
  end.

(** The session after a sequence of calls, by a caller that catches what
    they raise and goes on. *)
Fixpoint perform_all (env : Env) (cs : list call) (s : session) : session :=
  match cs with
  | [] => s
  | c :: rest => perform_all env rest (snd (perform env c s))
  end.

Definition is_close (c : call) : bool :=
  match c with Close => true | _ => false end.

(** An environment in which every command exits with status 0 and prints
    the given text. *)
Definition quiet_env (out : string) : Env :=
  {| spawn_result := fun _ _ _ => Exited 0 out;
     fs_ok := fun _ _ => true;
     write_fails := fun _ _ => Open_fails (Exn PermissionError "");
     path_exists := fun _ => true;
     exists_other := fun _ => inr true;
     path_isdir := fun _ => true;
     home := "/home/user";
     random_name := fun _ => "aB3dE";
     py_repr := fun _ => "";
     format_exception := fun e => exn_msg e;
     unicode_isalnum := sample_isalnum;
     unicode_lower := sample_lower |}.

(** A session as [progressbar] hands it out. *)
Definition fresh (count : Z) : session :=
  {| self := {| ref := "org.kde.kdialog-4242 /ProgressDialog";
                itercount := count; progress := 0; closed := false;
                qdbus := Some "qdbus6"; auto_close := false |};
     log := [] |}.

(** A session on which the value 2 was set and which was then closed. *)
Definition closed_at_two : session :=
  perform_all (quiet_env "") [Set_progress 2; Close] (fresh 5).

(** A session that reached its total. *)
Definition full (count : Z) : session := set_progress_field count (fresh count).

End Caller.

(** ** Runs of the editor *)

Module Scenario.
Import KDialog Editor.

(** The world once a command has been spawned. *)
Definition spawned (w : World) (argv : list string) (input : option string)
    : World :=
  with_events (events w ++ [Spawn argv input]) w.

(** The command [do_call] spawns under a title. *)
Definition kdialog_argv (ttl : string) (args : list string) : list string :=
  "kdialog" :: "--title" :: ttl :: args.

(** A computation that only adds to the log. *)
Definition only_logs {A} (c : M World A) : Prop :=
  forall w, exists rest, snd (c w) = with_events (events w ++ rest) w.

(** A computation after which the log extends the log it started from. *)
Definition grows {A} (c : M World A) : Prop :=
  forall w, exists rest, events (snd (c w)) = events w ++ rest.

(** The arguments of the file dialog [edit_sound] imports a sound with. *)
Definition import_args : list string :=
  ["--getopenfilename"; ".";
   "audio/flac audio/mpeg audio/vnd.wave audio/ogg audio/aac"].

(** The arguments of the file dialog [json_theme] opens. *)
Definition open_args : list string :=
  ["--getopenfilename"; "."; "application/json"].

(** The arguments of the question [edit_theme] asks before it leaves with
    unsaved changes. *)
Definition save_changes_args (file_info : string) : list string :=
  ["--warningyesnocancel"; ("Save changes to " ++ file_info ++ "?")%string].

(** The title [edit_theme] sets. *)
Definition edit_title (file_info : string) : string :=
  ("Sound theme maker (" ++ file_info ++ ")")%string.

(** The arguments of the error dialog that reports a failed open. *)
Definition open_failed_args (env : Env) (filename : string) (e : exn)
    : list string :=
  ["--detailederror";
   ("An error occurred parsing " ++ filename ++ ":")%string;
   format_exception env e].

(** The answers of the menu of [edit_theme] that leave the loop. *)
Definition leaves (choice : option string) : bool :=
  match choice with
  | Some "0" | Some "1" | Some "2" | Some "3" | Some "4" | Some "5" => false
  | _ => true
  end.

(** The document [save_theme] writes for a theme. *)
Definition document (t : Theme) : pyval :=
  PDict [("name", name t); ("comment", comment t);
         ("sounds", PDict (sounds t))].


(** An environment in which every dialog is cancelled (exit status 1). *)
Definition cancel_env : Env :=
  {| spawn_result := fun _ _ _ => Exited 1 "";
     fs_ok := fun _ _ => true;
     write_fails := fun _ _ => Open_fails (Exn PermissionError "");
     path_exists := fun _ => true;
     exists_other := fun _ => inr true;
     path_isdir := fun _ => true;
     home := "/home/user";
     random_name := fun _ => "aB3dE";
     py_repr := fun _ => "";
     format_exception := fun e => exn_msg e;
     unicode_isalnum := sample_isalnum;
     unicode_lower := sample_lower |}.

Definition mentions (flag : string) (argv : list string) : bool :=
  existsb (String.eqb flag) argv.

(** An environment in which the file dialogs answer with the given file
    name, the menus, input boxes and questions are cancelled, and the
    messages are acknowledged. *)
Definition picking_env (filename : string) : Env :=
  {| spawn_result :=
       fun _ argv _ =>
         if mentions "--getopenfilename" argv
            || mentions "--getsavefilename" argv
         then Exited 0 (snoc filename (ascii_of_nat 10))
         else if mentions "--menu" argv || mentions "--inputbox" argv
                 || mentions "--combobox" argv
                 || mentions "--warningyesnocancel" argv
         then Exited 1 ""
         else Exited 0 "";
     fs_ok := fun _ _ => true;
     write_fails := fun _ _ => Open_fails (Exn PermissionError "");
     path_exists := fun _ => true;
     exists_other := fun _ => inr true;
     path_isdir := fun _ => true;
     home := "/home/user";
     random_name := fun _ => "aB3dE";
     py_repr := fun _ => "";
     format_exception := fun e => exn_msg e;
     unicode_isalnum := sample_isalnum;
     unicode_lower := sample_lower |}.

(** The world at the main menu, before any theme exists, with the given
    files on disk. *)
Definition at_main_menu (disk : list (string * file)) : World :=
  {| title := Some "Sound theme maker"; the_theme := None; files := disk;
     events := [] |}.

(** The world in the edit loop on a theme. *)
Definition editing (t : Theme) : World :=
  {| title := Some "Sound theme maker (Sound theme)"; the_theme := Some t;
     files := []; events := [] |}.

(** A world in which the title of the dialogs has been set to [None]. *)
Definition untitled : World :=
  {| title := None; the_theme := None; files := []; events := [] |}.

(** A theme named as in the install scenario. *)
Definition cool_theme : Theme := with_name (PStr "My Cool Theme!") Theme_init.

(** A theme with two sounds bound. *)
Definition two_sounds : Theme :=
  with_modified true
    (with_sounds
       (dict_set "message" (PStr "/tmp/b.ogg")
          (dict_set "bell" (PStr "/tmp/a.wav") (sounds Theme_init)))
       (with_name (PStr "Test") Theme_init)).


End Scenario.

(** ** The other dialogs of [py_kdialog] *)

Module Dialogs.
Import KDialog.

Section Dialogs.
Variable env : Env.

(** The test that [checklist] and [radiolist] make on their items. *)
Definition triples (items : list string) : bool :=
  Nat.eqb (Nat.modulo (List.length items) 3) 0.

Definition not_triples : exn :=
  Exn KDialogError
    "Every item must have a tag, a name, and specify whether it's on or off initially.".

(** [checklist] *)
Definition checklist (text : string) (items : list string)
    (ok_label cancel_label : option string) : M World (option string) :=
  let call_args := [Some "--separate-output"] in
  if negb (triples items) then raise not_triples
  else
    let call_args :=
      call_args ++ label_args "--ok-label" ok_label
      ++ label_args "--cancel-label" cancel_label
      ++ [Some "--checklist"; Some text] ++ map Some items in
    r <- do_call env call_args None ;;
    ret (answer r).

(** [radiolist] *)
Definition radiolist (text : string) (items : list string)
    (ok_label cancel_label : option string) : M World (option string) :=
  let call_args := [Some "--separate-output"] in
  if negb (triples items) then raise not_triples
  else
    let call_args :=
      call_args ++ label_args "--ok-label" ok_label
      ++ label_args "--cancel-label" cancel_label
      ++ [Some "--radiolist"; Some text] ++ map Some items in
    r <- do_call env call_args None ;;
    ret (answer r).

(** [getexistingdirectory] *)
Definition getexistingdirectory (startDir : option string)
    : M World (option string) :=
  let startDir := match startDir with Some d => d | None => "." end in
  dir <- start_dir_args env startDir ;;
  r <- do_call env ([Some "--getexistingdirectory"] ++ dir) None ;;
  ret (answer r).

(** [progressbar]: the dialog is opened, and the session is built on the
    reference it prints. *)
Definition progressbar (label : string) (count : Z) (auto_close : bool)
    (cancel_label : option string) : M World ProgressBar.t :=
  let call_args :=
    label_args "--cancel-label" cancel_label
    ++ [Some "--progressbar"; Some label; Some (str_of_Z count)] in
  r <- do_call env call_args None ;;
  if negb (fst r =? 0) then raise unexpected_nonzero
  else
    fun w =>
      let '(p, l) := ProgressBar.init env (snd r) count auto_close (events w) in
      (p, with_events l w).

End Dialogs.
End Dialogs.

(** ** The main menu ([soundthememaker.main]) *)

Module Main.
Import KDialog Editor.

Section Main.
Variable env : Env.

Definition main_menu_items : list string :=
  ["0"; "Create a new theme";
   "2"; "Open theme JSON";
   "1"; "Import an existing theme"].

(** [main_menu].  [sys.exit(0)] raises [SystemExit], which is not an
    [Exception] and which no handler of the program catches: the result
    [true] stands for it, and [false] for a return. *)
Definition main_menu (fuel : nat) : M World bool :=
  KDialog.set_title "Sound theme maker" ;;
  choice <- menu env "What would you like to do?" main_menu_items None None ;;
  match choice with
  | Some "0" => new_theme env fuel ;; ret false
  | Some "1" => existing_theme ;; ret false
  | Some "2" => json_theme env fuel ;; ret false
  | _ => ret true
  end.

(** The two [except] clauses of [main]. *)
Definition main_handler (e : exn) : M World bool :=
  if is_not_implemented e
  then
    _ <- error env "This functionality is not implemented." None No_details ;;
    ret false
  else
    show_exc env "A serious error has occurred. Details are shown below."
      (Dtype_int 1) None (Some e) ;;
    ret false.

(** [main]: the loop runs for at most [fuel] iterations (and so does each
    loop started from it); it ends when [main_menu] exits the program. *)
Fixpoint main (fuel : nat) : M World unit :=
  match fuel with
  | O => fun w => (OutOfFuel, w)
  | S fuel' =>
      exited <- try_except (main_menu fuel') (fun _ => true) main_handler ;;
      if exited then ret tt else main fuel'
  end.

End Main.
End Main.

(** ** Notions the properties are stated with *)

Module Notions.
Import KDialog Editor Scenario.

(** Whether some byte of a text satisfies a test. *)
Fixpoint has_char (p : ascii -> bool) (s : string) : bool :=
  match s with
  | EmptyString => false
  | String c s' => p c || has_char p s'
  end.

Definition is_linefeed (c : ascii) : bool := (code c =? 10)%nat.

Definition is_slash (c : ascii) : bool := (code c =? 47)%nat.

(** Whether some character of a text is a line boundary. *)
Definition has_linebreak (s : string) : bool := existsb is_linebreak (chars s).

(** Whether every byte of a text continues a character. *)
Fixpoint continues (s : string) : bool :=
  match s with
  | EmptyString => true
  | String c s' => is_continuation c && continues s'
  end.

(** One character: a byte and the bytes that continue it. *)
Definition one_char (c : string) : bool :=
  match c with
  | EmptyString => false
  | String _ t => continues t
  end.

(** One character that starts with a byte of its own. *)
Definition starts (c : string) : bool :=
  match c with
  | EmptyString => false
  | String a t => negb (is_continuation a) && continues t
  end.

(** A list of characters as [chars] gives it: only the first one may start
    with a continuation byte. *)
Definition char_list (l : list string) : bool :=
  match l with
  | [] => true
  | c :: r => one_char c && forallb starts r
  end.

(** The characters of an ASCII text that pass a test. *)
Fixpoint keep (p : ascii -> bool) (s : string) : string :=
  match s with
  | EmptyString => ""
  | String c s' => if p c then String c (keep p s') else keep p s'
  end.

(** A text of [n] line feeds. *)
Fixpoint linefeeds (n : nat) : string :=
  match n with
  | O => ""
  | S n' => String (ascii_of_nat 10) (linefeeds n')
  end.

(** Whether a text ends with a line feed. *)
Fixpoint ends_with_linefeed (s : string) : bool :=
  match s with
  | EmptyString => false
  | String c EmptyString => is_linefeed c
  | String _ s' => ends_with_linefeed s'
  end.

(** A command that is addressed to the indicator of a session: the
    executable of the session, then the words of its reference. *)
Definition addressed (p : ProgressBar.t) (e : event) : Prop :=
  exists q tail,
    ProgressBar.qdbus p = Some q
    /\ e = Spawn (q :: split (ProgressBar.ref p) ++ tail) None.

(** What no method of a session changes: the reference, the total, the
    executable and the auto-close setting stay, a closed session stays
    closed, and the log grows by commands addressed to the indicator. *)
Definition evolves (s s' : ProgressBar.session) : Prop :=
  ProgressBar.ref (ProgressBar.self s') = ProgressBar.ref (ProgressBar.self s)
  /\ ProgressBar.itercount (ProgressBar.self s')
     = ProgressBar.itercount (ProgressBar.self s)
  /\ ProgressBar.qdbus (ProgressBar.self s')
     = ProgressBar.qdbus (ProgressBar.self s)
  /\ ProgressBar.auto_close (ProgressBar.self s')
     = ProgressBar.auto_close (ProgressBar.self s)
  /\ (ProgressBar.closed (ProgressBar.self s) = true ->
      ProgressBar.closed (ProgressBar.self s') = true)
  /\ exists rest,
       ProgressBar.log s' = ProgressBar.log s ++ rest
       /\ Forall (addressed (ProgressBar.self s)) rest.

(** Whether a command, spawned after a log, does not exit with status 0;
    that includes an executable that is missing. *)
Definition rejected (env : Env) (l : list event) (argv : list string) : bool :=
  match spawn_result env l argv None with
  | Exited 0 _ => false
  | _ => true
  end.

(** Whether each of the candidates, run on a reference one after the other
    from a log, is rejected. *)
Fixpoint all_rejected (env : Env) (r : string) (l : list event)
    (candidates : list string) : bool :=
  match candidates with
  | [] => true
  | x :: rest =>
      rejected env l (x :: split r)
      && all_rejected env r (l ++ [Spawn (x :: split r) None]) rest
  end.

(** The two words a label option adds to a command, if it is given. *)
Definition label_strings (flag : string) (label : option string)
    : list string :=
  match label with
  | Some l => [flag; l]
  | None => []
  end.

(** The arguments [progressbar] opens the dialog with. *)
Definition progressbar_args (label : string) (count : Z)
    (cancel_label : option string) : list string :=
  label_strings "--cancel-label" cancel_label
  ++ ["--progressbar"; label; str_of_Z count].

Definition is_increment (c : Caller.call) : bool :=
  match c with Caller.Increment => true | _ => false end.

(** The values [yesnocancel] accepts as [dtype]. *)
Definition question_or_warning (dtype : dialog_type) : bool :=
  match dtype with
  | Dtype_int 0 | Dtype_int 1 | Dtype_str "question" | Dtype_str "warning" =>
      true
  | _ => false
  end.

(** The commands [export_theme] copies the bound sounds of a theme with. *)
Fixpoint copies (workdir : string) (d : list (string * pyval)) : list event :=
  match d with
  | [] => []
  | (sound_name, PStr src) :: rest =>
      Copy_sound src workdir sound_name :: copies workdir rest
  | _ :: rest => copies workdir rest
  end.

(** The staging directory [export_theme] works in, from a world. *)
Definition staging (env : Env) (w : World) : string :=
  path_div tmp_dir (random_name env (events w)).

(** The calls [export_theme] stages a theme with, before it copies the
    staging directory to its destination. *)
Definition staging_calls (workdir : string) (t : Theme) : list event :=
  [Mkdir workdir; Mkdir (path_div workdir "stereo");
   Write_index (path_div workdir "index.theme") (name t) (comment t)]
  ++ copies workdir (sounds t).

(** The answers of the main menu that exit the program. *)
Definition quits (choice : option string) : bool :=
  match choice with
  | Some "0" | Some "1" | Some "2" => false
  | _ => true
  end.

(** The arguments of the file dialog [save_theme] asks for a destination
    with. *)
Definition save_args (env : Env) : list string :=
  ["--getsavefilename"; home env; "application/json"].

(** A file that holds a JSON object with a name, a comment and an object
    of sounds. *)
Definition shaped (f : option file) : bool :=
  match f with
  | Some (Json_text (PDict d)) =>
      match dict_get "name" d, dict_get "comment" d, dict_get "sounds" d with
      | Some _, Some _, Some (PDict _) => true
      | _, _, _ => false
      end
  | _ => false
  end.

(** What a file of another shape is refused with: what [open] or
    [json.load] raises on it, or the [TypeError] of [json_theme] for a
    document that is not a theme. *)
Definition refusal (f : option file) : exn :=
  match f with
  | None => Exn FileNotFoundError ""
  | Some (Unloadable e) => e
  | Some (Json_text _) => Exn TypeError NOT_A_THEME
  end.

(** The class of the exception a call raised, if it raised one. *)
Definition exn_cls_of {A} (o : outcome A) : option exn_class :=
  match o with
  | Raise e => Some (exn_cls e)
  | _ => None
  end.

(** A lower-case ASCII letter or a digit. *)
Definition lower_or_digit (c : ascii) : bool :=
  let n := code c in
  ((48 <=? n) && (n <=? 57) || (97 <=? n) && (n <=? 122))%nat.



(** A dictionary whose values are strings or [None]. *)
Definition paths_or_none (d : list (string * pyval)) : bool :=
  forallb
    (fun kv => match snd kv with PNone | PStr _ => true | _ => false end) d.

(** An environment that answers the file dialogs with the given output and
    status, and cancels everything else. *)
Definition file_dialog_env (returncode : Z) (out : string) : Env :=
  {| spawn_result :=
       fun _ argv _ =>
         if mentions "--getopenfilename" argv
            || mentions "--getsavefilename" argv
         then Exited returncode out
         else Exited 1 "";
     fs_ok := fun _ _ => true;
     write_fails := fun _ _ => Open_fails (Exn PermissionError "");
     path_exists := fun _ => true;
     exists_other := fun _ => inr true;
     path_isdir := fun _ => true;
     home := "/home/user";
     random_name := fun _ => "aB3dE";
     py_repr := fun _ => "";
     format_exception := fun e => exn_msg e;
     unicode_isalnum := sample_isalnum;
     unicode_lower := sample_lower |}.

(** An environment in which nothing is a directory. *)
Definition no_dir_env : Env :=
  {| spawn_result := fun _ _ _ => Exited 0 "";
     fs_ok := fun _ _ => true;
     write_fails := fun _ _ => Open_fails (Exn PermissionError "");
     path_exists := fun _ => false;
     exists_other := fun _ => inr false;
     path_isdir := fun _ => false;
     home := "/home/user";
     random_name := fun _ => "aB3dE";
     py_repr := fun _ => "";
     format_exception := fun e => exn_msg e;
     unicode_isalnum := sample_isalnum;
     unicode_lower := sample_lower |}.

(** An environment in which the commands addressed to a progress indicator
    fail once a value is set, and everything else succeeds. *)
Definition dismissed_env : Env :=
  {| spawn_result :=
       fun _ argv _ => if mentions "Set" argv then Exited 1 "" else Exited 0 "";
     fs_ok := fun _ _ => true;
     write_fails := fun _ _ => Open_fails (Exn PermissionError "");
     path_exists := fun _ => true;
     exists_other := fun _ => inr true;
     path_isdir := fun _ => true;
     home := "/home/user";
     random_name := fun _ => "aB3dE";
     py_repr := fun _ => "";
     format_exception := fun e => exn_msg e;
     unicode_isalnum := sample_isalnum;
     unicode_lower := sample_lower |}.

(** An environment in which copying a directory tree fails. *)
Definition copytree_fails_env : Env :=
  {| spawn_result := fun _ _ _ => Exited 0 "";
     fs_ok := fun _ e => match e with Copytree _ _ => false | _ => true end;
     write_fails := fun _ _ => Open_fails (Exn PermissionError "");
     path_exists := fun _ => true;
     exists_other := fun _ => inr true;
     path_isdir := fun _ => true;
     home := "/home/user";
     random_name := fun _ => "aB3dE";
     py_repr := fun _ => "";
     format_exception := fun e => exn_msg e;
     unicode_isalnum := sample_isalnum;
     unicode_lower := sample_lower |}.

(** An environment in which the main menu answers with the given tag,
    every other menu, input box and question is cancelled and the messages
    are acknowledged. *)
Definition main_choice_env (tag : string) : Env :=
  {| spawn_result :=
       fun _ argv _ =>
         if mentions "Create a new theme" argv then Exited 0 tag
         else if mentions "--menu" argv || mentions "--inputbox" argv
                 || mentions "--getopenfilename" argv
                 || mentions "--warningyesnocancel" argv
         then Exited 1 ""
         else Exited 0 "";
     fs_ok := fun _ _ => true;
     write_fails := fun _ _ => Open_fails (Exn PermissionError "");
     path_exists := fun _ => true;
     exists_other := fun _ => inr true;
     path_isdir := fun _ => true;
     home := "/home/user";
     random_name := fun _ => "aB3dE";
     py_repr := fun _ => "";
     format_exception := fun e => exn_msg e;
     unicode_isalnum := sample_isalnum;
     unicode_lower := sample_lower |}.

(** An environment in which the disk is full: a theme file can be opened
    and written to, and closing it fails and leaves it cut short. *)
Definition full_disk_env : Env :=
  {| spawn_result := fun _ _ _ => Exited 0 "";
     fs_ok := fun _ e => match e with Write_json _ _ => false | _ => true end;
     write_fails :=
       fun _ _ =>
         Close_fails (Exn OSError "No space left on device")
           (Unloadable (Exn JSONDecodeError ""));
     path_exists := fun _ => true;
     exists_other := fun _ => inr true;
     path_isdir := fun _ => true;
     home := "/home/user";
     random_name := fun _ => "aB3dE";
     py_repr := fun _ => "";
     format_exception := fun e => exn_msg e;
     unicode_isalnum := sample_isalnum;
     unicode_lower := sample_lower |}.

(** A saved theme with two sounds bound. *)
Definition saved_two_sounds : Theme :=
  with_path (Some "/home/user/t.json") (with_modified false two_sounds).

End Notions.

(** * Properties *)

(** ** The progress bar *)

Module ProgressBar_facts.
Import ProgressBar Caller.

Ltac unfold_monad :=
  unfold bind, ret, raise, get, modify, run, subprocess_run in *; simpl in *.

Lemma range_test (count value : Z) :
  (value <? 0) || (value >? count) = false <-> 0 <= value <= count.
Proof.
  rewrite orb_false_iff, Z.ltb_ge, Z.gtb_ltb, Z.ltb_ge. tauto.
Qed.

Lemma all_some_map_Some {A} (l : list A) : all_some (map Some l) = Some l.
Proof.
  induction l as [|a l IH]; simpl; [reflexivity|]. now rewrite IH.
Qed.

(** [close] with a known executable: the flag is recorded and the close
    command is spawned, whatever the command then does. *)
Lemma close_known (env : Env) (s : session) (q : string) :
  qdbus (self s) = Some q ->
  exists o,
    (o = Ok tt \/ o = Raise (Exn FileNotFoundError ""))
    /\ close env s
       = (o, {| self := self (set_closed_field true s);
                log := log s ++ [Spawn (close_argv q (self s)) None] |}).
Proof.
  intros Hq. unfold close, close_argv. unfold_monad. rewrite Hq.
  rewrite all_some_map_Some.
  destruct (spawn_result env (log s) _ None); simpl; eauto.
Qed.

(** [close] without an executable: the flag is recorded and the command is
    refused. *)
Lemma close_unknown (env : Env) (s : session) :
  qdbus (self s) = None ->
  close env s = (Raise (Exn TypeError ""), set_closed_field true s).
Proof.
  intros Hq. unfold close, set_closed_field. unfold_monad. now rewrite Hq.
Qed.

Lemma close_closed (env : Env) (s : session) :
  closed (self (snd (close env s))) = true.
Proof.
  destruct (qdbus (self s)) as [q|] eqn:Hq.
  - destruct (close_known env s q Hq) as [o [_ ->]]. reflexivity.
  - now rewrite close_unknown.
Qed.

(** [update], case by case. *)
Lemma update_eq (env : Env) (s : session) :
  update env s =
  if closed (self s) then (Raise usage_failure, s)
  else
    match qdbus (self s) with
    | None => (Raise qdbus_missing, s)
    | Some q =>
        let argv := set_argv q (self s) (progress (self s)) in
        match spawn_result env (log s) argv None with
        | Exited rc _ =>
            if rc =? 0 then (Ok tt, logged s argv)
            else (close env ;; @raise session unit cancelled) (logged s argv)
        | NoSuchProgram => (Raise (Exn FileNotFoundError ""), logged s argv)
        end
    end.
Proof.
  unfold update, set_argv, logged.
  unfold bind at 1, get at 1.
  destruct (closed (self s)); [reflexivity|].
  destruct (qdbus (self s)) as [q|]; [|reflexivity].
  unfold bind at 1, run, subprocess_run.
  rewrite all_some_map_Some.
  destruct (spawn_result env (log s) _ None) as [rc out|]; [|reflexivity].
  destruct rc; reflexivity.
Qed.

(** [update] on an open session whose executable is known spawns the
    command for the recorded progress, and leaves the progress alone. *)
Lemma update_open (env : Env) (s : session) (q : string) :
  closed (self s) = false ->
  qdbus (self s) = Some q ->
  progress (self (snd (update env s))) = progress (self s)
  /\ exists rest,
       log (snd (update env s))
       = log s ++ Spawn (set_argv q (self s) (progress (self s))) None :: rest.
Proof.
  intros Hc Hq. rewrite update_eq, Hc, Hq. cbv zeta.
  set (argv := set_argv q (self s) (progress (self s))).
  destruct (spawn_result env (log s) argv None) as [rc out|].
  - destruct (rc =? 0).
    + split; [reflexivity | exists []; reflexivity].
    + destruct (close_known env (logged s argv) q Hq) as [o [_ Ho]].
      unfold bind. rewrite Ho.
      destruct o; simpl; rewrite <- app_assoc; simpl; eauto.
  - split; [reflexivity | exists []; reflexivity].
Qed.

(** C5: on an open session the setter of [progress] refuses a value with
    the range failure exactly when the value is below 0 or above
    [itercount]; a refused value leaves the session and the log as they
    were, and a value in the range is recorded and handed to the
    transport. *)
Theorem set_progress_accepts_exactly_the_range
    (env : Env) (s : session) (value : Z) :
  closed (self s) = false ->
  (fst (set_progress env value s) = Raise (range_failure (itercount (self s)))
   <-> ~ (0 <= value <= itercount (self s)))
  /\ (~ (0 <= value <= itercount (self s)) -> snd (set_progress env value s) = s)
  /\ (0 <= value <= itercount (self s) ->
      progress (self (snd (set_progress env value s))) = value
      /\ forall q, qdbus (self s) = Some q ->
           exists rest,
             log (snd (set_progress env value s))
             = log s ++ Spawn (set_argv q (self s) value) None :: rest).
Proof.
  intros Hc.
  destruct ((value <? 0) || (value >? itercount (self s))) eqn:Et.
  - assert (Hout : ~ (0 <= value <= itercount (self s))).
    { intro H. apply range_test in H. congruence. }
    unfold set_progress. unfold_monad. rewrite Et. simpl.
    repeat split; try tauto.
  - assert (Hin : 0 <= value <= itercount (self s)) by now apply range_test.
    assert (Hrun : set_progress env value s
                   = update env (set_progress_field value s)).
    { unfold set_progress. unfold_monad. now rewrite Et. }
    rewrite Hrun. repeat split; try tauto.
    + intros Hr. exfalso. rewrite update_eq in Hr. simpl in Hr.
      rewrite Hc in Hr.
      destruct (qdbus (self s)) as [q|] eqn:Hq; [|discriminate].
      destruct (spawn_result env (log s) _ None) as [rc out|];
        [|discriminate].
      destruct (rc =? 0); [discriminate|].
      match type of Hr with
      | context [bind _ _ ?s0] =>
          destruct (close_known env s0 q Hq) as [o [[-> | ->] Ho]];
          unfold bind in Hr; rewrite Ho in Hr
      end; discriminate.
    + destruct (qdbus (self s)) as [q|] eqn:Hq.
      * now destruct (update_open env (set_progress_field value s) q Hc Hq).
      * rewrite update_eq. simpl. now rewrite Hc, Hq.
    + intros q Hq.
      now destruct (update_open env (set_progress_field value s) q Hc Hq).
Qed.

Lemma set_progress_accepts_exactly_the_range_witness :
  closed (self (fresh 5)) = false
  /\ progress (self (snd (set_progress (quiet_env "") 3 (fresh 5)))) = 3.
Proof.
  split; [reflexivity|].
  apply (set_progress_accepts_exactly_the_range (quiet_env "") (fresh 5) 3);
    [reflexivity | simpl; lia].
Defined.

(** The setter of [progress], case by case. *)
Lemma set_progress_eq (env : Env) (s : session) (value : Z) :
  set_progress env value s =
  if (value <? 0) || (value >? itercount (self s))
  then (Raise (range_failure (itercount (self s))), s)
  else update env (set_progress_field value s).
Proof.
  unfold set_progress. unfold bind at 1, get at 1.
  now destruct ((value <? 0) || (value >? itercount (self s))).
Qed.

(** [increment], case by case. *)
Lemma increment_eq (env : Env) (s : session) :
  increment env s =
  if closed (self s) then (Raise usage_failure, s)
  else
    (update env ;;
     s' <- get ;;
     if (progress (self s') >=? itercount (self s')) && auto_close (self s')
     then close env
     else ret tt) (set_progress_field (progress (self s) + 1) s).
Proof.
  unfold increment. unfold bind at 1, get at 1.
  now destruct (closed (self s)).
Qed.

(** On a closed session the setter records a value in the range and only
    then signals the usage failure. *)
Lemma set_progress_closed (env : Env) (s : session) (value : Z) :
  closed (self s) = true ->
  0 <= value <= itercount (self s) ->
  set_progress env value s = (Raise usage_failure, set_progress_field value s).
Proof.
  intros Hc Hin. apply range_test in Hin.
  rewrite set_progress_eq, Hin, update_eq. simpl. now rewrite Hc.
Qed.

(** C9, as the code has it: on a closed session a value in the range is
    recorded before the usage failure is signalled, and nothing is handed to
    the transport; so the recorded progress differs from the last value
    pushed whenever the new value does. *)
Theorem set_progress_on_closed_session_records_the_value
    (env : Env) (s : session) (value : Z) :
  closed (self s) = true ->
  0 <= value <= itercount (self s) ->
  set_progress env value s = (Raise usage_failure, set_progress_field value s)
  /\ log (snd (set_progress env value s)) = log s
  /\ (last_pushed (log s) <> Some value ->
      last_pushed (log (snd (set_progress env value s)))
      <> Some (progress (self (snd (set_progress env value s))))).
Proof.
  intros Hc Hin. rewrite (set_progress_closed env s value Hc Hin).
  repeat split. trivial.
Qed.

Lemma set_progress_on_closed_session_records_the_value_witness :
  set_progress (quiet_env "") 4 closed_at_two
  = (Raise usage_failure, set_progress_field 4 closed_at_two).
Proof.
  apply (set_progress_on_closed_session_records_the_value
           (quiet_env "") closed_at_two 4);
    [reflexivity | simpl; lia].
Defined.

(** C9, as stated, fails: setting again the value that was pushed last on a
    closed session signals the usage failure with the recorded progress equal
    to the last value pushed. *)
Lemma set_progress_on_closed_session_may_agree_with_transport :
  closed (self closed_at_two) = true
  /\ 0 <= 2 <= itercount (self closed_at_two)
  /\ fst (set_progress (quiet_env "") 2 closed_at_two) = Raise usage_failure
  /\ last_pushed (log (snd (set_progress (quiet_env "") 2 closed_at_two)))
     = Some (progress (self (snd (set_progress (quiet_env "") 2 closed_at_two)))).
Proof. vm_compute. repeat split; congruence. Qed.

(** C1: [increment] on an open session that already stands at [itercount]
    records [itercount + 1] and hands it to the transport, where the setter
    called with [progress + 1] signals the range failure and changes
    nothing. *)
Theorem increment_steps_past_itercount
    (env : Env) (s : session) (q : string) :
  closed (self s) = false ->
  qdbus (self s) = Some q ->
  progress (self s) = itercount (self s) ->
  progress (self (snd (increment env s))) = itercount (self s) + 1
  /\ (exists rest,
        log (snd (increment env s))
        = log s
          ++ Spawn (set_argv q (self s) (itercount (self s) + 1)) None :: rest)
  /\ set_progress env (progress (self s) + 1) s
     = (Raise (range_failure (itercount (self s))), s).
Proof.
  intros Hc Hq Hp. split; [|split].
  - rewrite increment_eq, Hc.
    set (s1 := set_progress_field (progress (self s) + 1) s).
    destruct (update_open env s1 q Hc Hq) as [Hpr _].
    unfold bind at 1.
    destruct (update env s1) as [[u| e|] s2]; simpl in Hpr |- *;
      try (rewrite Hpr; simpl; lia).
    unfold bind, get.
    destruct ((progress (self s2) >=? itercount (self s2))
              && auto_close (self s2)).
    + destruct (qdbus (self s2)) as [q2|] eqn:Hq2.
      * destruct (close_known env s2 q2 Hq2) as [o [_ ->]].
        simpl. rewrite Hpr. simpl. lia.
      * rewrite close_unknown by trivial. simpl. rewrite Hpr. simpl. lia.
    + simpl. rewrite Hpr. simpl. lia.
  - rewrite increment_eq, Hc.
    set (s1 := set_progress_field (progress (self s) + 1) s).
    destruct (update_open env s1 q Hc Hq) as [_ [rest Hl]].
    replace (set_argv q (self s) (itercount (self s) + 1))
      with (set_argv q (self s1) (progress (self s1)))
      by (unfold set_argv, s1; simpl; now rewrite Hp).
    change (log s) with (log s1).
    unfold bind at 1.
    destruct (update env s1) as [[u| e|] s2]; simpl in Hl |- *; eauto.
    unfold bind, get.
    destruct ((progress (self s2) >=? itercount (self s2))
              && auto_close (self s2)).
    + destruct (qdbus (self s2)) as [q2|] eqn:Hq2.
      * destruct (close_known env s2 q2 Hq2) as [o [_ ->]].
        simpl. rewrite Hl, <- app_assoc. simpl. eauto.
      * rewrite close_unknown by trivial. simpl. eauto.
    + simpl. eauto.
  - rewrite set_progress_eq.
    replace ((progress (self s) + 1 <? 0)
             || (progress (self s) + 1 >? itercount (self s))) with true;
      [reflexivity|].
    symmetry. apply orb_true_iff. right. rewrite Z.gtb_ltb, Z.ltb_lt. lia.
Qed.

Lemma increment_steps_past_itercount_witness :
  progress (self (snd (increment (quiet_env "") (full 3)))) = 4
  /\ log (snd (increment (quiet_env "") (full 3)))
     = [Spawn ["qdbus6"; "org.kde.kdialog-4242"; "/ProgressDialog";
               "Set"; ""; "value"; "4"] None]
  /\ set_progress (quiet_env "") 4 (full 3)
     = (Raise (range_failure 3), full 3).
Proof.
  destruct (increment_steps_past_itercount (quiet_env "") (full 3) "qdbus6")
    as [H1 [_ H3]]; try reflexivity.
  split; [exact H1|]. split; [reflexivity | exact H3].
Defined.

(** [__exit__], case by case. *)
Lemma exit_eq (env : Env) (s : session) :
  exit env s = if closed (self s) then (Ok tt, s) else close env s.
Proof.
  unfold exit. unfold bind at 1, get at 1. now destruct (closed (self s)).
Qed.

(** A call other than [close] on a closed session leaves it closed and
    spawns nothing. *)
Lemma closed_session_step (env : Env) (s : session) (c : call) :
  closed (self s) = true ->
  is_close c = false ->
  closed (self (snd (perform env c s))) = true
  /\ log (snd (perform env c s)) = log s.
Proof.
  intros Hc Hn. destruct c as [value| | |]; simpl in *; try discriminate.
  - rewrite set_progress_eq.
    destruct ((value <? 0) || (value >? itercount (self s)));
      [now split|].
    rewrite update_eq. simpl. rewrite Hc. now split.
  - rewrite increment_eq, Hc. now split.
  - rewrite exit_eq, Hc. now split.
Qed.

Lemma closed_session_steps (env : Env) (cs : list call) (s : session) :
  closed (self s) = true ->
  forallb (fun c => negb (is_close c)) cs = true ->
  closed (self (perform_all env cs s)) = true
  /\ log (perform_all env cs s) = log s.
Proof.
  revert s. induction cs as [|c cs IH]; intros s Hc Hcs; simpl in *.
  - now split.
  - apply andb_true_iff in Hcs. destruct Hcs as [Hn Hcs].
    apply negb_true_iff in Hn.
    destruct (closed_session_step env s c Hc Hn) as [Hc' Hl'].
    destruct (IH _ Hc' Hcs) as [Hc2 Hl2]. split; congruence.
Qed.

(** C2, as the code has it: once [close] has been called, and whatever
    calls other than [close] were made since, the session is closed and its
    log is the one [close] left; [increment] and a set of a value in the
    range signal the usage failure, a set of a value out of the range signals
    the range failure, [__exit__] returns, and none of them spawns a
    command. *)
Theorem closed_session_rejects_updates_silently
    (env : Env) (s : session) (since : list call) :
  forallb (fun c => negb (is_close c)) since = true ->
  let s1 := perform_all env since (snd (close env s)) in
  closed (self s1) = true
  /\ log s1 = log (snd (close env s))
  /\ increment env s1 = (Raise usage_failure, s1)
  /\ (forall value, 0 <= value <= itercount (self s1) ->
      set_progress env value s1
      = (Raise usage_failure, set_progress_field value s1))
  /\ (forall value, ~ (0 <= value <= itercount (self s1)) ->
      set_progress env value s1
      = (Raise (range_failure (itercount (self s1))), s1))
  /\ exit env s1 = (Ok tt, s1).
Proof.
  intros Hcs s1.
  destruct (closed_session_steps env since (snd (close env s))
              (close_closed env s) Hcs) as [Hc Hl].
  fold s1 in Hc, Hl. repeat split; trivial.
  - now rewrite increment_eq, Hc.
  - intros value Hin.
    now apply set_progress_closed.
  - intros value Hout. rewrite set_progress_eq.
    destruct ((value <? 0) || (value >? itercount (self s1))) eqn:Et;
      [reflexivity|].
    apply range_test in Et. contradiction.
  - now rewrite exit_eq, Hc.
Qed.

Lemma closed_session_rejects_updates_silently_witness :
  increment (quiet_env "")
    (perform_all (quiet_env "") [Set_progress 1; Increment; Exit]
       (snd (close (quiet_env "") (fresh 5))))
  = (Raise usage_failure,
     perform_all (quiet_env "") [Set_progress 1; Increment; Exit]
       (snd (close (quiet_env "") (fresh 5)))).
Proof.
  apply (closed_session_rejects_updates_silently (quiet_env "") (fresh 5)
           [Set_progress 1; Increment; Exit]).
  reflexivity.
Defined.

(** C2, as stated, fails: a second call of [close] spawns the close command
    a second time. *)
Lemma second_close_spawns_again :
  log (perform_all (quiet_env "") [Close] (fresh 5))
  = [Spawn ["qdbus6"; "org.kde.kdialog-4242"; "/ProgressDialog"; "close"] None]
  /\ log (perform_all (quiet_env "") [Close; Close] (fresh 5))
     = [Spawn ["qdbus6"; "org.kde.kdialog-4242"; "/ProgressDialog"; "close"] None;
        Spawn ["qdbus6"; "org.kde.kdialog-4242"; "/ProgressDialog"; "close"] None].
Proof. split; reflexivity. Qed.

End ProgressBar_facts.

(** ** The dialog layer *)

Module KDialog_facts.
Import KDialog Scenario.

Lemma with_events_id (w : World) : with_events (events w ++ []) w = w.
Proof. rewrite app_nil_r. now destruct w. Qed.

Lemma with_events_twice (w : World) (l1 l2 : list event) :
  with_events (events (with_events (events w ++ l1) w) ++ l2)
    (with_events (events w ++ l1) w)
  = with_events (events w ++ (l1 ++ l2)) w.
Proof. unfold with_events. simpl. now rewrite app_assoc. Qed.

(** *** Computations that only add to the log *)

Lemma only_logs_ret {A} (a : A) : only_logs (ret a).
Proof. intros w. exists []. simpl. now rewrite with_events_id. Qed.

Lemma only_logs_raise {A} (e : exn) : only_logs (@raise World A e).
Proof. intros w. exists []. simpl. now rewrite with_events_id. Qed.

Lemma only_logs_get : only_logs (@get World).
Proof. intros w. exists []. simpl. now rewrite with_events_id. Qed.

Lemma only_logs_bind {A B} (c : M World A) (k : A -> M World B) :
  only_logs c -> (forall a, only_logs (k a)) -> only_logs (bind c k).
Proof.
  intros Hc Hk w. destruct (Hc w) as [l1 H1]. unfold bind.
  destruct (c w) as [[a|e|] w1]; simpl in H1; subst w1.
  - destruct (Hk a (with_events (events w ++ l1) w)) as [l2 H2].
    exists (l1 ++ l2). now rewrite H2, with_events_twice.
  - now exists l1.
  - now exists l1.
Qed.

Lemma only_logs_run (env : Env) (argv : list (option string))
    (input : option string) : only_logs (run env argv input).
Proof.
  intros w. unfold run, subprocess_run.
  destruct (all_some argv) as [args|].
  - exists [Spawn args input].
    destruct (spawn_result env (events w) args input); reflexivity.
  - exists []. rewrite with_events_id. now destruct w.
Qed.

Ltac only_logs_step :=
  first
    [ apply only_logs_ret
    | apply only_logs_raise
    | apply only_logs_get
    | apply only_logs_run
    | apply only_logs_bind; [|intros]
    | match goal with
      | |- only_logs (match ?x with _ => _ end) => destruct x
      | |- only_logs (if ?x then _ else _) => destruct x
      end ].

Lemma only_logs_do_call (env : Env) (args : list (option string))
    (to_stdin : option string) : only_logs (do_call env args to_stdin).
Proof. unfold do_call. repeat only_logs_step. Qed.

Lemma only_logs_menu (env : Env) (text : string) (items : list string)
    (ok_label cancel_label : option string) :
  only_logs (menu env text items ok_label cancel_label).
Proof.
  unfold menu. repeat (only_logs_step || apply only_logs_do_call).
Qed.

Lemma only_logs_combobox (env : Env) (text : string) (items : list pyval)
    (ok_label cancel_label : option string) :
  only_logs (combobox env text items ok_label cancel_label).
Proof.
  unfold combobox. repeat (only_logs_step || apply only_logs_do_call).
Qed.

Lemma only_logs_inputbox (env : Env) (text : string) (init : pyval)
    (ok_label cancel_label : option string) :
  only_logs (inputbox env text init ok_label cancel_label).
Proof.
  unfold inputbox. repeat (only_logs_step || apply only_logs_do_call).
Qed.

Lemma only_logs_msgbox (env : Env) (text : string) (ok_label : option string) :
  only_logs (msgbox env text ok_label).
Proof.
  unfold msgbox. repeat (only_logs_step || apply only_logs_do_call).
Qed.

Lemma only_logs_yesnocancel (env : Env) (text : string) (dtype : dialog_type)
    (yes_label no_label cancel_label : option string) :
  only_logs (yesnocancel env text dtype yes_label no_label cancel_label).
Proof.
  unfold yesnocancel. repeat (only_logs_step || apply only_logs_do_call).
Qed.

Lemma only_logs_error (env : Env) (text : string) (ok_label : option string)
    (details : dialog_details) : only_logs (error env text ok_label details).
Proof.
  unfold error, detailed_result.
  repeat (only_logs_step || apply only_logs_do_call).
Qed.

Lemma only_logs_sorry (env : Env) (text : string) (ok_label : option string)
    (details : dialog_details) : only_logs (sorry env text ok_label details).
Proof.
  unfold sorry, detailed_result.
  repeat (only_logs_step || apply only_logs_do_call).
Qed.

Lemma only_logs_show_exc (env : Env) (text : string) (dtype : dialog_type)
    (ok_label : option string) (current : option exn) :
  only_logs (show_exc env text dtype ok_label current).
Proof.
  unfold show_exc.
  repeat (apply only_logs_error || apply only_logs_sorry || only_logs_step).
Qed.

Lemma only_logs_getopenfilename (env : Env) (type startDir : option string)
    (allow_multiple : bool) :
  only_logs (getopenfilename env type startDir allow_multiple).
Proof.
  unfold getopenfilename, start_dir_args.
  repeat (only_logs_step || apply only_logs_do_call).
Qed.

Lemma only_logs_getsavefilename (env : Env) (type startDir : option string) :
  only_logs (getsavefilename env type startDir).
Proof.
  unfold getsavefilename, start_dir_args.
  repeat (only_logs_step || apply only_logs_do_call).
Qed.

(** *** What a dialog spawns *)

(** [do_call] under a title, on arguments that are all strings. *)
Lemma do_call_spawn (env : Env) (w : World) (ttl : string)
    (args : list (option string)) (l : list string)
    (to_stdin : option string) :
  title w = Some ttl ->
  all_some args = Some l ->
  do_call env args to_stdin w
  = match spawn_result env (events w) (kdialog_argv ttl l) to_stdin with
    | Exited returncode out =>
        (Ok (returncode, rstrip_nl out),
         spawned w (kdialog_argv ttl l) to_stdin)
    | NoSuchProgram =>
        (Raise (Exn FileNotFoundError ""),
         spawned w (kdialog_argv ttl l) to_stdin)
    end.
Proof.
  intros Ht Ha. unfold do_call, kdialog_argv, spawned.
  unfold bind at 1, get at 1. rewrite Ht.
  unfold bind, run, subprocess_run, runtime_args. simpl. rewrite Ha.
  now destruct (spawn_result env (events w) _ to_stdin).
Qed.

(** C4: with the title set to [None], [do_call] removes the flag
    [--title] only: the [None] stays in the argument vector, right after the
    executable name, and [subprocess.run] refuses the vector with a
    [TypeError] before any command is spawned. *)
Theorem do_call_without_title_keeps_none
    (env : Env) (w : World) (args : list string) (to_stdin : option string) :
  title w = None ->
  runtime_args (title w) (map Some args)
  = Some "kdialog" :: None :: map Some args
  /\ do_call env (map Some args) to_stdin w = (Raise (Exn TypeError ""), w).
Proof.
  intros Ht. rewrite Ht. split; [reflexivity|].
  unfold do_call. unfold bind at 1, get at 1. rewrite Ht.
  unfold bind, run, subprocess_run. simpl. now destruct w.
Qed.

Lemma do_call_without_title_keeps_none_witness :
  do_call cancel_env (map Some ["--msgbox"; "hi"]) None untitled
  = (Raise (Exn TypeError ""), untitled).
Proof.
  apply (do_call_without_title_keeps_none cancel_env untitled
           ["--msgbox"; "hi"] None).
  reflexivity.
Defined.

End KDialog_facts.

(** ** The theme editor *)

Module Editor_facts.
Import KDialog Editor Scenario Notions KDialog_facts.

Lemma get_theme_eq (w : World) (t : Theme) :
  the_theme w = Some t -> get_theme w = (Ok t, w).
Proof. intros H. unfold get_theme, bind, get. now rewrite H. Qed.

Lemma update_theme_eq (w : World) (t : Theme) (f : Theme -> Theme) :
  the_theme w = Some t ->
  update_theme f w = (Ok tt, with_theme (Some (f t)) w).
Proof.
  intros H. unfold update_theme. unfold bind at 1.
  now rewrite (get_theme_eq w t H).
Qed.

Lemma bind_ok {A B} (c : M World A) (k : A -> M World B) (w w' : World)
    (a : A) :
  c w = (Ok a, w') -> bind c k w = k a w'.
Proof. intros H. unfold bind. now rewrite H. Qed.

Lemma bind_raise {A B} (c : M World A) (k : A -> M World B) (w w' : World)
    (e : exn) :
  c w = (Raise e, w') -> bind c k w = (Raise e, w').
Proof. intros H. unfold bind. now rewrite H. Qed.

Lemma only_logs_get_theme : only_logs get_theme.
Proof. unfold get_theme. repeat only_logs_step. Qed.

Lemma only_logs_choose_sound (env : Env) (sound : string) :
  only_logs (choose_sound env sound).
Proof.
  unfold choose_sound.
  repeat (apply only_logs_get_theme || apply only_logs_combobox
          || only_logs_step).
Qed.

(** The file dialog, under a title and from a start directory that exists:
    exit status 0 gives the lines of the output, any other status [None]. *)
Lemma getopenfilename_eq (env : Env) (w : World) (ttl type : string) :
  title w = Some ttl ->
  path_isdir env "." = true ->
  path_exists env "." = true ->
  getopenfilename env (Some type) None false w
  = match
      spawn_result env (events w)
        (kdialog_argv ttl ["--getopenfilename"; "."; type]) None
    with
    | Exited returncode out =>
        (Ok (if returncode =? 0 then Some (splitlines (rstrip_nl out))
             else None),
         spawned w (kdialog_argv ttl ["--getopenfilename"; "."; type]) None)
    | NoSuchProgram =>
        (Raise (Exn FileNotFoundError ""),
         spawned w (kdialog_argv ttl ["--getopenfilename"; "."; type]) None)
    end.
Proof.
  intros Ht Hd He. unfold getopenfilename, start_dir_args.
  rewrite Hd, He. simpl negb. cbv iota.
  unfold bind at 1, ret at 1. unfold bind at 1.
  rewrite (do_call_spawn env w ttl _ ["--getopenfilename"; "."; type] None Ht)
    by reflexivity.
  destruct (spawn_result env (events w) _ None) as [rc out|]; [|reflexivity].
  unfold ret, answer. simpl. now destruct (rc =? 0).
Qed.

(** C10: when importing was chosen and the file dialog is cancelled,
    [edit_sound] appends [None] to the imported sounds of the theme and then
    raises a [TypeError]; nothing else of the theme changes. *)
Theorem edit_sound_cancelled_import_appends_none
    (env : Env) (sound ttl out : string) (w w1 : World) (t : Theme)
    (returncode : Z) :
  the_theme w = Some t ->
  choose_sound env sound w = (Ok (Some IMPORT_SOUND), w1) ->
  title w1 = Some ttl ->
  path_isdir env "." = true ->
  path_exists env "." = true ->
  spawn_result env (events w1) (kdialog_argv ttl import_args) None
  = Exited returncode out ->
  returncode <> 0 ->
  edit_sound env sound w
  = (Raise (Exn TypeError ""),
     with_theme (Some (with_imported (imported_sounds t ++ [PNone]) t))
       (spawned w1 (kdialog_argv ttl import_args) None)).
Proof.
  intros Hth Hch Ht Hd He Hsp Hrc.
  assert (Hth1 : the_theme w1 = Some t).
  { destruct (only_logs_choose_sound env sound w) as [rest Hw].
    rewrite Hch in Hw. simpl in Hw. now subst w1. }
  unfold edit_sound. rewrite (bind_ok _ _ _ _ _ Hch).
  replace (String.eqb IMPORT_SOUND IMPORT_SOUND) with true by reflexivity.
  unfold import_sound.
  set (w2 := spawned w1 (kdialog_argv ttl import_args) None).
  assert (Hpick : getopenfilename env
                    (Some "audio/flac audio/mpeg audio/vnd.wave audio/ogg audio/aac")
                    None false w1 = (Ok None, w2)).
  { rewrite (getopenfilename_eq env w1 ttl _ Ht Hd He).
    unfold import_args in Hsp. rewrite Hsp.
    apply Z.eqb_neq in Hrc. now rewrite Hrc. }
  unfold bind at 1. unfold bind at 1. rewrite Hpick.
  unfold bind at 1, ret at 1. unfold bind at 1.
  rewrite (update_theme_eq w2 t) by exact Hth1.
  reflexivity.
Qed.

Lemma edit_sound_cancelled_import_appends_none_witness :
  edit_sound cancel_env "bell" (editing Theme_init)
  = (Raise (Exn TypeError ""),
     with_theme (Some (with_imported [PNone] Theme_init))
       (spawned (editing Theme_init)
          (kdialog_argv "Sound theme maker (Sound theme)" import_args) None)).
Proof.
  apply (edit_sound_cancelled_import_appends_none cancel_env "bell"
           "Sound theme maker (Sound theme)" "" (editing Theme_init)
           (editing Theme_init) Theme_init 1);
    try reflexivity.
  discriminate.
Defined.

(** *** Installing *)

Lemma msgbox_eq (env : Env) (w : World) (ttl text : string) :
  title w = Some ttl ->
  exists o,
    msgbox env text None w
    = (o, spawned w (kdialog_argv ttl ["--msgbox"; text]) None).
Proof.
  intros Ht. unfold msgbox. unfold bind.
  rewrite (do_call_spawn env w ttl _ ["--msgbox"; text] None Ht)
    by reflexivity.
  destruct (spawn_result env (events w) _ None); unfold ret; eauto.
Qed.

Lemma snoc_append (a : string) (c : ascii) (b : string) :
  (snoc a c ++ b)%string = (a ++ String c b)%string.
Proof.
  unfold snoc. induction a as [|x a IH]; simpl; [reflexivity|].
  now rewrite IH.
Qed.

Lemma code_slash (c : ascii) :
  (code c =? 47)%nat = true -> c = ascii_of_nat 47.
Proof.
  intros H. apply Nat.eqb_eq in H. unfold code in H.
  now rewrite <- H, ascii_nat_embedding.
Qed.

(** The final component of whatever ends with a slash and a text. *)
Lemma final_component_after_slash (a cur c : string) :
  final_component_from cur (a ++ String (ascii_of_nat 47) c)
  = final_component_from "" c.
Proof.
  revert cur. induction a as [|x a IH]; intros cur; simpl.
  - reflexivity.
  - destruct (code x =? 47)%nat; apply IH.
Qed.

Lemma ends_with_slash_split (p : string) :
  ends_with_slash p = true -> exists a, p = (a ++ String (ascii_of_nat 47) "")%string.
Proof.
  induction p as [|x p IH]; simpl; [discriminate|].
  destruct p as [|y p'].
  - intros H. apply code_slash in H. subst x. now exists "".
  - intros H. destruct (IH H) as [a Ha]. exists (String x a).
    simpl. now rewrite <- Ha.
Qed.

Lemma append_assoc (a b c : string) :
  ((a ++ b) ++ c)%string = (a ++ (b ++ c))%string.
Proof. induction a as [|x a IH]; simpl; [reflexivity|]. now rewrite IH. Qed.

(** A text without a slash is a single path component. *)
Lemma final_component_no_slash (s cur : string) :
  has_char is_slash s = false ->
  final_component_from cur s = (cur ++ s)%string.
Proof.
  revert cur. induction s as [|c s IH]; intros cur H; simpl.
  - induction cur as [|x cur IHc]; simpl; [reflexivity|]. now rewrite <- IHc.
  - simpl in H. apply orb_false_iff in H. destruct H as [Hc Hs].
    unfold is_slash in Hc. rewrite Hc, (IH _ Hs). apply snoc_append.
Qed.

Lemma final_component_path_div (p d : string) :
  d <> "" ->
  has_char is_slash d = false ->
  final_component (path_div p d) = d.
Proof.
  intros Hne Hd. unfold path_div, final_component.
  destruct d as [|c r] eqn:Hl; [congruence|].
  simpl is_empty. cbv iota. rewrite <- Hl in *.
  destruct (ends_with_slash p) eqn:Hp.
  - destruct (ends_with_slash_split p Hp) as [a ->].
    rewrite append_assoc. simpl.
    rewrite final_component_after_slash.
    apply (final_component_no_slash d "" Hd).
  - change ("/" ++ d)%string with (String (ascii_of_nat 47) d).
    rewrite final_component_after_slash.
    apply (final_component_no_slash d "" Hd).
Qed.

(** *** Names in ASCII *)

Lemma ascii_is_no_continuation (c : ascii) :
  (code c <? 128)%nat = true -> is_continuation c = false.
Proof.
  unfold is_continuation. intros H. apply Nat.ltb_lt in H.
  destruct (128 <=? code c)%nat eqn:E; [|reflexivity].
  apply Nat.leb_le in E. lia.
Qed.

(** The characters of an ASCII text are its bytes. *)
Lemma chars_from_ascii (s : string) :
  forall cur,
    is_ascii s = true ->
    chars_from cur s
    = (if is_empty cur then [] else [cur])
      ++ map (fun c => String c "") (list_ascii_of_string s).
Proof.
  induction s as [|c s IH]; intros cur H; simpl.
  - now rewrite app_nil_r.
  - simpl in H. apply andb_true_iff in H. destruct H as [Hc Hs].
    rewrite (ascii_is_no_continuation c Hc), (IH _ Hs). simpl.
    now destruct (is_empty cur).
Qed.

Lemma alnum_only_ascii (env : Env) (s : string) :
  is_ascii s = true -> alnum_only env s = keep ascii_isalnum s.
Proof.
  intros H. unfold alnum_only, chars. rewrite (chars_from_ascii s "" H).
  simpl. induction s as [|c s IH]; simpl; [reflexivity|].
  simpl in H. apply andb_true_iff in H. destruct H as [Hc Hs].
  rewrite Hc. destruct (ascii_isalnum c); simpl; now rewrite (IH Hs).
Qed.

Lemma is_ascii_keep (p : ascii -> bool) (s : string) :
  is_ascii s = true -> is_ascii (keep p s) = true.
Proof.
  induction s as [|c s IH]; simpl; [reflexivity|].
  intros H. apply andb_true_iff in H. destruct H as [Hc Hs].
  destruct (p c); simpl; [rewrite Hc|]; now apply IH.
Qed.

(** What [install_theme] derives from an ASCII name. *)
Lemma derived_ascii (env : Env) (s : string) :
  is_ascii s = true ->
  lower env (alnum_only env s) = lower_ascii (keep ascii_isalnum s).
Proof.
  intros H. rewrite (alnum_only_ascii env s H). unfold lower.
  now rewrite (is_ascii_keep ascii_isalnum s H).
Qed.

(** An ASCII character that [isalnum] keeps is not a slash once
    lower-cased. *)
Lemma lower_alnum_not_slash (c : ascii) :
  ascii_isalnum c = true -> is_slash (lower_char c) = false.
Proof.
  destruct c as [[] [] [] [] [] [] [] []]; vm_compute; congruence.
Qed.

Lemma derived_ascii_no_slash (s : string) :
  has_char is_slash (lower_ascii (keep ascii_isalnum s)) = false.
Proof.
  induction s as [|c s IH]; simpl; [reflexivity|].
  destruct (ascii_isalnum c) eqn:Hc; [|exact IH].
  simpl. now rewrite (lower_alnum_not_slash c Hc), IH.
Qed.

(** C7: [install_theme] on a theme with unsaved changes shows one message
    and does nothing else; otherwise it is [export_theme], quiet, to the
    directory named after the alphanumeric characters of the theme name in
    lower case, under [.local/share/sounds] in the home directory.  That
    name is the final component of the directory whenever it is not empty
    and holds no slash; for a name in ASCII it is computed from the name
    alone and holds none. *)
Theorem install_theme_destination
    (env : Env) (w : World) (t : Theme) (s : string) :
  the_theme w = Some t ->
  name t = PStr s ->
  (modified t = true ->
   exists o,
     install_theme env w
     = (o, spawned (with_title (Some "Install theme") w)
             (kdialog_argv "Install theme"
                ["--msgbox"; "To install your theme, you must save it first."])
             None))
  /\ (modified t = false ->
      install_theme env w
      = (fs_call env
           (Mkdir_parents (install_dir env (lower env (alnum_only env s)))) ;;
         export_theme env
           (Some (install_dir env (lower env (alnum_only env s)))) true ;;
         msgbox env "Theme installation success!" None)
          (with_title (Some "Install theme") w))
  /\ (lower env (alnum_only env s) <> "" ->
      has_char is_slash (lower env (alnum_only env s)) = false ->
      final_component (install_dir env (lower env (alnum_only env s)))
      = lower env (alnum_only env s))
  /\ (is_ascii s = true ->
      lower env (alnum_only env s) = lower_ascii (keep ascii_isalnum s)
      /\ has_char is_slash (lower env (alnum_only env s)) = false).
Proof.
  intros Hth Hn.
  assert (Hth' : the_theme (with_title (Some "Install theme") w) = Some t)
    by exact Hth.
  assert (Hrun : install_theme env w
                 = (if modified t
                    then msgbox env
                           "To install your theme, you must save it first." None
                    else
                      joined <- lift_sum (join_alnum env (name t)) ;;
                      fs_call env
                        (Mkdir_parents (install_dir env (lower env joined))) ;;
                      export_theme env
                        (Some (install_dir env (lower env joined))) true ;;
                      msgbox env "Theme installation success!" None)
                     (with_title (Some "Install theme") w)).
  { unfold install_theme. unfold bind at 1. unfold KDialog.set_title, modify.
    unfold bind at 1. now rewrite (get_theme_eq _ t Hth'). }
  split; [|split; [|split]].
  - intros Hm. rewrite Hrun, Hm. now apply msgbox_eq.
  - intros Hm. rewrite Hrun, Hm, Hn. reflexivity.
  - intros Hne Hs. unfold install_dir. now apply final_component_path_div.
  - intros Ha. rewrite (derived_ascii env s Ha).
    split; [reflexivity | apply derived_ascii_no_slash].
Qed.

Lemma install_theme_destination_witness :
  final_component
    (install_dir cancel_env
       (lower cancel_env (alnum_only cancel_env "My Cool Theme!")))
  = "mycooltheme"
  /\ events (snd (install_theme cancel_env (editing cool_theme)))
     = [Mkdir_parents "/home/user/.local/share/sounds/mycooltheme";
        Mkdir "/tmp/aB3dE"; Mkdir "/tmp/aB3dE/stereo";
        Write_index "/tmp/aB3dE/index.theme" (PStr "My Cool Theme!")
          (PStr "This is a sound theme!");
        Copytree "/tmp/aB3dE" "/home/user/.local/share/sounds/mycooltheme";
        Rmtree "/tmp/aB3dE";
        Spawn ["kdialog"; "--title"; "Install theme"; "--msgbox";
               "Theme installation success!"] None]
  /\ events (snd (install_theme cancel_env (editing two_sounds)))
     = [Spawn ["kdialog"; "--title"; "Install theme"; "--msgbox";
               "To install your theme, you must save it first."] None]
  /\ lower cancel_env (alnum_only cancel_env "Café Über 2²!") = "caféüber2²".
Proof.
  split; [|split; [|split]; reflexivity].
  refine (proj1 (proj2 (proj2
            (install_theme_destination cancel_env (editing cool_theme)
               cool_theme "My Cool Theme!" eq_refl eq_refl))) _ eq_refl).
  discriminate.
Defined.

(** *** The log only grows *)

Lemma grows_of_only_logs {A} (c : M World A) : only_logs c -> grows c.
Proof. intros H w. destruct (H w) as [rest Hr]. exists rest. now rewrite Hr. Qed.

Lemma grows_ret {A} (a : A) : grows (ret a).
Proof. apply grows_of_only_logs, only_logs_ret. Qed.

Lemma grows_raise {A} (e : exn) : grows (@raise World A e).
Proof. apply grows_of_only_logs, only_logs_raise. Qed.

Lemma grows_get : grows (@get World).
Proof. apply grows_of_only_logs, only_logs_get. Qed.

Lemma grows_out_of_fuel {A} : grows (fun w : World => (@OutOfFuel A, w)).
Proof. intros w. exists []. simpl. now rewrite app_nil_r. Qed.

Lemma grows_modify (f : World -> World) :
  (forall w, events (f w) = events w) -> grows (modify f).
Proof. intros H w. exists []. simpl. now rewrite H, app_nil_r. Qed.

Lemma grows_bind {A B} (c : M World A) (k : A -> M World B) :
  grows c -> (forall a, grows (k a)) -> grows (bind c k).
Proof.
  intros Hc Hk w. destruct (Hc w) as [l1 H1]. unfold bind.
  destruct (c w) as [[a|e|] w1]; simpl in H1.
  - destruct (Hk a w1) as [l2 H2]. exists (l1 ++ l2).
    now rewrite H2, H1, app_assoc.
  - now exists l1.
  - now exists l1.
Qed.

Lemma grows_try_except {A} (c : M World A) (catches : exn -> bool)
    (h : exn -> M World A) :
  grows c -> (forall e, grows (h e)) -> grows (try_except c catches h).
Proof.
  intros Hc Hh w. destruct (Hc w) as [l1 H1]. unfold try_except.
  destruct (c w) as [[a|e|] w1]; simpl in H1.
  - now exists l1.
  - destruct (catches e).
    + destruct (Hh e w1) as [l2 H2]. exists (l1 ++ l2).
      now rewrite H2, H1, app_assoc.
    + now exists l1.
  - now exists l1.
Qed.

Lemma grows_fs_call (env : Env) (e : event) : grows (fs_call env e).
Proof.
  intros w. exists [e]. unfold fs_call.
  now destruct (fs_ok env (events w) e).
Qed.

Lemma grows_set_title (x : string) : grows (KDialog.set_title x).
Proof. now apply grows_modify. Qed.

Lemma grows_get_theme : grows get_theme.
Proof. apply grows_of_only_logs, only_logs_get_theme. Qed.

Lemma grows_menu (env : Env) (text : string) (items : list string)
    (ok_label cancel_label : option string) :
  grows (menu env text items ok_label cancel_label).
Proof. apply grows_of_only_logs, only_logs_menu. Qed.

Lemma grows_inputbox (env : Env) (text : string) (init : pyval)
    (ok_label cancel_label : option string) :
  grows (inputbox env text init ok_label cancel_label).
Proof. apply grows_of_only_logs, only_logs_inputbox. Qed.

Lemma grows_msgbox (env : Env) (text : string) (ok_label : option string) :
  grows (msgbox env text ok_label).
Proof. apply grows_of_only_logs, only_logs_msgbox. Qed.

Lemma grows_yesnocancel (env : Env) (text : string) (dtype : dialog_type)
    (yes_label no_label cancel_label : option string) :
  grows (yesnocancel env text dtype yes_label no_label cancel_label).
Proof. apply grows_of_only_logs, only_logs_yesnocancel. Qed.

Lemma grows_error (env : Env) (text : string) (ok_label : option string)
    (details : dialog_details) : grows (error env text ok_label details).
Proof. apply grows_of_only_logs, only_logs_error. Qed.

Lemma grows_getopenfilename (env : Env) (type startDir : option string)
    (allow_multiple : bool) :
  grows (getopenfilename env type startDir allow_multiple).
Proof. apply grows_of_only_logs, only_logs_getopenfilename. Qed.

Lemma grows_getsavefilename (env : Env) (type startDir : option string) :
  grows (getsavefilename env type startDir).
Proof. apply grows_of_only_logs, only_logs_getsavefilename. Qed.

Lemma grows_choose_sound (env : Env) (sound : string) :
  grows (choose_sound env sound).
Proof. apply grows_of_only_logs, only_logs_choose_sound. Qed.

Lemma grows_update_theme (f : Theme -> Theme) : grows (update_theme f).
Proof.
  unfold update_theme. apply grows_bind; [apply grows_get_theme|].
  intros t. now apply grows_modify.
Qed.

Create HintDb grows_db.
#[local] Hint Resolve grows_ret grows_raise grows_get grows_out_of_fuel
  grows_fs_call grows_set_title grows_get_theme grows_menu grows_inputbox
  grows_msgbox grows_yesnocancel grows_error grows_getopenfilename
  grows_getsavefilename grows_choose_sound grows_update_theme : grows_db.

Ltac grows_step :=
  first
    [ solve [auto with grows_db]
    | apply grows_modify; solve [intros; reflexivity]
    | apply grows_bind; [|intros]
    | apply grows_try_except; [|intros]
    | match goal with
      | |- grows (match ?x with _ => _ end) => destruct x
      | |- grows (if ?x then _ else _) => destruct x
      end ].

Lemma grows_editor_set_title (env : Env) : grows (Editor.set_title env).
Proof. unfold Editor.set_title. repeat grows_step. Qed.

Lemma grows_set_comment (env : Env) : grows (set_comment env).
Proof. unfold set_comment. repeat grows_step. Qed.

Lemma grows_import_sound (env : Env) : grows (import_sound env).
Proof. unfold import_sound, first_item. repeat grows_step. Qed.

Lemma grows_edit_sound (env : Env) (sound : string) :
  grows (edit_sound env sound).
Proof.
  unfold edit_sound.
  repeat (apply grows_import_sound || grows_step).
Qed.

Lemma grows_add_sound (env : Env) (fuel : nat) : grows (add_sound env fuel).
Proof.
  induction fuel as [|fuel IH]; simpl.
  - apply grows_out_of_fuel.
  - repeat (apply IH || apply grows_edit_sound || grows_step).
Qed.

Lemma grows_write_block (env : Env) (filename : string) (data : pyval) :
  grows (write_block env filename data).
Proof.
  intros w. exists [Write_json filename data].
  unfold write_block, put_file, update_theme, get_theme, bind, get, modify,
    ret, raise.
  destruct (fs_ok env (events w) (Write_json filename data));
    [|destruct (write_fails env (events w) (Write_json filename data))];
    simpl; destruct (the_theme w); reflexivity.
Qed.

Lemma grows_save_theme (env : Env) (force_dialog : bool) :
  grows (save_theme env force_dialog).
Proof.
  unfold save_theme. repeat (apply grows_write_block || grows_step).
Qed.

Lemma grows_copy_sounds (env : Env) (workdir : string)
    (d : list (string * pyval)) : grows (copy_sounds env workdir d).
Proof.
  induction d as [|[k v] d IH]; simpl.
  - apply grows_ret.
  - repeat (apply IH || grows_step).
Qed.

Lemma grows_export_theme (env : Env) (savedir : option string) (quiet : bool) :
  grows (export_theme env savedir quiet).
Proof.
  unfold export_theme.
  repeat (apply grows_save_theme || apply grows_copy_sounds || grows_step).
Qed.

Lemma grows_install_theme (env : Env) : grows (install_theme env).
Proof.
  unfold install_theme, lift_sum.
  repeat (apply grows_export_theme || grows_step).
Qed.

#[local] Hint Resolve grows_editor_set_title grows_set_comment
  grows_add_sound grows_save_theme grows_export_theme grows_install_theme
  : grows_db.

(** What [edit_theme] does when the answer of its menu is none of the
    listed choices. *)
Lemma edit_choice_leaves (env : Env) (fuel : nat) (choice : option string)
    (file_info : string) :
  leaves choice = true ->
  edit_choice env fuel choice file_info
  = (t <- get_theme ;;
     if modified t then
       ans <- yesnocancel env ("Save changes to " ++ file_info ++ "?")%string
                (Dtype_int 1) None None None ;;
       if ans =? YES then _ <- save_theme env false ;; ret false
       else if ans =? NO then ret false
       else ret true
     else ret false).
Proof.
  destruct choice as [[|c [|c' s]]|]; try reflexivity;
    destruct c as [[] [] [] [] [] [] [] []]; try reflexivity;
    discriminate.
Qed.

Lemma grows_edit_choice (env : Env) (fuel : nat) (choice : option string)
    (file_info : string) : grows (edit_choice env fuel choice file_info).
Proof.
  destruct (leaves choice) eqn:Hl.
  - rewrite (edit_choice_leaves env fuel choice file_info Hl).
    repeat grows_step.
  - destruct choice as [[|c [|c' s]]|]; try discriminate;
      destruct c as [[] [] [] [] [] [] [] []]; try discriminate;
      simpl; repeat grows_step.
Qed.

Lemma grows_edit_theme (env : Env) (fuel : nat) : grows (edit_theme env fuel).
Proof.
  induction fuel as [|fuel IH]; simpl.
  - apply grows_out_of_fuel.
  - repeat (apply IH || apply grows_edit_choice || grows_step).
Qed.

(** *** A new theme *)

Lemma bind_at {A B} (c c' : M World A) (k : A -> M World B) (w w' : World) :
  c w = c' w' -> bind c k w = bind c' k w'.
Proof. intros H. unfold bind. now rewrite H. Qed.

Lemma try_except_at {A} (c c' : M World A) (catches : exn -> bool)
    (h : exn -> M World A) (w w' : World) :
  c w = c' w' -> try_except c catches h w = try_except c' catches h w'.
Proof. intros H. unfold try_except. now rewrite H. Qed.

(** [set_title] keeps a theme with unsaved changes so, and leaves its path
    alone. *)
Lemma set_title_keeps_modified (env : Env) (w0 w1 : World) (t0 : Theme) :
  the_theme w0 = Some t0 ->
  modified t0 = true ->
  Editor.set_title env w0 = (Ok tt, w1) ->
  exists t1, the_theme w1 = Some t1 /\ modified t1 = true /\ path t1 = path t0.
Proof.
  intros Hth Hm. unfold Editor.set_title.
  rewrite (bind_ok _ _ _ _ _ (get_theme_eq w0 t0 Hth)).
  destruct (only_logs_inputbox env "Enter theme name..." (name t0) None None w0)
    as [rest Hw].
  unfold bind at 1.
  destruct (inputbox env "Enter theme name..." (name t0) None None w0)
    as [[[n|]|e|] w'] eqn:Hi; simpl in Hw; subst w'; try discriminate.
  - unfold bind at 1.
    rewrite (update_theme_eq _ t0) by exact Hth.
    rewrite (update_theme_eq _ (with_name (PStr n) t0)) by reflexivity.
    intros H. inversion H. subst w1. simpl. eauto.
  - intros H. inversion H. subst w1. simpl. eauto.
Qed.

Lemma yesnocancel_warning (env : Env) (text : string) :
  yesnocancel env text (Dtype_int 1) None None None
  = (r <- do_call env [Some "--warningyesnocancel"; Some text] None ;;
     let returncode := fst r in
     if returncode =? 0 then ret YES
     else if returncode =? 1 then ret NO
     else ret CANCEL).
Proof. reflexivity. Qed.

(** C8: [new_theme] hands [set_title] a fresh theme whose [modified] flag is
    already set; the flag is still set once the name has been asked for, and
    when the first answer to the menu of [edit_theme] is none of its choices
    the next command spawned is the question whether to save the changes. *)
Theorem new_theme_is_modified_from_the_start
    (env : Env) (fuel : nat) (w w1 w2 : World) (t1 : Theme)
    (choice : option string) :
  Editor.set_title env (with_theme (Some (with_modified true Theme_init)) w)
  = (Ok tt, w1) ->
  the_theme w1 = Some t1 ->
  menu env "What would you like to do?" edit_menu_items None None
    (with_title (Some (edit_title (file_info_of env t1))) w1)
  = (Ok choice, w2) ->
  leaves choice = true ->
  new_theme env (S fuel) w
  = (Editor.set_title env ;; edit_theme env (S fuel))
      (with_theme (Some (with_modified true Theme_init)) w)
  /\ modified t1 = true
  /\ path t1 = None
  /\ exists rest,
       events (snd (new_theme env (S fuel) w))
       = events w2
         ++ Spawn (kdialog_argv (edit_title (file_info_of env t1))
                     (save_changes_args (file_info_of env t1))) None
            :: rest.
Proof.
  intros Hset Hth1 Hmenu Hleave.
  set (w0 := with_theme (Some (with_modified true Theme_init)) w) in *.
  assert (Hnew : new_theme env (S fuel) w
                 = (Editor.set_title env ;; edit_theme env (S fuel)) w0)
    by reflexivity.
  destruct (set_title_keeps_modified env w0 w1 (with_modified true Theme_init))
    as [t1' [Hth1' [Hm Hp]]]; try reflexivity; try exact Hset.
  assert (t1' = t1) by congruence. subst t1'.
  repeat split; trivial.
  rewrite Hnew, (bind_ok _ _ _ _ _ Hset).
  set (fi := file_info_of env t1) in *.
  set (w1' := with_title (Some (edit_title fi)) w1) in *.
  assert (Hw2 : the_theme w2 = Some t1 /\ title w2 = Some (edit_title fi)).
  { destruct (only_logs_menu env "What would you like to do?" edit_menu_items
                None None w1') as [l Hl].
    rewrite Hmenu in Hl. simpl in Hl. subst w2. now split. }
  destruct Hw2 as [Hth2 Ht2].
  assert (Hloop :
            edit_theme env (S fuel) w1
            = (choice <- menu env "What would you like to do?" edit_menu_items
                           None None ;;
               editing <-
                 try_except (edit_choice env fuel choice fi) is_not_implemented
                   (fun _ =>
                      _ <- error env "This functionality is not implemented."
                             None No_details ;;
                      ret true) ;;
               if editing then edit_theme env fuel else ret tt) w1').
  { cbn [edit_theme].
    now rewrite (bind_ok _ _ _ _ _ (get_theme_eq w1 t1 Hth1)). }
  rewrite Hloop.
  rewrite (bind_ok _ _ _ _ _ Hmenu).
  rewrite (edit_choice_leaves env fuel choice fi Hleave).
  set (k := fun editing : bool =>
              if editing then edit_theme env fuel else ret tt).
  set (h := fun _ : exn =>
              _ <- error env "This functionality is not implemented." None
                     No_details ;;
              ret true).
  set (after := fun ans : Z =>
                  if ans =? YES then _ <- save_theme env false ;; ret false
                  else if ans =? NO then ret false
                  else ret true).
  assert (Hk : forall b, grows (k b)).
  { intros [|]; unfold k; [apply grows_edit_theme | apply grows_ret]. }
  assert (Hh : forall e, grows (h e)).
  { intros e. unfold h. repeat grows_step. }
  assert (Hafter : forall ans, grows (after ans)).
  { intros ans. unfold after. repeat grows_step. }
  set (argv := kdialog_argv (edit_title fi) (save_changes_args fi)).
  set (w3 := spawned w2 argv None).
  assert (Hcall : do_call env
                    [Some "--warningyesnocancel";
                     Some ("Save changes to " ++ fi ++ "?")%string] None w2
                  = match spawn_result env (events w2) argv None with
                    | Exited returncode out =>
                        (Ok (returncode, rstrip_nl out), w3)
                    | NoSuchProgram => (Raise (Exn FileNotFoundError ""), w3)
                    end).
  { now apply do_call_spawn. }
  assert (Hbody :
            exists c : M World bool,
              grows c
              /\ (t <- get_theme ;;
                  if modified t then
                    ans <- yesnocancel env ("Save changes to " ++ fi ++ "?")%string
                             (Dtype_int 1) None None None ;;
                    after ans
                  else ret false) w2 = c w3).
  { rewrite (bind_ok _ _ _ _ _ (get_theme_eq w2 t1 Hth2)), Hm.
    rewrite yesnocancel_warning.
    destruct (spawn_result env (events w2) argv None) as [rc out|] eqn:Hs.
    - exists (r <- ret (rc, rstrip_nl out) ;;
              ans <- (if fst r =? 0 then ret YES
                      else if fst r =? 1 then ret NO
                      else ret CANCEL) ;;
              after ans).
      split; [repeat (apply Hafter || grows_step)|].
      unfold bind at 1. unfold bind at 1. rewrite Hcall.
      reflexivity.
    - exists (raise (Exn FileNotFoundError "")).
      split; [apply grows_raise|].
      unfold bind at 1. unfold bind at 1. now rewrite Hcall. }
  destruct Hbody as [c [Hc Heq]].
  rewrite (bind_at _ (try_except c is_not_implemented h) k w2 w3)
    by (apply try_except_at; exact Heq).
  assert (Hall : grows (bind (try_except c is_not_implemented h) k)).
  { apply grows_bind; [apply grows_try_except|]; assumption. }
  destruct (Hall w3) as [rest Hrest].
  exists rest. rewrite Hrest. unfold w3, spawned. simpl.
  now rewrite <- app_assoc.
Qed.

Lemma new_theme_is_modified_from_the_start_witness :
  events (snd (new_theme cancel_env 1 (at_main_menu [])))
  = [Spawn ["kdialog"; "--title"; "Sound theme maker"; "--inputbox";
            "Enter theme name..."; "Sound theme"] None;
     Spawn ("kdialog" :: "--title" :: "Sound theme maker (Sound theme)"
            :: "--menu" :: "What would you like to do?" :: edit_menu_items)
       None;
     Spawn ["kdialog"; "--title"; "Sound theme maker (Sound theme)";
            "--warningyesnocancel"; "Save changes to Sound theme?"] None].
Proof.
  destruct (new_theme_is_modified_from_the_start cancel_env 0
              (at_main_menu [])
              (snd (Editor.set_title cancel_env
                      (with_theme (Some (with_modified true Theme_init))
                         (at_main_menu []))))
              (snd (menu cancel_env "What would you like to do?"
                      edit_menu_items None None
                      (with_title (Some "Sound theme maker (Sound theme)")
                         (snd (Editor.set_title cancel_env
                                 (with_theme
                                    (Some (with_modified true Theme_init))
                                    (at_main_menu [])))))))
              (with_modified true Theme_init) None)
    as [_ [_ [_ [rest Hrest]]]]; try reflexivity.
Defined.

(** *** Opening a document *)








(** What [show_exc] spawns for an error dialog. *)
Lemma show_exc_error (env : Env) (w : World) (ttl text : string) (e : exn) :
  title w = Some ttl ->
  exists o : outcome unit,
    show_exc env text (Dtype_int 1) None (Some e) w
    = (o, spawned w
            (kdialog_argv ttl ["--detailederror"; text; format_exception env e])
            None)
    /\ o <> OutOfFuel.
Proof.
  intros Ht. unfold show_exc, error. unfold bind.
  rewrite (do_call_spawn env w ttl _
             ["--detailederror"; text; format_exception env e] None Ht)
    by reflexivity.
  destruct (spawn_result env (events w) _ None) as [rc out|].
  - unfold detailed_result, ret, raise. cbn [fst].
    destruct (rc =? 0); [eexists; split; [reflexivity|discriminate]|].
    destruct (rc =? 2); eexists; (split; [reflexivity|discriminate]).
  - eexists. split; [reflexivity|discriminate].
Qed.

Lemma Theme_init_keys : map fst (sounds Theme_init) = sound_ids.
Proof. reflexivity. Qed.

(** [json_theme] once the file dialog has answered. *)
Lemma json_theme_opened (env : Env) (fuel : nat) (w w1 : World)
    (filename : string) (more : list string) :
  getopenfilename env (Some "application/json") None false
    (with_title (Some "Open theme JSON") w)
  = (Ok (Some (filename :: more)), w1) ->
  json_theme env fuel w
  = (parsed <-
       try_except (parse_theme env filename ;; ret true) (fun _ => true)
         (fun e =>
            show_exc env ("An error occurred parsing " ++ filename ++ ":")%string
              (Dtype_int 1) None (Some e) ;;
            ret false) ;;
     if parsed then edit_theme env fuel else ret tt)
      (with_theme (Some (with_path (Some filename) Theme_init)) w1).
Proof.
  intros Hopen.
  assert (Hrun : json_theme env fuel w
                 = bind (getopenfilename env (Some "application/json") None false)
                     (fun filename =>
                        match filename with
                        | None => ret tt
                        | Some l =>
                            filename <- first_item l ;;
                            modify (with_theme (Some Theme_init)) ;;
                            update_theme (with_path (Some filename)) ;;
                            parsed <-
                              try_except (parse_theme env filename ;; ret true)
                                (fun _ => true)
                                (fun e =>
                                   show_exc env
                                     ("An error occurred parsing " ++ filename ++ ":")%string
                                     (Dtype_int 1) None (Some e) ;;
                                   ret false) ;;
                            if parsed then edit_theme env fuel else ret tt
                        end)
                     (with_title (Some "Open theme JSON") w))
    by reflexivity.
  rewrite Hrun, (bind_ok _ _ _ _ _ Hopen).
  unfold first_item. unfold bind at 1, ret at 1.
  unfold bind at 1, modify at 1.
  unfold bind at 1.
  now rewrite (update_theme_eq _ Theme_init) by reflexivity.
Qed.




(** *** Saving, then opening *)








(** The [with] block of [save_theme], case by case. *)
Lemma write_block_eq (env : Env) (w : World) (t : Theme) (filename : string)
    (data : pyval) :
  the_theme w = Some t ->
  write_block env filename data w
  = if fs_ok env (events w) (Write_json filename data)
    then
      (Ok OK,
       with_files ((filename, Json_text data) :: files w)
         (with_theme (Some (with_path (Some filename) (with_modified false t)))
            (with_events (events w ++ [Write_json filename data]) w)))
    else
      match write_fails env (events w) (Write_json filename data) with
      | Open_fails e =>
          (Raise e, with_events (events w ++ [Write_json filename data]) w)
      | Dump_fails e on_disk =>
          (Raise e,
           with_files ((filename, on_disk) :: files w)
             (with_events (events w ++ [Write_json filename data]) w))
      | Close_fails e on_disk =>
          (Raise e,
           with_files ((filename, on_disk) :: files w)
             (with_theme
                (Some (with_path (Some filename) (with_modified false t)))
                (with_events (events w ++ [Write_json filename data]) w)))
      end.
Proof.
  intros Hth.
  unfold write_block, put_file, update_theme, get_theme, bind, get, modify,
    ret, raise.
  destruct (fs_ok env (events w) (Write_json filename data));
    [|destruct (write_fails env (events w) (Write_json filename data))];
    simpl; rewrite ?Hth; reflexivity.
Qed.





End Editor_facts.

(** ** More on the progress bar *)

Module ProgressBar_more.
Import ProgressBar Caller Notions ProgressBar_facts.

Lemma evolves_refl (s : session) : evolves s s.
Proof.
  repeat split; trivial. exists []. split; [now rewrite app_nil_r | constructor].
Qed.

Lemma addressed_same (p p' : t) (e : event) :
  ref p' = ref p -> qdbus p' = qdbus p -> addressed p' e -> addressed p e.
Proof.
  intros Hr Hq [q [tail [H1 H2]]]. exists q, tail. split; congruence.
Qed.

Lemma evolves_trans (s1 s2 s3 : session) :
  evolves s1 s2 -> evolves s2 s3 -> evolves s1 s3.
Proof.
  intros [Hr [Hi [Hq [Ha [Hc [l1 [Hl1 Hf1]]]]]]]
         [Hr' [Hi' [Hq' [Ha' [Hc' [l2 [Hl2 Hf2]]]]]]].
  repeat split; try congruence; try tauto.
  exists (l1 ++ l2). split.
  - now rewrite Hl2, Hl1, app_assoc.
  - apply Forall_app. split; [exact Hf1|].
    eapply Forall_impl; [|exact Hf2].
    intros e. now apply addressed_same.
Qed.

Lemma evolves_set_progress_field (s : session) (v : Z) :
  evolves s (set_progress_field v s).
Proof.
  repeat split; trivial. exists []. split; [simpl; now rewrite app_nil_r | constructor].
Qed.

Lemma evolves_logged (s : session) (q : string) (tail : list string) :
  qdbus (self s) = Some q ->
  evolves s (logged s (q :: split (ref (self s)) ++ tail)).
Proof.
  intros Hq. repeat split; trivial.
  exists [Spawn (q :: split (ref (self s)) ++ tail) None].
  split; [reflexivity|]. constructor; [|constructor]. now exists q, tail.
Qed.

Lemma evolves_close (env : Env) (s : session) : evolves s (snd (close env s)).
Proof.
  destruct (qdbus (self s)) as [q|] eqn:Hq.
  - destruct (close_known env s q Hq) as [o [_ ->]]. simpl.
    repeat split; trivial.
    exists [Spawn (close_argv q (self s)) None]. split; [reflexivity|].
    constructor; [|constructor]. now exists q, ["close"].
  - rewrite (close_unknown env s Hq). simpl. repeat split; trivial.
    exists []. split; [now rewrite app_nil_r | constructor].
Qed.

Lemma snd_then_raise {A} (c : M session unit) (e : exn) (s : session) :
  snd ((c ;; @raise session A e) s) = snd (c s).
Proof. unfold bind. now destruct (c s) as [[u|x|] s']. Qed.

Lemma evolves_update (env : Env) (s : session) :
  evolves s (snd (update env s)).
Proof.
  rewrite update_eq. destruct (closed (self s)); [apply evolves_refl|].
  destruct (qdbus (self s)) as [q|] eqn:Hq; [|apply evolves_refl].
  cbv zeta. unfold set_argv.
  destruct (spawn_result env (log s) _ None) as [rc out|].
  - destruct (rc =? 0).
    + now apply evolves_logged.
    + rewrite snd_then_raise.
      eapply evolves_trans;
        [apply (evolves_logged s q
                  ["Set"; ""; "value"; str_of_Z (progress (self s))] Hq)
        | apply evolves_close].
  - now apply evolves_logged.
Qed.

Lemma evolves_call (env : Env) (c : call) (s : session) :
  evolves s (snd (perform env c s)).
Proof.
  destruct c as [value| | |]; simpl.
  - rewrite set_progress_eq.
    destruct ((value <? 0) || (value >? itercount (self s)));
      [apply evolves_refl|].
    eapply evolves_trans;
      [apply (evolves_set_progress_field s value) | apply evolves_update].
  - rewrite increment_eq. destruct (closed (self s)); [apply evolves_refl|].
    eapply evolves_trans;
      [apply (evolves_set_progress_field s (progress (self s) + 1))|].
    set (s1 := set_progress_field (progress (self s) + 1) s).
    unfold bind at 1. pose proof (evolves_update env s1) as Hu.
    destruct (update env s1) as [[u|e|] s2]; simpl in Hu |- *; trivial.
    unfold bind, get.
    destruct ((progress (self s2) >=? itercount (self s2))
              && auto_close (self s2)); [|exact Hu].
    eapply evolves_trans; [exact Hu | apply evolves_close].
  - rewrite exit_eq. destruct (closed (self s));
      [apply evolves_refl | apply evolves_close].
  - apply evolves_close.
Qed.

(** X1: whatever calls are made on a session, its reference, its total, its
    executable and its auto-close setting stay as they were, a closed
    session stays closed, and the log only grows, by commands that start
    with the executable and the words of the reference. *)
Theorem session_evolves (env : Env) (cs : list call) (s : session) :
  evolves s (perform_all env cs s).
Proof.
  revert s. induction cs as [|c cs IH]; intros s; simpl.
  - apply evolves_refl.
  - eapply evolves_trans; [apply evolves_call | apply IH].
Qed.

Lemma close_progress (env : Env) (s : session) :
  progress (self (snd (close env s))) = progress (self s).
Proof.
  destruct (qdbus (self s)) as [q|] eqn:Hq.
  - now destruct (close_known env s q Hq) as [o [_ ->]].
  - now rewrite (close_unknown env s Hq).
Qed.

Lemma update_progress (env : Env) (s : session) :
  progress (self (snd (update env s))) = progress (self s).
Proof.
  rewrite update_eq. destruct (closed (self s)); [reflexivity|].
  destruct (qdbus (self s)) as [q|]; [|reflexivity]. cbv zeta.
  destruct (spawn_result env (log s) _ None) as [rc out|]; [|reflexivity].
  destruct (rc =? 0); [reflexivity|].
  now rewrite snd_then_raise, close_progress.
Qed.

(** X2: as long as [increment] is not called, the recorded progress stays
    between 0 and the total: the setter, [close] and [__exit__] keep the
    range, whatever the transport does. *)
Theorem progress_stays_in_range_without_increment
    (env : Env) (cs : list call) (s : session) :
  forallb (fun c => negb (is_increment c)) cs = true ->
  0 <= progress (self s) <= itercount (self s) ->
  0 <= progress (self (perform_all env cs s))
  <= itercount (self (perform_all env cs s)).
Proof.
  revert s. induction cs as [|c cs IH]; intros s Hcs Hr; simpl in *.
  - exact Hr.
  - apply andb_true_iff in Hcs. destruct Hcs as [Hc Hcs].
    apply IH; [exact Hcs|].
    destruct (evolves_call env c s) as [_ [Hi _]]. rewrite Hi.
    destruct c as [value| | |]; simpl in *; try discriminate.
    + rewrite set_progress_eq.
      destruct ((value <? 0) || (value >? itercount (self s))) eqn:Et;
        [exact Hr|].
      rewrite update_progress. simpl. now apply range_test.
    + rewrite exit_eq. destruct (closed (self s)); [exact Hr|].
      now rewrite close_progress.
    + now rewrite close_progress.
Qed.

Lemma progress_stays_in_range_without_increment_witness :
  0 <= progress (self (perform_all dismissed_env
                         [Set_progress 2; Set_progress 9; Exit; Set_progress 1]
                         (fresh 5)))
  <= 5.
Proof.
  apply (progress_stays_in_range_without_increment dismissed_env
           [Set_progress 2; Set_progress 9; Exit; Set_progress 1] (fresh 5));
    [reflexivity | simpl; lia].
Defined.

(** X3: when the command that pushes a value exits with a status other than
    0 (the indicator was dismissed), the setter records the value, closes the
    session, spawns the close command and raises [CancelledError]. *)
Theorem set_progress_on_dismissed_indicator
    (env : Env) (s : session) (q out out2 : string) (value rc rc2 : Z) :
  closed (self s) = false ->
  qdbus (self s) = Some q ->
  0 <= value <= itercount (self s) ->
  spawn_result env (log s) (set_argv q (self s) value) None = Exited rc out ->
  rc <> 0 ->
  spawn_result env (log s ++ [Spawn (set_argv q (self s) value) None])
    (close_argv q (self s)) None
  = Exited rc2 out2 ->
  set_progress env value s
  = (Raise cancelled,
     {| self := self (set_closed_field true (set_progress_field value s));
        log := log s ++ [Spawn (set_argv q (self s) value) None;
                         Spawn (close_argv q (self s)) None] |}).
Proof.
  intros Hc Hq Hin Hs Hrc Hs2. apply range_test in Hin.
  rewrite set_progress_eq, Hin, update_eq. simpl closed. simpl qdbus.
  rewrite Hc, Hq. cbv zeta.
  change (set_argv q (self (set_progress_field value s))
            (progress (self (set_progress_field value s))))
    with (set_argv q (self s) value).
  change (log (set_progress_field value s)) with (log s).
  rewrite Hs. apply Z.eqb_neq in Hrc. rewrite Hrc.
  unfold close, close_argv in *. unfold_monad. rewrite Hq.
  rewrite all_some_map_Some. rewrite Hs2. simpl.
  now rewrite <- app_assoc.
Qed.

Lemma set_progress_on_dismissed_indicator_witness :
  set_progress dismissed_env 3 (fresh 5)
  = (Raise cancelled,
     {| self := self (set_closed_field true (set_progress_field 3 (fresh 5)));
        log := [Spawn ["qdbus6"; "org.kde.kdialog-4242"; "/ProgressDialog";
                       "Set"; ""; "value"; "3"] None;
                Spawn ["qdbus6"; "org.kde.kdialog-4242"; "/ProgressDialog";
                       "close"] None] |}).
Proof.
  apply (set_progress_on_dismissed_indicator dismissed_env (fresh 5) "qdbus6"
           "" "" 3 1 0); try reflexivity; try discriminate.
  simpl. lia.
Defined.

(** X4: when the push succeeds, [increment] on an open session leaves it
    open below the total or without auto-close, and closes it (spawning the
    close command) once the total is reached on an auto-closing session. *)
Theorem increment_closes_at_the_total
    (env : Env) (s : session) (q out : string) :
  closed (self s) = false ->
  qdbus (self s) = Some q ->
  spawn_result env (log s) (set_argv q (self s) (progress (self s) + 1)) None
  = Exited 0 out ->
  (progress (self s) + 1 < itercount (self s) \/ auto_close (self s) = false ->
   increment env s
   = (Ok tt,
      logged (set_progress_field (progress (self s) + 1) s)
        (set_argv q (self s) (progress (self s) + 1))))
  /\ (itercount (self s) <= progress (self s) + 1 ->
      auto_close (self s) = true ->
      forall rc2 out2,
        spawn_result env
          (log s ++ [Spawn (set_argv q (self s) (progress (self s) + 1)) None])
          (close_argv q (self s)) None
        = Exited rc2 out2 ->
        increment env s
        = (Ok tt,
           {| self := self (set_closed_field true
                              (set_progress_field (progress (self s) + 1) s));
              log := log s
                     ++ [Spawn (set_argv q (self s) (progress (self s) + 1)) None;
                         Spawn (close_argv q (self s)) None] |})).
Proof.
  intros Hc Hq Hs.
  set (s1 := set_progress_field (progress (self s) + 1) s).
  set (argv := set_argv q (self s) (progress (self s) + 1)) in *.
  assert (Hu : update env s1 = (Ok tt, logged s1 argv)).
  { rewrite update_eq. simpl closed. simpl qdbus. rewrite Hc, Hq. cbv zeta.
    change (set_argv q (self s1) (progress (self s1))) with argv.
    change (log s1) with (log s). now rewrite Hs. }
  assert (Hi : increment env s
               = if (progress (self s) + 1 >=? itercount (self s))
                    && auto_close (self s)
                 then close env (logged s1 argv)
                 else (Ok tt, logged s1 argv)).
  { rewrite increment_eq, Hc. fold s1. unfold bind at 1. rewrite Hu.
    unfold bind, get. simpl.
    now destruct ((progress (self s) + 1 >=? itercount (self s))
                  && auto_close (self s)). }
  split.
  - intros H. rewrite Hi.
    replace ((progress (self s) + 1 >=? itercount (self s))
             && auto_close (self s)) with false; [reflexivity|].
    symmetry. apply andb_false_iff. destruct H as [H|H]; [left | now right].
    rewrite Z.geb_leb. apply Z.leb_gt. lia.
  - intros Hge Ha rc2 out2 Hs2. rewrite Hi, Ha.
    replace (progress (self s) + 1 >=? itercount (self s)) with true
      by (symmetry; rewrite Z.geb_leb; apply Z.leb_le; lia).
    simpl andb. unfold close, close_argv in *. unfold_monad. rewrite Hq.
    rewrite all_some_map_Some. fold argv. rewrite Hs2. simpl.
    now rewrite <- app_assoc.
Qed.

Lemma increment_closes_at_the_total_witness :
  closed (self (snd (increment (quiet_env "")
                       (set_progress_field 4
                          {| self := {| ref := "org.kde.kdialog-4242 /ProgressDialog";
                                        itercount := 5; progress := 0;
                                        closed := false;
                                        qdbus := Some "qdbus6";
                                        auto_close := true |};
                             log := [] |}))))
  = true.
Proof.
  destruct (increment_closes_at_the_total (quiet_env "")
              (set_progress_field 4
                 {| self := {| ref := "org.kde.kdialog-4242 /ProgressDialog";
                               itercount := 5; progress := 0; closed := false;
                               qdbus := Some "qdbus6"; auto_close := true |};
                    log := [] |})
              "qdbus6" "") as [_ H]; try reflexivity.
Defined.

(** The loop of [__init__]: the candidates are tried in order, each on the
    reference, and the first one that exits with status 0 is kept. *)
Lemma probe_outcome (env : Env) (r : string) (choices : list string) :
  forall l : list event,
    (exists earlier q later out,
       choices = earlier ++ q :: later
       /\ all_rejected env r l earlier = true
       /\ spawn_result env
            (l ++ map (fun x => Spawn (x :: split r) None) earlier)
            (q :: split r) None
          = Exited 0 out
       /\ probe env choices r l
          = (Some q,
             l ++ map (fun x => Spawn (x :: split r) None) (earlier ++ [q])))
    \/ (all_rejected env r l choices = true
        /\ probe env choices r l
           = (None, l ++ map (fun x => Spawn (x :: split r) None) choices)).
Proof.
  induction choices as [|x choices IH]; intros l.
  - right. simpl. now rewrite app_nil_r.
  - cbn [probe]. unfold subprocess_run.
    rewrite all_some_map_Some.
    assert (Hnext :
              rejected env l (x :: split r) = true ->
              (exists earlier q later out,
                 x :: choices = earlier ++ q :: later
                 /\ all_rejected env r l earlier = true
                 /\ spawn_result env
                      (l ++ map (fun x => Spawn (x :: split r) None) earlier)
                      (q :: split r) None
                    = Exited 0 out
                 /\ probe env choices r (l ++ [Spawn (x :: split r) None])
                    = (Some q,
                       l ++ map (fun x => Spawn (x :: split r) None)
                              (earlier ++ [q])))
              \/ (all_rejected env r l (x :: choices) = true
                  /\ probe env choices r (l ++ [Spawn (x :: split r) None])
                     = (None,
                        l ++ map (fun x => Spawn (x :: split r) None)
                               (x :: choices)))).
    { intros Hrej.
      destruct (IH (l ++ [Spawn (x :: split r) None]))
        as [[earlier [q [later [out [Hch [Hall [Hs Hp]]]]]]] | [Hall Hp]].
      - left. exists (x :: earlier), q, later, out. subst choices.
        split; [reflexivity|]. split; [|split].
        + cbn [all_rejected]. now rewrite Hrej, Hall.
        + simpl. now rewrite <- app_assoc in Hs.
        + rewrite Hp. simpl. now rewrite <- app_assoc.
      - right. split.
        + cbn [all_rejected]. now rewrite Hrej, Hall.
        + rewrite Hp. simpl. now rewrite <- app_assoc. }
    unfold rejected in Hnext.
    destruct (spawn_result env l (x :: split r) None) as [rc out|] eqn:Hs;
      [|now apply Hnext].
    destruct rc as [|rc|rc]; try (now apply Hnext).
    left. exists [], x, choices, out. simpl. rewrite app_nil_r.
    repeat split. exact Hs.
Qed.

(** X5: the constructor tries [qdbus6], [qdbus] and [qdbus-qt5] in this
    order on the reference.  Either some candidate exits with status 0
    after every earlier one was rejected: that candidate is kept, no later
    one is tried, and the session is open at progress 0 with the requested
    total.  Or all three were rejected, all three were tried, and a
    [RuntimeError] is raised. *)
Theorem init_outcome (env : Env) (r : string) (count : Z) (auto : bool)
    (l : list event) :
  (exists earlier q later out,
     qdbus_choices = earlier ++ q :: later
     /\ all_rejected env r l earlier = true
     /\ spawn_result env
          (l ++ map (fun x => Spawn (x :: split r) None) earlier)
          (q :: split r) None
        = Exited 0 out
     /\ init env r count auto l
        = (Ok {| ref := r; itercount := count; progress := 0; closed := false;
                 qdbus := Some q; auto_close := auto |},
           l ++ map (fun x => Spawn (x :: split r) None) (earlier ++ [q])))
  \/ (all_rejected env r l qdbus_choices = true
      /\ exists e,
           exn_cls e = RuntimeError
           /\ init env r count auto l
              = (Raise e,
                 l ++ map (fun x => Spawn (x :: split r) None) qdbus_choices)).
Proof.
  unfold init.
  destruct (probe_outcome env r qdbus_choices l)
    as [[earlier [q [later [out [Hch [Hall [Hs Hp]]]]]]] | [Hall Hp]];
    rewrite Hp.
  - left. now exists earlier, q, later, out.
  - right. split; [exact Hall|]. eexists. split; [|reflexivity]. reflexivity.
Qed.

End ProgressBar_more.

(** ** More on the dialog layer *)

Module KDialog_more.
Import KDialog Dialogs Scenario Notions KDialog_facts.

(** *** Line feeds and line boundaries *)

Lemma linefeed_char (c : ascii) : is_linefeed c = true -> c = ascii_of_nat 10.
Proof.
  unfold is_linefeed, code. intros H. apply Nat.eqb_eq in H.
  now rewrite <- H, ascii_nat_embedding.
Qed.

Lemma rstrip_nl_spec (s : string) :
  ends_with_linefeed (rstrip_nl s) = false
  /\ exists n, s = (rstrip_nl s ++ linefeeds n)%string.
Proof.
  induction s as [|c s [IHe [n IHn]]]; simpl.
  - split; [reflexivity | now exists O].
  - destruct ((code c =? 10)%nat && is_empty (rstrip_nl s)) eqn:E.
    + split; [reflexivity|]. exists (S n).
      apply andb_true_iff in E. destruct E as [Ec Er].
      apply linefeed_char in Ec. subst c.
      destruct (rstrip_nl s); [|discriminate]. simpl in *. now rewrite <- IHn.
    + split.
      * simpl. destruct (rstrip_nl s) as [|c' r] eqn:Er; [|exact IHe].
        simpl in E. rewrite andb_true_r in E. exact E.
      * exists n. simpl. now rewrite <- IHn.
Qed.

(** X6: the text [do_call] returns is the output of the command without
    its trailing line feeds: it never ends with a line feed, and the command
    printed it followed by line feeds only. *)
Theorem do_call_strips_trailing_line_feeds
    (env : Env) (args : list (option string)) (to_stdin : option string)
    (w w' : World) (returncode : Z) (out : string) :
  do_call env args to_stdin w = (Ok (returncode, out), w') ->
  ends_with_linefeed out = false
  /\ exists argv n,
       spawn_result env (events w) argv to_stdin
       = Exited returncode (out ++ linefeeds n)%string
       /\ w' = spawned w argv to_stdin.
Proof.
  unfold do_call. unfold bind at 1, get at 1.
  unfold bind, run, subprocess_run.
  destruct (all_some (runtime_args (title w) args)) as [argv|];
    [|discriminate].
  destruct (spawn_result env (events w) argv to_stdin) as [rc raw|] eqn:Hs;
    [|discriminate].
  unfold ret. intros H. inversion H. subst. clear H.
  destruct (rstrip_nl_spec raw) as [He [n Hn]].
  split; [exact He|]. exists argv, n. split; [|reflexivity].
  now rewrite <- Hn.
Qed.

Lemma do_call_strips_trailing_line_feeds_witness :
  ends_with_linefeed
    (snd (match fst (do_call (picking_env "/t.json")
                       [Some "--getopenfilename"] None (at_main_menu []))
          with
          | Ok r => r
          | _ => (0, "")
          end))
  = false.
Proof.
  apply (do_call_strips_trailing_line_feeds (picking_env "/t.json")
           [Some "--getopenfilename"] None (at_main_menu [])
           (snd (do_call (picking_env "/t.json") [Some "--getopenfilename"]
                   None (at_main_menu [])))
           0 "/t.json").
  reflexivity.
Defined.

(** *** Characters *)

Lemma append_nil_r (s : string) : (s ++ "")%string = s.
Proof. induction s as [|c s IH]; simpl; [reflexivity|]. now rewrite IH. Qed.

Lemma join_snoc (l : list string) (c : string) :
  join (l ++ [c]) = (join l ++ c)%string.
Proof.
  induction l as [|x l IH]; simpl.
  - apply append_nil_r.
  - now rewrite IH, Editor_facts.append_assoc.
Qed.

(** The characters of a text make up the text. *)
Lemma join_chars_from (s : string) :
  forall cur, join (chars_from cur s) = (cur ++ s)%string.
Proof.
  induction s as [|c s IH]; intros cur; simpl.
  - destruct cur; simpl; [reflexivity|]. now rewrite !append_nil_r.
  - destruct (is_continuation c).
    + rewrite IH. apply Editor_facts.snoc_append.
    + destruct cur as [|x cur]; simpl; rewrite IH; reflexivity.
Qed.

Lemma chars_from_continues (t : string) :
  forall cur s,
    continues t = true ->
    chars_from cur (t ++ s) = chars_from (cur ++ t) s.
Proof.
  induction t as [|c t IH]; intros cur s H; simpl.
  - now rewrite append_nil_r.
  - simpl in H. apply andb_true_iff in H. destruct H as [Hc Ht].
    rewrite Hc, (IH _ _ Ht). now rewrite Editor_facts.snoc_append.
Qed.

Lemma chars_from_first (c s : string) :
  one_char c = true -> chars_from "" (c ++ s) = chars_from c s.
Proof.
  destruct c as [|a t]; [discriminate|]. simpl. intros Ht.
  destruct (is_continuation a);
    now rewrite (chars_from_continues t _ s Ht).
Qed.

Lemma chars_from_next (cur c s : string) :
  is_empty cur = false ->
  starts c = true ->
  chars_from cur (c ++ s) = cur :: chars_from c s.
Proof.
  intros Hcur. destruct c as [|a t]; [discriminate|]. simpl. intros H.
  apply andb_true_iff in H. destruct H as [Ha Ht].
  apply negb_true_iff in Ha. rewrite Ha, Hcur.
  now rewrite (chars_from_continues t _ s Ht).
Qed.

Lemma starts_not_empty (c : string) : starts c = true -> is_empty c = false.
Proof. now destruct c. Qed.

Lemma starts_one_char (c : string) : starts c = true -> one_char c = true.
Proof.
  destruct c as [|a t]; [discriminate|]. simpl. intros H.
  now apply andb_true_iff in H.
Qed.

Lemma chars_from_join (l : list string) :
  forall cur,
    forallb starts l = true ->
    is_empty cur = false ->
    chars_from cur (join l) = cur :: l.
Proof.
  induction l as [|c l IH]; intros cur Hl Hcur; simpl.
  - now rewrite Hcur.
  - simpl in Hl. apply andb_true_iff in Hl. destruct Hl as [Hc Hl].
    rewrite (chars_from_next cur c _ Hcur Hc).
    now rewrite (IH c Hl (starts_not_empty c Hc)).
Qed.

(** The characters of the text a list of characters makes up. *)
Lemma chars_join (l : list string) : char_list l = true -> chars (join l) = l.
Proof.
  destruct l as [|c l]; [reflexivity|]. simpl. intros H.
  apply andb_true_iff in H. destruct H as [Hc Hl].
  unfold chars. rewrite (chars_from_first c _ Hc).
  apply (chars_from_join l c Hl). now destruct c.
Qed.

Lemma continues_snoc (t : string) (c : ascii) :
  continues t = true -> is_continuation c = true ->
  continues (snoc t c) = true.
Proof.
  intros Ht Hc. unfold snoc. induction t as [|x t IH]; simpl.
  - now rewrite Hc.
  - simpl in Ht. apply andb_true_iff in Ht. destruct Ht as [Hx Ht].
    now rewrite Hx, (IH Ht).
Qed.

Lemma chars_from_starts (s : string) :
  forall cur, starts cur = true -> forallb starts (chars_from cur s) = true.
Proof.
  induction s as [|c s IH]; intros cur Hcur; simpl.
  - rewrite (starts_not_empty cur Hcur). simpl. now rewrite Hcur.
  - destruct (is_continuation c) eqn:Hc.
    + apply IH. destruct cur as [|a t]; [discriminate|]. simpl in *.
      apply andb_true_iff in Hcur. destruct Hcur as [Ha Ht].
      rewrite Ha. simpl. now apply continues_snoc.
    + rewrite (starts_not_empty cur Hcur). simpl. rewrite Hcur. simpl.
      apply IH. simpl. now rewrite Hc.
Qed.

Lemma chars_from_one_char (s : string) :
  forall cur, one_char cur = true -> char_list (chars_from cur s) = true.
Proof.
  induction s as [|c s IH]; intros cur Hcur; simpl.
  - destruct cur; [discriminate|]. simpl in *. now rewrite Hcur.
  - destruct (is_continuation c) eqn:Hc.
    + apply IH. destruct cur as [|a t]; [discriminate|]. simpl in *.
      now apply continues_snoc.
    + destruct cur as [|a t]; [discriminate|]. simpl in *. rewrite Hcur.
      simpl. apply chars_from_starts. simpl. now rewrite Hc.
Qed.

Lemma char_list_chars (s : string) : char_list (chars s) = true.
Proof.
  unfold chars. destruct s as [|c s]; [reflexivity|]. simpl.
  destruct (is_continuation c); now apply chars_from_one_char.
Qed.

Lemma char_list_prefix (l1 l2 : list string) :
  char_list (l1 ++ l2) = true -> char_list l1 = true.
Proof.
  destruct l1 as [|c l1]; [reflexivity|]. simpl. intros H.
  apply andb_true_iff in H. destruct H as [Hc Hl].
  rewrite forallb_app in Hl. apply andb_true_iff in Hl.
  now rewrite Hc, (proj1 Hl).
Qed.

Lemma char_list_suffix (l1 l2 : list string) :
  char_list (l1 ++ l2) = true -> char_list l2 = true.
Proof.
  destruct l1 as [|c l1]; [trivial|]. simpl. intros H.
  apply andb_true_iff in H. destruct H as [_ Hl].
  rewrite forallb_app in Hl. apply andb_true_iff in Hl. destruct Hl as [_ Hl].
  destruct l2 as [|x l2]; [reflexivity|]. simpl in *.
  apply andb_true_iff in Hl. destruct Hl as [Hx Hl].
  now rewrite (starts_one_char x Hx), Hl.
Qed.

(** A line that is made of characters none of which is a line boundary. *)
Lemma no_linebreak_in_join (lc : list string) :
  char_list lc = true ->
  existsb is_linebreak lc = false ->
  has_linebreak (join lc) = false.
Proof. intros Hl He. unfold has_linebreak. now rewrite (chars_join lc Hl). Qed.

Lemma carriage_return_is_linebreak (c : string) :
  String.eqb c carriage_return = true -> is_linebreak c = true.
Proof.
  intros H. unfold is_linebreak, one_of. apply existsb_exists.
  exists 13%N. split; [|exact H]. simpl. tauto.
Qed.

(** The lines [splitlines] gives have no line boundary in them. *)
Lemma splitlines_from_lines (n : nat) :
  forall l lc line,
    (List.length l <= n)%nat ->
    char_list (lc ++ l) = true ->
    existsb is_linebreak lc = false ->
    In line (splitlines_from (join lc) l) ->
    has_linebreak line = false.
Proof.
  induction n as [|n IH]; intros l lc line Hlen Hl Hlc Hin.
  - destruct l; [|simpl in Hlen; lia]. simpl in Hin.
    destruct (is_empty (join lc)); [contradiction|].
    destruct Hin as [<-|[]]. apply no_linebreak_in_join; trivial.
    now apply (char_list_prefix lc []).
  - assert (Hemit : has_linebreak (join lc) = false)
      by (apply no_linebreak_in_join; trivial;
          now apply (char_list_prefix lc l)).
    destruct l as [|c l].
    + simpl in Hin. destruct (is_empty (join lc)); [contradiction|].
      now destruct Hin as [<-|[]].
    + simpl in Hlen. cbn [splitlines_from] in Hin.
      assert (Hrest : char_list l = true).
      { apply (char_list_suffix (lc ++ [c])). now rewrite <- app_assoc. }
      destruct (String.eqb c carriage_return).
      * destruct l as [|c' l'].
        -- destruct Hin as [<-|Hin]; [exact Hemit|].
           apply (IH [] [] line); simpl; trivial; lia.
        -- destruct (String.eqb c' line_feed);
             (destruct Hin as [<-|Hin]; [exact Hemit|]).
           ++ apply (IH l' [] line); simpl in *; trivial; try lia.
              now apply (char_list_suffix [c']).
           ++ apply (IH (c' :: l') [] line); simpl in *; trivial; lia.
      * destruct (is_linebreak c) eqn:Elb.
        -- destruct Hin as [<-|Hin]; [exact Hemit|].
           apply (IH l [] line); simpl; trivial; lia.
        -- rewrite <- join_snoc in Hin.
           apply (IH l (lc ++ [c]) line); trivial; try lia.
           ++ now rewrite <- app_assoc.
           ++ rewrite existsb_app, Hlc. simpl. now rewrite Elb.
Qed.

(** X7: no file name in the list [getopenfilename] returns contains a line
    boundary. *)
Theorem getopenfilename_lines_are_whole
    (env : Env) (type startDir : option string) (allow_multiple : bool)
    (w w' : World) (lines : list string) :
  getopenfilename env type startDir allow_multiple w = (Ok (Some lines), w') ->
  forall line, In line lines -> has_linebreak line = false.
Proof.
  unfold getopenfilename. unfold bind at 1.
  destruct (start_dir_args env _ w) as [[dir|e|] w1]; try discriminate.
  unfold bind at 1.
  destruct (do_call env _ None w1) as [[[rc out]|e|] w2]; try discriminate.
  unfold ret, answer. simpl fst. simpl snd.
  destruct (rc =? 0); simpl; [|discriminate].
  intros H line Hin. inversion H. subst lines.
  apply (splitlines_from_lines (List.length (chars out)) (chars out) [] line);
    trivial.
  apply char_list_chars.
Qed.

Lemma getopenfilename_lines_are_whole_witness :
  has_linebreak "b.ogg" = false.
Proof.
  apply (getopenfilename_lines_are_whole
           (file_dialog_env 0 "a.wav
b.ogg
")
           (Some "audio/ogg") None true (at_main_menu [])
           (snd (getopenfilename
                   (file_dialog_env 0 "a.wav
b.ogg
")
                   (Some "audio/ogg") None true (at_main_menu [])))
           ["a.wav"; "b.ogg"]).
  - reflexivity.
  - simpl. tauto.
Defined.

Lemma rstrip_nl_linefeeds (n : nat) : rstrip_nl (linefeeds n) = "".
Proof. induction n as [|n IH]; simpl; [reflexivity|]. now rewrite IH. Qed.

Lemma rstrip_nl_restores (f : string) (n : nat) :
  ends_with_linefeed f = false -> rstrip_nl (f ++ linefeeds n) = f.
Proof.
  induction f as [|c f IH]; simpl; intros He.
  - apply rstrip_nl_linefeeds.
  - destruct f as [|c' f'].
    + simpl. rewrite rstrip_nl_linefeeds. simpl.
      unfold is_linefeed in He. now rewrite He.
    + rewrite IH by exact He. simpl. now rewrite andb_false_r.
Qed.

Lemma ends_with_linefeed_split (f : string) :
  ends_with_linefeed f = true ->
  exists g, f = (g ++ String (ascii_of_nat 10) "")%string.
Proof.
  induction f as [|x f IH]; simpl; [discriminate|].
  destruct f as [|y f'].
  - intros H. apply linefeed_char in H. subst x. now exists "".
  - intros H. destruct (IH H) as [g Hg]. exists (String x g).
    simpl. now rewrite <- Hg.
Qed.

(** A line feed at the end of a text is its last character. *)
Lemma chars_from_final_linefeed (g : string) :
  forall cur,
    chars_from cur (g ++ String (ascii_of_nat 10) "")
    = chars_from cur g ++ [line_feed].
Proof.
  induction g as [|c g IH]; intros cur; simpl.
  - now destruct (is_empty cur).
  - destruct (is_continuation c); [apply IH|].
    destruct (is_empty cur); now rewrite IH.
Qed.

Lemma no_linebreak_no_final_linefeed (f : string) :
  has_linebreak f = false -> ends_with_linefeed f = false.
Proof.
  intros H. destruct (ends_with_linefeed f) eqn:E; [|reflexivity].
  destruct (ends_with_linefeed_split f E) as [g ->].
  unfold has_linebreak, chars in H.
  rewrite chars_from_final_linefeed, existsb_app in H.
  apply orb_false_iff in H. destruct H as [_ H]. discriminate.
Qed.

Lemma splitlines_from_one_line (l : list string) :
  forall cur,
    existsb is_linebreak l = false ->
    splitlines_from cur l
    = if is_empty (cur ++ join l) then [] else [(cur ++ join l)%string].
Proof.
  induction l as [|c l IH]; intros cur H.
  - simpl. now rewrite append_nil_r.
  - simpl in H. apply orb_false_iff in H. destruct H as [Hc Hl].
    cbn [splitlines_from].
    destruct (String.eqb c carriage_return) eqn:Ecr.
    + apply carriage_return_is_linebreak in Ecr. congruence.
    + rewrite Hc, (IH _ Hl). simpl join.
      now rewrite Editor_facts.append_assoc.
Qed.

(** X8: when the file dialog exits with status 0 and prints one file name
    that has no line boundary in it, followed by line feeds, the result of
    [getopenfilename] is the list of that one name. *)
Theorem getopenfilename_single_selection
    (env : Env) (w : World) (ttl type f : string) (n : nat) :
  title w = Some ttl ->
  path_isdir env "." = true ->
  path_exists env "." = true ->
  f <> "" ->
  has_linebreak f = false ->
  spawn_result env (events w)
    (kdialog_argv ttl ["--getopenfilename"; "."; type]) None
  = Exited 0 (f ++ linefeeds n)%string ->
  getopenfilename env (Some type) None false w
  = (Ok (Some [f]),
     spawned w (kdialog_argv ttl ["--getopenfilename"; "."; type]) None).
Proof.
  intros Ht Hd He Hne Hf Hs.
  rewrite (Editor_facts.getopenfilename_eq env w ttl type Ht Hd He), Hs.
  simpl Z.eqb. cbv iota.
  rewrite (rstrip_nl_restores f n (no_linebreak_no_final_linefeed f Hf)).
  unfold splitlines. rewrite (splitlines_from_one_line (chars f) "" Hf).
  unfold chars. rewrite join_chars_from. simpl.
  destruct f; [congruence | reflexivity].
Qed.

Lemma getopenfilename_single_selection_witness :
  getopenfilename (picking_env "/home/user/t.json") (Some "application/json")
    None false (at_main_menu [])
  = (Ok (Some ["/home/user/t.json"]),
     spawned (at_main_menu [])
       (kdialog_argv "Sound theme maker"
          ["--getopenfilename"; "."; "application/json"]) None).
Proof.
  apply (getopenfilename_single_selection (picking_env "/home/user/t.json")
           (at_main_menu []) "Sound theme maker" "application/json"
           "/home/user/t.json" 1);
    try reflexivity.
  discriminate.
Defined.

(** X9: the list dialogs check the number of their items before anything
    else: [menu] refuses an odd number of items, [checklist] and [radiolist]
    a number that is not a multiple of three, each with a [KDialogError] and
    without spawning a command or touching the state. *)
Theorem list_dialogs_refuse_incomplete_items
    (env : Env) (text : string) (items : list string)
    (ok_label cancel_label : option string) (w : World) :
  (Nat.modulo (List.length items) 2 <> 0%nat ->
   menu env text items ok_label cancel_label w
   = (Raise (Exn KDialogError "Every item must have a tag and a name."), w))
  /\ (Nat.modulo (List.length items) 3 <> 0%nat ->
      checklist env text items ok_label cancel_label w = (Raise not_triples, w)
      /\ radiolist env text items ok_label cancel_label w
         = (Raise not_triples, w)).
Proof.
  split.
  - intros H. unfold menu. apply Nat.eqb_neq in H. now rewrite H.
  - intros H. unfold checklist, radiolist, triples.
    apply Nat.eqb_neq in H. now rewrite H.
Qed.

Lemma list_dialogs_refuse_incomplete_items_witness :
  checklist cancel_env "Pick" ["a"; "Item a"; "on"; "b"] None None
    (at_main_menu [])
  = (Raise not_triples, at_main_menu []).
Proof.
  apply (list_dialogs_refuse_incomplete_items cancel_env "Pick"
           ["a"; "Item a"; "on"; "b"] None None (at_main_menu [])).
  discriminate.
Defined.

(** X10: the three file dialogs refuse a start directory that is not a
    directory with a [NotADirectoryError], before any command is spawned. *)
Theorem file_dialogs_refuse_a_start_that_is_no_directory
    (env : Env) (type : option string) (d : string) (allow_multiple : bool)
    (w : World) :
  path_isdir env d = false ->
  getopenfilename env type (Some d) allow_multiple w
  = (Raise (Exn NotADirectoryError
              ("Cannot open " ++ d ++ ": Not a directory")%string), w)
  /\ getsavefilename env type (Some d) w
     = (Raise (Exn NotADirectoryError
                 ("Cannot open " ++ d ++ ": Not a directory")%string), w)
  /\ getexistingdirectory env (Some d) w
     = (Raise (Exn NotADirectoryError
                 ("Cannot open " ++ d ++ ": Not a directory")%string), w).
Proof.
  intros H.
  unfold getopenfilename, getsavefilename, getexistingdirectory,
    start_dir_args, bind.
  rewrite H. simpl. repeat split.
Qed.

Lemma file_dialogs_refuse_a_start_that_is_no_directory_witness :
  getsavefilename no_dir_env (Some "application/json") (Some "/nowhere")
    (at_main_menu [])
  = (Raise (Exn NotADirectoryError "Cannot open /nowhere: Not a directory"),
     at_main_menu []).
Proof.
  apply (file_dialogs_refuse_a_start_that_is_no_directory no_dir_env
           (Some "application/json") "/nowhere" false (at_main_menu [])).
  reflexivity.
Defined.

Lemma all_some_label_strings (flag : string) (label : option string)
    (rest : list string) :
  all_some (label_args flag label ++ map Some rest)
  = Some (label_strings flag label ++ rest).
Proof.
  destruct label; simpl; now rewrite ProgressBar_facts.all_some_map_Some.
Qed.

(** X11: [progressbar] probes for a [qdbus] executable only when the dialog
    was opened: on an exit status other than 0 it raises after the one
    [kdialog] command; and the session it returns is open, at progress 0,
    with the requested total and auto-close setting, on the reference the
    dialog printed, with one of the three candidates as its executable. *)
Theorem progressbar_outcome
    (env : Env) (label ttl out : string) (count returncode : Z)
    (auto_close : bool) (cancel_label : option string) (w : World) :
  title w = Some ttl ->
  spawn_result env (events w)
    (kdialog_argv ttl (progressbar_args label count cancel_label)) None
  = Exited returncode out ->
  (returncode <> 0 ->
   progressbar env label count auto_close cancel_label w
   = (Raise unexpected_nonzero,
      spawned w (kdialog_argv ttl (progressbar_args label count cancel_label))
        None))
  /\ (forall p w',
        progressbar env label count auto_close cancel_label w = (Ok p, w') ->
        returncode = 0
        /\ ProgressBar.ref p = rstrip_nl out
        /\ ProgressBar.itercount p = count
        /\ ProgressBar.progress p = 0
        /\ ProgressBar.closed p = false
        /\ ProgressBar.auto_close p = auto_close
        /\ exists q,
             ProgressBar.qdbus p = Some q /\ In q ProgressBar.qdbus_choices).
Proof.
  intros Ht Hs.
  assert (Hcall :
            do_call env
              (label_args "--cancel-label" cancel_label
               ++ [Some "--progressbar"; Some label; Some (str_of_Z count)])
              None w
            = (Ok (returncode, rstrip_nl out),
               spawned w
                 (kdialog_argv ttl (progressbar_args label count cancel_label))
                 None)).
  { rewrite (do_call_spawn env w ttl _
               (progressbar_args label count cancel_label) None Ht).
    - now rewrite Hs.
    - apply (all_some_label_strings "--cancel-label" cancel_label
               ["--progressbar"; label; str_of_Z count]). }
  unfold progressbar. unfold bind. rewrite Hcall. cbn [fst snd].
  split.
  - intros Hrc. apply Z.eqb_neq in Hrc. now rewrite Hrc.
  - intros p w'. destruct (returncode =? 0) eqn:Hrc; [|discriminate].
    apply Z.eqb_eq in Hrc. cbn [negb]. cbv iota.
    unfold ProgressBar.init.
    destruct (ProgressBar_more.probe_outcome env (rstrip_nl out)
                ProgressBar.qdbus_choices
                (events
                   (spawned w
                      (kdialog_argv ttl
                         (progressbar_args label count cancel_label)) None)))
      as [[earlier [q [later [o [Hch [_ [_ Hp]]]]]]] | [_ Hp]]; rewrite Hp;
      [|discriminate].
    intros H. inversion H. subst. repeat split; trivial.
    exists q. split; [reflexivity|]. rewrite Hch. apply in_or_app.
    right. now left.
Qed.

Lemma progressbar_outcome_witness :
  progressbar cancel_env "Copying" 5 false None (at_main_menu [])
  = (Raise unexpected_nonzero,
     spawned (at_main_menu [])
       ["kdialog"; "--title"; "Sound theme maker"; "--progressbar";
        "Copying"; "5"] None).
Proof.
  apply (progressbar_outcome cancel_env "Copying" "Sound theme maker" "" 5 1
           false None (at_main_menu [])); try reflexivity.
  discriminate.
Defined.

End KDialog_more.

(** ** More on the theme editor *)

Module Editor_more.
Import KDialog Editor Main Scenario Notions KDialog_facts Editor_facts.

(** *** Saving *)

Lemma getsavefilename_eq (env : Env) (w : World) (ttl type d : string) :
  title w = Some ttl ->
  path_isdir env d = true ->
  path_exists env d = true ->
  getsavefilename env (Some type) (Some d) w
  = match
      spawn_result env (events w)
        (kdialog_argv ttl ["--getsavefilename"; d; type]) None
    with
    | Exited returncode out =>
        (Ok (if returncode =? 0 then Some (rstrip_nl out) else None),
         spawned w (kdialog_argv ttl ["--getsavefilename"; d; type]) None)
    | NoSuchProgram =>
        (Raise (Exn FileNotFoundError ""),
         spawned w (kdialog_argv ttl ["--getsavefilename"; d; type]) None)
    end.
Proof.
  intros Ht Hd He. unfold getsavefilename, start_dir_args.
  rewrite Hd, He. simpl negb. cbv iota.
  unfold bind at 1, ret at 1. unfold bind at 1.
  rewrite (do_call_spawn env w ttl _ ["--getsavefilename"; d; type] None Ht)
    by reflexivity.
  destruct (spawn_result env (events w) _ None) as [rc out|]; [|reflexivity].
  unfold ret, answer. simpl. now destruct (rc =? 0).
Qed.

(** [save_theme] up to the choice of the file. *)
Lemma save_theme_start (env : Env) (force_dialog : bool) (w : World)
    (t : Theme) :
  the_theme w = Some t ->
  save_theme env force_dialog w
  = (filename <-
       match path t, force_dialog with
       | Some p, false => ret (Some p)
       | _, _ =>
           getsavefilename env (Some "application/json") (Some (home env))
       end ;;
     match filename with
     | None => ret CANCEL
     | Some filename => write_block env filename (document t)
     end) (with_title (Some "Save theme") w).
Proof.
  intros Hth. unfold save_theme.
  unfold bind at 1, KDialog.set_title at 1, modify at 1.
  now rewrite (bind_ok _ _ _ _ _
                 (get_theme_eq (with_title (Some "Save theme") w) t Hth)).
Qed.

(** X12: a theme that is bound to a file is saved to it without any dialog.
    When the file is written, it holds the document of the theme, and the
    theme has no unsaved changes.  When [open] fails, what it raises
    propagates and the theme and the files are as before.  When [json.dump]
    fails, what it raises propagates, the theme is as before and the file is
    left with whatever reached it.  When the file cannot be closed on the
    way out of the [with] block, what that raises propagates once the theme
    has already lost its unsaved changes. *)
Theorem save_theme_to_bound_path
    (env : Env) (w : World) (t : Theme) (p : string) :
  the_theme w = Some t ->
  path t = Some p ->
  save_theme env false w
  = if fs_ok env (events w) (Write_json p (document t))
    then
      (Ok OK,
       with_files ((p, Json_text (document t)) :: files w)
         (with_theme (Some (with_path (Some p) (with_modified false t)))
            (with_events (events w ++ [Write_json p (document t)])
               (with_title (Some "Save theme") w))))
    else
      match write_fails env (events w) (Write_json p (document t)) with
      | Open_fails e =>
          (Raise e,
           with_events (events w ++ [Write_json p (document t)])
             (with_title (Some "Save theme") w))
      | Dump_fails e on_disk =>
          (Raise e,
           with_files ((p, on_disk) :: files w)
             (with_events (events w ++ [Write_json p (document t)])
                (with_title (Some "Save theme") w)))
      | Close_fails e on_disk =>
          (Raise e,
           with_files ((p, on_disk) :: files w)
             (with_theme (Some (with_path (Some p) (with_modified false t)))
                (with_events (events w ++ [Write_json p (document t)])
                   (with_title (Some "Save theme") w))))
      end.
Proof.
  intros Hth Hp. rewrite (save_theme_start env false w t Hth), Hp.
  unfold bind at 1, ret at 1.
  now rewrite (write_block_eq env (with_title (Some "Save theme") w) t p
                 (document t) Hth).
Qed.

Lemma save_theme_to_bound_path_witness :
  save_theme full_disk_env false
    (editing (with_path (Some "/home/user/t.json") two_sounds))
  = (Raise (Exn OSError "No space left on device"),
     with_files [("/home/user/t.json", Unloadable (Exn JSONDecodeError ""))]
       (with_theme (Some saved_two_sounds)
          (with_events
             [Write_json "/home/user/t.json" (document two_sounds)]
             (with_title (Some "Save theme")
                (editing (with_path (Some "/home/user/t.json") two_sounds)))))).
Proof.
  apply (save_theme_to_bound_path full_disk_env
           (editing (with_path (Some "/home/user/t.json") two_sounds))
           (with_path (Some "/home/user/t.json") two_sounds)
           "/home/user/t.json"); reflexivity.
Defined.

(** X13: when [save_theme] returns [CANCEL], the destination dialog was
    shown and cancelled, and nothing else happened: the theme, with its
    unsaved changes, and the files are as before. *)
Theorem save_theme_cancelled
    (env : Env) (force_dialog : bool) (w w1 : World) (t : Theme) :
  the_theme w = Some t ->
  save_theme env force_dialog w = (Ok CANCEL, w1) ->
  w1 = spawned (with_title (Some "Save theme") w)
         (kdialog_argv "Save theme" (save_args env)) None.
Proof.
  intros Hth. rewrite (save_theme_start env force_dialog w t Hth).
  set (w0 := with_title (Some "Save theme") w).
  assert (Hwrite : forall filename w',
            the_theme w' = Some t ->
            write_block env filename (document t) w' <> (Ok CANCEL, w1)).
  { intros filename w' Hth'.
    rewrite (write_block_eq env w' t filename (document t) Hth').
    destruct (fs_ok env (events w') _); [discriminate|].
    destruct (write_fails env (events w') _); discriminate. }
  assert (Hask :
            (filename <-
               getsavefilename env (Some "application/json") (Some (home env)) ;;
             match filename with
             | None => ret CANCEL
             | Some filename => write_block env filename (document t)
             end) w0 = (Ok CANCEL, w1) ->
            w1 = spawned w0 (kdialog_argv "Save theme" (save_args env)) None).
  { destruct (path_isdir env (home env)) eqn:Hd.
    - destruct (path_exists env (home env)) eqn:He.
      + unfold bind at 1.
        rewrite (getsavefilename_eq env w0 "Save theme" "application/json"
                   (home env) eq_refl Hd He).
        fold (save_args env).
        destruct (spawn_result env (events w0) _ None) as [rc out|];
          [|discriminate].
        destruct (rc =? 0).
        * intros H. exfalso. revert H. now apply Hwrite.
        * unfold ret. intros H. now inversion H.
      + unfold getsavefilename, start_dir_args, bind. rewrite Hd, He.
        discriminate.
    - unfold getsavefilename, start_dir_args, bind. rewrite Hd. discriminate. }
  destruct (path t) as [p|]; [destruct force_dialog|]; try exact Hask.
  unfold bind at 1, ret at 1. intros H. exfalso. revert H.
  now apply Hwrite.
Qed.

Lemma save_theme_cancelled_witness :
  snd (save_theme cancel_env false (editing two_sounds))
  = spawned (with_title (Some "Save theme") (editing two_sounds))
      (kdialog_argv "Save theme" (save_args cancel_env)) None.
Proof.
  apply (save_theme_cancelled cancel_env false (editing two_sounds)
           (snd (save_theme cancel_env false (editing two_sounds)))
           two_sounds); reflexivity.
Defined.

(** *** Exporting *)

(** X14: a quiet [export_theme] of a theme with unsaved changes raises a
    [RuntimeError] before it asks for anything or touches the file
    system. *)
Theorem export_theme_quiet_refuses_unsaved
    (env : Env) (savedir : option string) (w : World) (t : Theme) :
  the_theme w = Some t ->
  modified t = true ->
  export_theme env savedir true w
  = (Raise (Exn RuntimeError "Theme not saved."), w).
Proof.
  intros Hth Hm. unfold export_theme. simpl negb. cbv iota.
  unfold bind at 1, ret at 1.
  rewrite (bind_ok _ _ _ _ _ (get_theme_eq w t Hth)), Hm.
  reflexivity.
Qed.

Lemma export_theme_quiet_refuses_unsaved_witness :
  export_theme cancel_env (Some "/home/user/out") true (editing two_sounds)
  = (Raise (Exn RuntimeError "Theme not saved."), editing two_sounds).
Proof.
  apply (export_theme_quiet_refuses_unsaved cancel_env (Some "/home/user/out")
           (editing two_sounds) two_sounds); reflexivity.
Defined.

Ltac step_ret :=
  match goal with
  | |- context [bind (ret ?a) ?k ?w] => change (bind (ret a) k w) with (k a w)
  end;
  cbv beta.

Ltac step_get :=
  match goal with
  | |- context [bind get ?k ?w] => change (bind get k w) with (k w w)
  end;
  cbv beta.

Lemma fs_call_ok (env : Env) (w : World) (e : event) :
  fs_ok env (events w) e = true ->
  fs_call env e w = (Ok tt, with_events (events w ++ [e]) w).
Proof. intros H. unfold fs_call. now rewrite H. Qed.

Lemma with_events_app (w : World) (l1 l2 : list event) :
  with_events (events (with_events (events w ++ l1) w) ++ l2)
    (with_events (events w ++ l1) w)
  = with_events (events w ++ l1 ++ l2) w.
Proof. apply with_events_twice. Qed.

(** The loop over the sounds copies the bound ones, in order, when the
    copies succeed. *)
Lemma copy_sounds_all (env : Env) (workdir : string)
    (d : list (string * pyval)) :
  forall w : World,
    paths_or_none d = true ->
    (forall l src k, fs_ok env l (Copy_sound src workdir k) = true) ->
    copy_sounds env workdir d w
    = (Ok tt, with_events (events w ++ copies workdir d) w).
Proof.
  induction d as [|[k v] d IH]; intros w Hd Hfs.
  - simpl. unfold ret. now rewrite with_events_id.
  - simpl in Hd. apply andb_true_iff in Hd. destruct Hd as [Hv Hd].
    cbn [copy_sounds]. destruct v; try discriminate.
    + unfold bind at 1, ret at 1. now rewrite IH.
    + unfold bind at 1, fs_call. rewrite Hfs.
      rewrite IH by assumption. cbn [copies].
      now rewrite (with_events_app w [Copy_sound s workdir k]).
Qed.

(** A quiet export of a saved theme, up to the copy of the staging
    directory: the directory and its [stereo] sub-directory have been made,
    the index written and the bound sounds copied. *)
Lemma export_theme_staged (env : Env) (w : World) (t : Theme) (d : string) :
  the_theme w = Some t ->
  modified t = false ->
  name t <> PNone ->
  comment t <> PNone ->
  paths_or_none (sounds t) = true ->
  (forall l e,
     match e with Copytree _ _ | Rmtree _ => True | _ => fs_ok env l e = true end) ->
  export_theme env (Some d) true w
  = (fs_call env (Copytree (staging env w) d) ;;
     fs_call env (Rmtree (staging env w)) ;;
     ret tt)
      (with_events (events w ++ staging_calls (staging env w) t) w).
Proof.
  intros Hth Hm Hn Hc Hs Hfs. unfold export_theme. cbn [negb]. cbv iota.
  step_ret.
  rewrite (bind_ok _ _ _ _ _ (get_theme_eq w t Hth)), Hm.
  step_ret. cbn [negb]. cbv iota.
  step_ret. cbv iota. step_get. cbv zeta.
  fold (staging env w). set (wd := staging env w).
  rewrite (bind_ok _ _ _ _ _ (fs_call_ok env w (Mkdir wd) (Hfs _ (Mkdir wd)))).
  set (w1 := with_events (events w ++ [Mkdir wd]) w).
  rewrite (bind_ok _ _ _ _ _
             (fs_call_ok env w1 _ (Hfs _ (Mkdir (path_div wd "stereo"))))).
  set (w2 := with_events (events w1 ++ [Mkdir (path_div wd "stereo")]) w1).
  rewrite (bind_ok _ _ _ _ _ (get_theme_eq w2 t Hth)).
  assert (Hcheck :
            match name t, comment t with
            | PNone, _ | _, PNone =>
                @raise World unit (Exn TypeError "option values must be strings")
            | _, _ => ret tt
            end = ret tt).
  { destruct (name t), (comment t); congruence. }
  rewrite Hcheck. step_ret.
  rewrite (bind_ok _ _ _ _ _
             (fs_call_ok env w2 _
                (Hfs _ (Write_index (path_div wd "index.theme")
                          (name t) (comment t))))).
  set (w3 := with_events
               (events w2
                ++ [Write_index (path_div wd "index.theme") (name t) (comment t)])
               w2).
  rewrite (bind_ok _ _ _ _ _ (get_theme_eq w3 t Hth)).
  rewrite (bind_ok _ _ _ _ _
             (copy_sounds_all env wd (sounds t) w3 Hs
                (fun l src k => Hfs l (Copy_sound src wd k)))).
  replace (with_events (events w3 ++ copies wd (sounds t)) w3)
    with (with_events (events w ++ staging_calls wd t) w).
  - cbn [negb]. cbv iota. reflexivity.
  - unfold staging_calls, w3, w2, w1, with_events. simpl.
    now rewrite <- !app_assoc.
Qed.

(** X15: a quiet export of a saved theme whose sounds are file names, when
    every call to the file system succeeds: the staging directory and its
    [stereo] sub-directory are made, the index is written, each bound sound
    is copied once, in the order of the theme, the staging directory is
    copied to the destination and then removed; nothing else happens. *)
Theorem export_theme_stages_copies_and_cleans_up
    (env : Env) (w : World) (t : Theme) (d : string) :
  the_theme w = Some t ->
  modified t = false ->
  name t <> PNone ->
  comment t <> PNone ->
  paths_or_none (sounds t) = true ->
  (forall l e, fs_ok env l e = true) ->
  export_theme env (Some d) true w
  = (Ok tt,
     with_events
       (events w ++ staging_calls (staging env w) t
        ++ [Copytree (staging env w) d; Rmtree (staging env w)])
       w).
Proof.
  intros Hth Hm Hn Hc Hs Hfs.
  rewrite (export_theme_staged env w t d Hth Hm Hn Hc Hs)
    by (intros l e; destruct e; trivial).
  unfold bind, fs_call, ret. rewrite !Hfs.
  unfold with_events. simpl. now rewrite <- !app_assoc.
Qed.

Lemma export_theme_stages_copies_and_cleans_up_witness :
  events (snd (export_theme cancel_env (Some "/home/user/out") true
                 (editing saved_two_sounds)))
  = [Mkdir "/tmp/aB3dE"; Mkdir "/tmp/aB3dE/stereo";
     Write_index "/tmp/aB3dE/index.theme" (PStr "Test")
       (PStr "This is a sound theme!");
     Copy_sound "/tmp/a.wav" "/tmp/aB3dE" "bell";
     Copy_sound "/tmp/b.ogg" "/tmp/aB3dE" "message";
     Copytree "/tmp/aB3dE" "/home/user/out"; Rmtree "/tmp/aB3dE"].
Proof.
  rewrite (export_theme_stages_copies_and_cleans_up cancel_env
             (editing saved_two_sounds) saved_two_sounds "/home/user/out");
    try reflexivity; discriminate.
Defined.

(** X16: when the copy of the staging directory to the destination fails,
    [export_theme] raises the [OSError] right away: the staging directory
    is not removed. *)
Theorem export_theme_leaves_staging_when_the_copy_fails
    (env : Env) (w : World) (t : Theme) (d : string) :
  the_theme w = Some t ->
  modified t = false ->
  name t <> PNone ->
  comment t <> PNone ->
  paths_or_none (sounds t) = true ->
  (forall l e,
     match e with Copytree _ _ | Rmtree _ => True | _ => fs_ok env l e = true end) ->
  fs_ok env (events w ++ staging_calls (staging env w) t)
    (Copytree (staging env w) d) = false ->
  export_theme env (Some d) true w
  = (Raise (Exn OSError ""),
     with_events
       (events w ++ staging_calls (staging env w) t
        ++ [Copytree (staging env w) d])
       w).
Proof.
  intros Hth Hm Hn Hc Hs Hfs Hcopy.
  rewrite (export_theme_staged env w t d Hth Hm Hn Hc Hs Hfs).
  unfold bind, fs_call. simpl events. rewrite Hcopy.
  unfold with_events. simpl. now rewrite <- !app_assoc.
Qed.

Lemma export_theme_leaves_staging_when_the_copy_fails_witness :
  export_theme copytree_fails_env (Some "/home/user/out") true
    (editing saved_two_sounds)
  = (Raise (Exn OSError ""),
     with_events
       [Mkdir "/tmp/aB3dE"; Mkdir "/tmp/aB3dE/stereo";
        Write_index "/tmp/aB3dE/index.theme" (PStr "Test")
          (PStr "This is a sound theme!");
        Copy_sound "/tmp/a.wav" "/tmp/aB3dE" "bell";
        Copy_sound "/tmp/b.ogg" "/tmp/aB3dE" "message";
        Copytree "/tmp/aB3dE" "/home/user/out"]
       (editing saved_two_sounds)).
Proof.
  apply (export_theme_leaves_staging_when_the_copy_fails copytree_fails_env
           (editing saved_two_sounds) saved_two_sounds "/home/user/out");
    try reflexivity; try discriminate.
  intros l e. destruct e; reflexivity || exact I.
Defined.

(** *** Leaving the edit loop *)

(** One round of [edit_theme] on an answer that is none of its choices. *)
Lemma edit_theme_leaving (env : Env) (fuel : nat) (w w2 : World) (t : Theme)
    (choice : option string) :
  the_theme w = Some t ->
  menu env "What would you like to do?" edit_menu_items None None
    (with_title (Some (edit_title (file_info_of env t))) w)
  = (Ok choice, w2) ->
  leaves choice = true ->
  the_theme w2 = Some t
  /\ title w2 = Some (edit_title (file_info_of env t))
  /\ edit_theme env (S fuel) w
     = (editing <-
          try_except
            (if modified t then
               ans <- yesnocancel env
                        ("Save changes to " ++ file_info_of env t ++ "?")%string
                        (Dtype_int 1) None None None ;;
               if ans =? YES then _ <- save_theme env false ;; ret false
               else if ans =? NO then ret false
               else ret true
             else ret false)
            is_not_implemented
            (fun _ =>
               _ <- error env "This functionality is not implemented." None
                      No_details ;;
               ret true) ;;
        if editing then edit_theme env fuel else ret tt) w2.
Proof.
  intros Hth Hmenu Hleave.
  assert (Hw2 : the_theme w2 = Some t
                /\ title w2 = Some (edit_title (file_info_of env t))).
  { destruct (only_logs_menu env "What would you like to do?" edit_menu_items
                None None
                (with_title (Some (edit_title (file_info_of env t))) w))
      as [l Hl].
    rewrite Hmenu in Hl. simpl in Hl. subst w2. now split. }
  destruct Hw2 as [Hth2 Ht2]. repeat split; trivial.
  cbn [edit_theme].
  rewrite (bind_ok _ _ _ _ _ (get_theme_eq w t Hth)).
  change (KDialog.set_title
            ("Sound theme maker (" ++ file_info_of env t ++ ")")%string ;; ?k)
    with (KDialog.set_title (edit_title (file_info_of env t)) ;; k).
  unfold bind at 1, KDialog.set_title at 1, modify at 1.
  rewrite (bind_ok _ _ _ _ _ Hmenu).
  rewrite (edit_choice_leaves env fuel choice _ Hleave).
  apply bind_at, try_except_at.
  now rewrite (bind_ok _ _ _ _ _ (get_theme_eq w2 t Hth2)).
Qed.

(** X17: when the theme has no unsaved changes, an answer to the menu of
    [edit_theme] that is none of its choices ends the loop at once, without
    any further dialog. *)
Theorem edit_theme_leaves_a_saved_theme_at_once
    (env : Env) (fuel : nat) (w w2 : World) (t : Theme)
    (choice : option string) :
  the_theme w = Some t ->
  modified t = false ->
  menu env "What would you like to do?" edit_menu_items None None
    (with_title (Some (edit_title (file_info_of env t))) w)
  = (Ok choice, w2) ->
  leaves choice = true ->
  edit_theme env (S fuel) w = (Ok tt, w2).
Proof.
  intros Hth Hm Hmenu Hleave.
  destruct (edit_theme_leaving env fuel w w2 t choice Hth Hmenu Hleave)
    as [_ [_ ->]].
  now rewrite Hm.
Qed.

Lemma edit_theme_leaves_a_saved_theme_at_once_witness :
  edit_theme cancel_env 1 (editing saved_two_sounds)
  = (Ok tt,
     spawned
       (with_title (Some "Sound theme maker (/home/user/t.json)")
          (editing saved_two_sounds))
       ("kdialog" :: "--title" :: "Sound theme maker (/home/user/t.json)"
        :: "--menu" :: "What would you like to do?" :: edit_menu_items)
       None).
Proof.
  apply (edit_theme_leaves_a_saved_theme_at_once cancel_env 0
           (editing saved_two_sounds) _ saved_two_sounds None);
    reflexivity.
Defined.

(** X18: when the theme has unsaved changes and the menu of [edit_theme] is
    left, the answer to the question decides: on exit status 1 (no) the loop
    ends with the theme unsaved; on exit status 0 (yes) [save_theme] runs
    and the loop ends whatever it returns, also when the destination dialog
    is cancelled; on any other status the loop goes on. *)
Theorem edit_theme_leaving_with_unsaved_changes
    (env : Env) (fuel : nat) (w w2 : World) (t : Theme)
    (choice : option string) (returncode : Z) (out : string) :
  the_theme w = Some t ->
  modified t = true ->
  menu env "What would you like to do?" edit_menu_items None None
    (with_title (Some (edit_title (file_info_of env t))) w)
  = (Ok choice, w2) ->
  leaves choice = true ->
  spawn_result env (events w2)
    (kdialog_argv (edit_title (file_info_of env t))
       (save_changes_args (file_info_of env t))) None
  = Exited returncode out ->
  (returncode = 1 ->
   edit_theme env (S fuel) w
   = (Ok tt,
      spawned w2
        (kdialog_argv (edit_title (file_info_of env t))
           (save_changes_args (file_info_of env t))) None))
  /\ (returncode = 0 ->
      forall status w3,
        save_theme env false
          (spawned w2
             (kdialog_argv (edit_title (file_info_of env t))
                (save_changes_args (file_info_of env t))) None)
        = (Ok status, w3) ->
        edit_theme env (S fuel) w = (Ok tt, w3))
  /\ (returncode <> 0 -> returncode <> 1 ->
      edit_theme env (S fuel) w
      = edit_theme env fuel
          (spawned w2
             (kdialog_argv (edit_title (file_info_of env t))
                (save_changes_args (file_info_of env t))) None)).
Proof.
  intros Hth Hm Hmenu Hleave Hs.
  destruct (edit_theme_leaving env fuel w w2 t choice Hth Hmenu Hleave)
    as [Hth2 [Ht2 ->]].
  rewrite Hm, yesnocancel_warning.
  set (argv := kdialog_argv (edit_title (file_info_of env t))
                 (save_changes_args (file_info_of env t))) in *.
  assert (Hcall :
            do_call env
              [Some "--warningyesnocancel";
               Some ("Save changes to " ++ file_info_of env t ++ "?")%string]
              None w2
            = (Ok (returncode, rstrip_nl out), spawned w2 argv None)).
  { rewrite (do_call_spawn env w2 _ _ (save_changes_args (file_info_of env t))
               None Ht2) by reflexivity.
    fold argv. now rewrite Hs. }
  repeat split.
  - intros ->. unfold bind at 1, try_except.
    unfold bind at 1. unfold bind at 1. now rewrite Hcall.
  - intros -> status w3 Hsave. unfold bind at 1, try_except.
    unfold bind at 1. unfold bind at 1. rewrite Hcall. cbn [fst Z.eqb].
    cbv iota. unfold ret at 1. cbn [Z.eqb YES]. cbv iota.
    cbn [Pos.eqb]. cbv iota.
    unfold bind at 1. now rewrite Hsave.
  - intros H0 H1. apply Z.eqb_neq in H0, H1.
    unfold bind at 1, try_except.
    unfold bind at 1. unfold bind at 1. rewrite Hcall. cbn [fst].
    now rewrite H0, H1.
Qed.

Lemma edit_theme_leaving_with_unsaved_changes_witness :
  edit_theme cancel_env 1 (editing two_sounds)
  = (Ok tt,
     spawned
       (spawned
          (with_title (Some "Sound theme maker (Test)") (editing two_sounds))
          ("kdialog" :: "--title" :: "Sound theme maker (Test)"
           :: "--menu" :: "What would you like to do?" :: edit_menu_items)
          None)
       ["kdialog"; "--title"; "Sound theme maker (Test)";
        "--warningyesnocancel"; "Save changes to Test?"] None).
Proof.
  apply (edit_theme_leaving_with_unsaved_changes cancel_env 0
           (editing two_sounds) _ two_sounds None 1 "");
    reflexivity.
Defined.

(** *** Opening without a file *)

(** X19: when the file dialog of [json_theme] is cancelled the function
    returns, and when it exits with status 0 but prints no file name the
    function raises an [IndexError]; either way the current theme and the
    files are as before. *)
Theorem json_theme_without_a_file
    (env : Env) (fuel : nat) (w : World) (returncode : Z) (out : string) :
  path_isdir env "." = true ->
  path_exists env "." = true ->
  spawn_result env (events w) (kdialog_argv "Open theme JSON" open_args) None
  = Exited returncode out ->
  (returncode <> 0 ->
   json_theme env fuel w
   = (Ok tt,
      spawned (with_title (Some "Open theme JSON") w)
        (kdialog_argv "Open theme JSON" open_args) None))
  /\ (returncode = 0 ->
      rstrip_nl out = "" ->
      json_theme env fuel w
      = (Raise (Exn IndexError ""),
         spawned (with_title (Some "Open theme JSON") w)
           (kdialog_argv "Open theme JSON" open_args) None)).
Proof.
  intros Hd He Hs.
  assert (Hopen :
            getopenfilename env (Some "application/json") None false
              (with_title (Some "Open theme JSON") w)
            = (Ok (if returncode =? 0 then Some (splitlines (rstrip_nl out))
                   else None),
               spawned (with_title (Some "Open theme JSON") w)
                 (kdialog_argv "Open theme JSON" open_args) None)).
  { rewrite (getopenfilename_eq env (with_title (Some "Open theme JSON") w)
               "Open theme JSON" "application/json" eq_refl Hd He).
    unfold open_args in Hs. simpl events. now rewrite Hs. }
  assert (Hrun : forall k : option (list string) -> M World unit,
            (KDialog.set_title "Open theme JSON" ;;
             filename <- getopenfilename env (Some "application/json") None false ;;
             k filename) w
            = k (if returncode =? 0 then Some (splitlines (rstrip_nl out))
                 else None)
                (spawned (with_title (Some "Open theme JSON") w)
                   (kdialog_argv "Open theme JSON" open_args) None)).
  { intros k. unfold bind at 1, KDialog.set_title at 1, modify at 1.
    now rewrite (bind_ok _ _ _ _ _ Hopen). }
  split.
  - intros Hrc. apply Z.eqb_neq in Hrc. unfold json_theme.
    rewrite Hrun, Hrc. reflexivity.
  - intros -> Hempty. unfold json_theme. rewrite Hrun, Hempty. reflexivity.
Qed.

Lemma json_theme_without_a_file_witness :
  json_theme (file_dialog_env 0 "") 1 (editing two_sounds)
  = (Raise (Exn IndexError ""),
     spawned (with_title (Some "Open theme JSON") (editing two_sounds))
       (kdialog_argv "Open theme JSON" open_args) None).
Proof.
  apply (json_theme_without_a_file (file_dialog_env 0 "") 1
           (editing two_sounds) 0 ""); reflexivity.
Defined.

(** *** The two prompts *)




(** *** Choosing a sound *)

(** X21: when the choice in [edit_sound] is an imported sound or the unset
    entry, the slot of the sound takes the chosen file name, or [None] for
    the unset entry, and the theme has unsaved changes; when the choice is
    cancelled the theme is left as it is.  No file dialog is shown and the
    list of imported sounds does not change. *)
Theorem edit_sound_applies_the_choice
    (env : Env) (sound : string) (w w1 : World) (t : Theme)
    (the_sound : option string) :
  the_theme w = Some t ->
  choose_sound env sound w = (Ok the_sound, w1) ->
  the_sound <> Some IMPORT_SOUND ->
  edit_sound env sound w
  = (Ok tt,
     match the_sound with
     | Some x =>
         with_theme
           (Some (with_modified true
                    (with_sounds
                       (dict_set sound
                          (if String.eqb x UNSET_SOUND then PNone else PStr x)
                          (sounds t)) t)))
           w1
     | None => w1
     end).
Proof.
  intros Hth Hch Hni.
  assert (Hth1 : the_theme w1 = Some t).
  { destruct (only_logs_choose_sound env sound w) as [rest Hw].
    rewrite Hch in Hw. simpl in Hw. now subst w1. }
  unfold edit_sound. rewrite (bind_ok _ _ _ _ _ Hch).
  destruct the_sound as [x|]; [|reflexivity].
  destruct (String.eqb x IMPORT_SOUND) eqn:E.
  { apply String.eqb_eq in E. congruence. }
  unfold bind at 1, ret at 1.
  destruct (String.eqb x UNSET_SOUND); cbn [negb]; cbv iota;
    unfold bind at 1;
    rewrite (update_theme_eq w1 t) by exact Hth1;
    now rewrite (update_theme_eq _ _) by reflexivity.
Qed.

Lemma edit_sound_applies_the_choice_witness :
  edit_sound (Caller.quiet_env UNSET_SOUND) "bell"
    (editing (with_imported [PStr "/tmp/a.wav"] Theme_init))
  = (Ok tt,
     with_theme
       (Some (with_modified true
                (with_sounds
                   (dict_set "bell" PNone (sounds Theme_init))
                   (with_imported [PStr "/tmp/a.wav"] Theme_init))))
       (snd (choose_sound (Caller.quiet_env UNSET_SOUND) "bell"
               (editing (with_imported [PStr "/tmp/a.wav"] Theme_init))))).
Proof.
  apply (edit_sound_applies_the_choice (Caller.quiet_env UNSET_SOUND) "bell"
           (editing (with_imported [PStr "/tmp/a.wav"] Theme_init))
           (snd (choose_sound (Caller.quiet_env UNSET_SOUND) "bell"
                   (editing (with_imported [PStr "/tmp/a.wav"] Theme_init))))
           (with_imported [PStr "/tmp/a.wav"] Theme_init)
           (Some UNSET_SOUND)); try reflexivity.
  discriminate.
Defined.

(** X22: when importing is chosen and the file dialog gives a file, the
    file is appended to the imported sounds and the working directory is
    changed to its directory; then the slot of the sound takes the file and
    the theme has unsaved changes.  When the change of directory fails, the
    [OSError] leaves the file among the imported sounds with the slot and the
    [modified] flag untouched. *)
Theorem edit_sound_imports_a_file
    (env : Env) (sound f : string) (more : list string) (w w1 w2 : World)
    (t : Theme) :
  the_theme w = Some t ->
  choose_sound env sound w = (Ok (Some IMPORT_SOUND), w1) ->
  getopenfilename env
    (Some "audio/flac audio/mpeg audio/vnd.wave audio/ogg audio/aac") None false
    w1
  = (Ok (Some (f :: more)), w2) ->
  edit_sound env sound w
  = if fs_ok env (events w2) (Chdir_parent_of f)
    then
      (Ok tt,
       with_theme
         (Some (with_modified true
                  (with_sounds
                     (dict_set sound
                        (if String.eqb f UNSET_SOUND then PNone else PStr f)
                        (sounds t))
                     (with_imported (imported_sounds t ++ [PStr f]) t))))
         (with_events (events w2 ++ [Chdir_parent_of f]) w2))
    else
      (Raise (Exn OSError ""),
       with_theme (Some (with_imported (imported_sounds t ++ [PStr f]) t))
         (with_events (events w2 ++ [Chdir_parent_of f]) w2)).
Proof.
  intros Hth Hch Hpick.
  assert (Hth2 : the_theme w2 = Some t).
  { destruct (only_logs_choose_sound env sound w) as [r1 Hw1].
    rewrite Hch in Hw1. simpl in Hw1.
    destruct (only_logs_getopenfilename env
                (Some "audio/flac audio/mpeg audio/vnd.wave audio/ogg audio/aac")
                None false w1) as [r2 Hw2].
    rewrite Hpick in Hw2. simpl in Hw2. subst w2 w1. exact Hth. }
  unfold edit_sound. rewrite (bind_ok _ _ _ _ _ Hch).
  replace (String.eqb IMPORT_SOUND IMPORT_SOUND) with true by reflexivity.
  unfold import_sound.
  unfold bind at 1. unfold bind at 1. rewrite Hpick.
  unfold first_item. unfold bind at 1. step_ret. unfold ret at 1.
  unfold bind at 1.
  rewrite (update_theme_eq w2 t) by exact Hth2.
  unfold bind at 1, fs_call.
  change (events (with_theme _ w2)) with (events w2).
  destruct (fs_ok env (events w2) (Chdir_parent_of f)); [|reflexivity].
  unfold ret at 1.
  destruct (String.eqb f UNSET_SOUND); cbn [negb]; cbv iota;
    unfold bind at 1;
    rewrite (update_theme_eq _ _) by reflexivity;
    now rewrite (update_theme_eq _ _) by reflexivity.
Qed.

Lemma edit_sound_imports_a_file_witness :
  the_theme (snd (edit_sound (picking_env "/tmp/a.wav") "bell"
                    (editing Theme_init)))
  = Some (with_modified true
            (with_sounds (dict_set "bell" (PStr "/tmp/a.wav") (sounds Theme_init))
               (with_imported [PStr "/tmp/a.wav"] Theme_init))).
Proof.
  rewrite (edit_sound_imports_a_file (picking_env "/tmp/a.wav") "bell"
             "/tmp/a.wav" [] (editing Theme_init) (editing Theme_init)
             (snd (getopenfilename (picking_env "/tmp/a.wav")
                     (Some "audio/flac audio/mpeg audio/vnd.wave audio/ogg audio/aac")
                     None false (editing Theme_init)))
             Theme_init); reflexivity.
Defined.

(** *** The main menu *)

(** X23: at the main menu, the choice to import an existing theme raises
    [NotImplementedError], which [main] answers with an error dialog before
    it shows the menu again, the current theme and the files being as before;
    an answer that is none of the three choices exits the program. *)
Theorem main_menu_import_and_exit
    (env : Env) (fuel : nat) (w w2 : World) (choice : option string) :
  menu env "What would you like to do?" main_menu_items None None
    (with_title (Some "Sound theme maker") w)
  = (Ok choice, w2) ->
  (choice = Some "1" ->
   main_menu env fuel w = (Raise (Exn NotImplementedError ""), w2)
   /\ the_theme w2 = the_theme w
   /\ files w2 = files w
   /\ forall r w3,
        error env "This functionality is not implemented." None No_details w2
        = (Ok r, w3) ->
        main env (S fuel) w = main env fuel w3)
  /\ (quits choice = true ->
      main_menu env fuel w = (Ok true, w2)
      /\ main env (S fuel) w = (Ok tt, w2)).
Proof.
  intros Hmenu.
  assert (Hrun : main_menu env fuel w
                 = match choice with
                   | Some "0" => new_theme env fuel ;; ret false
                   | Some "1" => existing_theme ;; ret false
                   | Some "2" => json_theme env fuel ;; ret false
                   | _ => ret true
                   end w2).
  { unfold main_menu. unfold bind at 1, KDialog.set_title at 1, modify at 1.
    now rewrite (bind_ok _ _ _ _ _ Hmenu). }
  assert (Hw2 : the_theme w2 = the_theme w /\ files w2 = files w).
  { destruct (only_logs_menu env "What would you like to do?" main_menu_items
                None None (with_title (Some "Sound theme maker") w)) as [l Hl].
    rewrite Hmenu in Hl. simpl in Hl. subst w2. now split. }
  destruct Hw2 as [Hth Hf].
  split.
  - intros ->.
    assert (Hm : main_menu env fuel w = (Raise (Exn NotImplementedError ""), w2))
      by (rewrite Hrun; reflexivity).
    repeat split; trivial.
    intros r w3 Herr. cbn [main]. unfold bind at 1, try_except.
    rewrite Hm. cbv iota beta. unfold main_handler.
    replace (is_not_implemented (Exn NotImplementedError "")) with true
      by reflexivity.
    unfold bind at 1. now rewrite Herr.
  - intros Hq.
    assert (Hm : main_menu env fuel w = (Ok true, w2)).
    { rewrite Hrun.
      destruct choice as [[|c [|c' s]]|]; try reflexivity;
        destruct c as [[] [] [] [] [] [] [] []]; try reflexivity;
        discriminate. }
    split; [exact Hm|].
    cbn [main]. unfold bind at 1, try_except. now rewrite Hm.
Qed.

Lemma main_menu_import_and_exit_witness :
  fst (main_menu (main_choice_env "1") 1 (at_main_menu []))
  = Raise (Exn NotImplementedError "")
  /\ events (snd (main (main_choice_env "1") 1 (at_main_menu [])))
     = [Spawn ("kdialog" :: "--title" :: "Sound theme maker" :: "--menu"
               :: "What would you like to do?" :: main_menu_items) None;
        Spawn ["kdialog"; "--title"; "Sound theme maker"; "--error";
               "This functionality is not implemented."] None].
Proof.
  destruct (main_menu_import_and_exit (main_choice_env "1") 0
              (at_main_menu [])
              (snd (menu (main_choice_env "1") "What would you like to do?"
                      main_menu_items None None
                      (with_title (Some "Sound theme maker") (at_main_menu []))))
              (Some "1") eq_refl) as [H _].
  destruct (H eq_refl) as [_ [_ [_ Hloop]]].
  split; [reflexivity|].
  rewrite (Hloop (Some OK) _ eq_refl). reflexivity.
Defined.

(** *** Documents that are refused *)

(** [json_theme] when the body of its [try] statement raises: the exception
    is shown, and the edit loop is not entered. *)
Lemma json_theme_failed (env : Env) (fuel : nat) (w w1 : World)
    (filename : string) (more : list string) (e : exn) (t' : Theme) :
  getopenfilename env (Some "application/json") None false
    (with_title (Some "Open theme JSON") w)
  = (Ok (Some (filename :: more)), w1) ->
  parse_theme env filename
    (with_theme (Some (with_path (Some filename) Theme_init)) w1)
  = (Raise e, with_theme (Some t') w1) ->
  exists o : outcome unit,
    json_theme env fuel w
    = (o, spawned (with_theme (Some t') w1)
            (kdialog_argv "Open theme JSON" (open_failed_args env filename e))
            None)
    /\ o <> OutOfFuel.
Proof.
  intros Hopen Hparse.
  assert (Ht1 : title w1 = Some "Open theme JSON").
  { destruct (only_logs_getopenfilename env (Some "application/json") None false
                (with_title (Some "Open theme JSON") w)) as [l Hl].
    rewrite Hopen in Hl. simpl in Hl. now subst w1. }
  destruct (show_exc_error env (with_theme (Some t') w1) "Open theme JSON"
              ("An error occurred parsing " ++ filename ++ ":")%string e Ht1)
    as [o [Hshow Ho]].
  exists (match o with Ok _ => Ok tt | Raise x => Raise x | OutOfFuel => OutOfFuel end).
  split.
  - rewrite (json_theme_opened env fuel w w1 filename more Hopen).
    unfold bind at 1, try_except.
    rewrite (bind_raise _ _ _ _ _ Hparse).
    unfold bind at 1. rewrite Hshow. unfold open_failed_args.
    destruct o as [u|x|]; reflexivity.
  - destruct o; congruence.
Qed.




(** X25: a file that does not exist, that [open] or [json.load] fails on,
    or that holds a document other than an object with a name, a comment
    and an object of sounds, is refused: with a [FileNotFoundError], with
    what [open] or [json.load] raised, or with the [TypeError] for a
    document that is not a theme.  [json_theme] shows that exception in an
    error dialog and does not enter the edit loop; the theme it leaves is
    bound to the file. *)
Theorem json_theme_refuses_other_shapes
    (env : Env) (fuel : nat) (w w1 : World) (filename : string)
    (more : list string) :
  getopenfilename env (Some "application/json") None false
    (with_title (Some "Open theme JSON") w)
  = (Ok (Some (filename :: more)), w1) ->
  shaped (dict_get filename (files w)) = false ->
  exists (t' : Theme) (o : outcome unit),
    json_theme env fuel w
    = (o, spawned (with_theme (Some t') w1)
            (kdialog_argv "Open theme JSON"
               (open_failed_args env filename
                  (refusal (dict_get filename (files w)))))
            None)
    /\ o <> OutOfFuel
    /\ path t' = Some filename.
Proof.
  intros Hopen Hshape.
  assert (Hf1 : files w1 = files w).
  { destruct (only_logs_getopenfilename env (Some "application/json") None false
                (with_title (Some "Open theme JSON") w)) as [l Hl].
    rewrite Hopen in Hl. simpl in Hl. now subst w1. }
  set (t0 := with_path (Some filename) Theme_init).
  set (w1' := with_theme (Some t0) w1).
  assert (Hparse : exists t',
            parse_theme env filename w1'
            = (Raise (refusal (dict_get filename (files w))),
               with_theme (Some t') w1)
            /\ path t' = Some filename).
  { unfold parse_theme, load_json.
    unfold bind at 1. unfold bind at 1, get at 1.
    replace (dict_get filename (files w1')) with (dict_get filename (files w))
      by (simpl; now rewrite Hf1).
    unfold shaped in Hshape.
    destruct (dict_get filename (files w)) as [[data|e]|].
    - unfold ret at 1. cbn [refusal].
      assert (Hnot : exists t',
                @raise World unit (Exn TypeError NOT_A_THEME) w1'
                = (Raise (Exn TypeError NOT_A_THEME), with_theme (Some t') w1)
                /\ path t' = Some filename)
        by (exists t0; now split).
      destruct data as [| | | | |l|d]; try exact Hnot.
      destruct (dict_get "name" d) as [n|].
      + unfold bind at 1. rewrite (update_theme_eq w1' t0) by reflexivity.
        destruct (dict_get "comment" d) as [c|].
        * unfold bind at 1.
          rewrite (update_theme_eq _ (with_name n t0)) by reflexivity.
          destruct (dict_get "sounds" d) as [[| | | | |l|sn]|];
            try discriminate;
            (exists (with_comment c (with_name n t0)); now split).
        * unfold bind at 1, raise at 1.
          exists (with_name n t0). now split.
      + unfold bind at 1, raise at 1. exists t0. now split.
    - exists t0. now split.
    - exists t0. now split. }
  destruct Hparse as [t' [Hparse Hpath]].
  destruct (json_theme_failed env fuel w w1 filename more _ t' Hopen Hparse)
    as [o [Hrun Ho]].
  now exists t', o.
Qed.

Lemma json_theme_refuses_other_shapes_witness :
  events (snd (json_theme (picking_env "/t.json") 1
                 (at_main_menu
                    [("/t.json",
                      Unloadable
                        (Exn UnicodeDecodeError
                           "'utf-8' codec can't decode byte 0xff"))])))
  = [Spawn ["kdialog"; "--title"; "Open theme JSON"; "--getopenfilename"; ".";
            "application/json"] None;
     Spawn ["kdialog"; "--title"; "Open theme JSON"; "--detailederror";
            "An error occurred parsing /t.json:";
            "'utf-8' codec can't decode byte 0xff"] None].
Proof.
  destruct (json_theme_refuses_other_shapes (picking_env "/t.json") 1
              (at_main_menu
                 [("/t.json",
                   Unloadable
                     (Exn UnicodeDecodeError
                        "'utf-8' codec can't decode byte 0xff"))])
              (snd (getopenfilename (picking_env "/t.json")
                      (Some "application/json") None false
                      (with_title (Some "Open theme JSON")
                         (at_main_menu
                            [("/t.json",
                              Unloadable
                                (Exn UnicodeDecodeError
                                   "'utf-8' codec can't decode byte 0xff"))]))))
              "/t.json" [])
    as [t' [o _]]; reflexivity.
Defined.

(** *** The menu of the sounds and the name of the install directory *)

Lemma sound_menu_items_length (env : Env) (d : list (string * pyval)) :
  List.length (sound_menu_items env d) = (2 * List.length d)%nat.
Proof.
  unfold sound_menu_items. induction d as [|kv d IH]; simpl; [reflexivity|].
  simpl in IH. rewrite IH. lia.
Qed.

(** X26: the items [add_sound] builds for its menu always come in pairs of
    a tag and a label, one pair per sound of the theme, so the menu never
    refuses them: it never raises its [KDialogError]. *)
Theorem add_sound_menu_is_never_refused
    (env : Env) (text : string) (d : list (string * pyval)) (w : World) :
  List.length (sound_menu_items env d) = (2 * List.length d)%nat
  /\ exn_cls_of (fst (menu env text (sound_menu_items env d) None None w))
     <> Some KDialogError.
Proof.
  split; [apply sound_menu_items_length|].
  unfold menu. rewrite sound_menu_items_length.
  replace (Nat.modulo (2 * List.length d) 2) with 0%nat
    by (symmetry; rewrite Nat.mul_comm; apply Nat.Div0.mod_mul).
  cbn [Nat.eqb negb]. cbv iota.
  unfold bind at 1, do_call. unfold bind at 1, get at 1.
  unfold bind, run, subprocess_run.
  destruct (all_some _) as [argv|]; [|simpl; discriminate].
  destruct (spawn_result env (events w) argv None); simpl; discriminate.
Qed.

Lemma lower_alnum_char (c : ascii) :
  ascii_isalnum c = true -> lower_or_digit (lower_char c) = true.
Proof.
  destruct c as [[] [] [] [] [] [] [] []]; vm_compute; congruence.
Qed.

(** X27: for a theme name in ASCII, the name [install_theme] derives from
    it is made of lower-case ASCII letters and digits only. *)
Theorem install_name_is_lower_case_alphanumeric (env : Env) (s : string) :
  is_ascii s = true ->
  has_char (fun c => negb (lower_or_digit c)) (lower env (alnum_only env s))
  = false.
Proof.
  intros Ha. rewrite (derived_ascii env s Ha). clear Ha.
  induction s as [|c s IH]; simpl; [reflexivity|].
  destruct (ascii_isalnum c) eqn:Hc; [|exact IH].
  simpl. now rewrite (lower_alnum_char c Hc), IH.
Qed.

Lemma install_name_is_lower_case_alphanumeric_witness :
  has_char (fun c => negb (lower_or_digit c))
    (lower cancel_env (alnum_only cancel_env "My Cool Theme!"))
  = false.
Proof.
  apply (install_name_is_lower_case_alphanumeric cancel_env "My Cool Theme!").
  reflexivity.
Defined.

End Editor_more.
